(** * useMultiTabDetection: presence table, leader election, change notifier

    A shallow embedding of [src/index.tsx] (the React hook
    [useMultiTabDetection]) and [src/types.ts].

    Conventions of the embedding.
    - A JS [Map<string, V>] is a [gmap string V].  No property below depends
      on the insertion order of a [Map]; the only place where the source
      orders keys is [determineLeadership], which sorts them first.
    - Tab ids are [string]s compared by code unit ([String.compare]), which
      is what [Array.prototype.sort] does without a comparator.
    - Timestamps and durations are integers ([Z], milliseconds).
    - Every [Date.now()] and [window.location.href] read is an explicit
      argument of the function that performs it; no relation between two
      clock reads is assumed.
    - The values held by the [useRef] and [useState] cells are fields of one
      record [State]; the externally visible calls (postMessage, the state
      setters, the consumer callback, console output) are recorded in
      [trace], newest first.  A line of the debug logger is recorded by its
      call site.
    - The host is part of the state: the live timers with the kind of
      callback they run, the next timer id, and whether the listeners of the
      effect are installed.  What the host does is an [Event]; the instance
      is the state machine [step].
    - The options of the hook are fixed for the lifetime of the instance
      ([Config]); the closures of the source capture them.
    - The [catch] arm of the effect is not modelled: with a string channel
      name nothing in the [try] block throws. *)

From Stdlib Require Import ZArith String Ascii List Permutation Lia.
From stdpp Require Import base option list gmap strings fin_maps fin_sets.

Local Open Scope Z_scope.

(** ** Wire and table data ([src/types.ts]) *)

(** [MessageType].  The TypeScript union has four members; the value on the
    wire is whatever a peer posted, and the [default] arm of the dispatch in
    [handleMessage] receives anything else. *)
Inductive MessageType : Type :=
| heartbeat
| tab_closed
| request_active_tabs
| request_leader
| unknown_type.

(** [TabMessage]; [url] is optional. *)
Record TabMessage : Type := mkTabMessage {
  msg_type : MessageType;
  msg_tabId : string;
  msg_timestamp : Z;
  msg_url : option string
}.

(** [TabInfo]. *)
Record TabInfo : Type := mkTabInfo {
  info_tabId : string;
  lastHeartbeat : Z;
  info_url : string
}.

#[global] Instance MessageType_eq_dec : EqDecision MessageType.
Proof. solve_decision. Defined.

#[global] Instance TabInfo_eq_dec : EqDecision TabInfo.
Proof. solve_decision. Defined.

#[global] Instance TabMessage_eq_dec : EqDecision TabMessage.
Proof. solve_decision. Defined.

(** ** Options of the hook and host environment *)

Record Config : Type := mkConfig {
  (** [tabIdRef.current]: generated once, never reassigned. *)
  tabIdRef : string;
  debug : bool;
  heartbeatInterval : Z;
  inactivityThreshold : Z;
  (** whether the consumer passed [onMultiTabChange] *)
  onMultiTabChange : bool;
  (** [typeof BroadcastChannel !== 'undefined'] *)
  broadcastChannelDefined : bool
}.

(** ** Effects visible outside the hook *)

(** The call sites of the debug logger [log]. *)
Inductive LogSite : Type :=
| LNowLeader | LNowFollower
| LActiveTabs | LActiveUrls
| LLeaderFiring | LFollowerSuppressing
| LSent | LReceived | LUnknownType
| LRemoving
| LInitializing | LCleaningUp.

Inductive Effect : Type :=
| EPostMessage (m : TabMessage)
(** [console.error] in the [catch] of [sendMessage] *)
| EConsoleError
(** [console.error] in the [catch] of the effect *)
| EConsoleErrorInit
| EConsoleWarn
| ELog (site : LogSite)
| ESetIsSupported (b : bool)
| ESetTabCount (n : nat)
| ESetIsMultiTab (b : bool)
| ESetActiveTabUrls (urls : gmap string string)
| ECallback (isMulti : bool) (count : nat) (urls : gmap string string).

(** How [new BroadcastChannel(channelName)] ends on a host whose
    [typeof BroadcastChannel] is not ['undefined'].  It is the one call of
    the effect's [try] block that can throw: [sendMessage] catches its own
    errors, and the consumer's callback is taken to return. *)
Inductive Construction : Type :=
| Constructed
| ConstructorThrows.

(** What the host keeps for a timer id handed out by [setInterval] or
    [setTimeout]. *)
Inductive TimerKind : Type :=
| HeartbeatInterval
| CleanupInterval
| LeaderElectionTimeout.

#[global] Instance TimerKind_eq_dec : EqDecision TimerKind.
Proof. solve_decision. Defined.

(** A [BroadcastChannel] object is open until [close()] is called on it. *)
Inductive Channel : Type :=
| ChannelOpen
| ChannelClosed.

(** ** The state of one instance

    The record has primitive projections: reading a field of an updated
    state is a computation step. *)

#[projections(primitive)]
Record State : Type := mkState {
  channelRef : option Channel;
  activeTabsRef : gmap string TabInfo;
  heartbeatTimerRef : option positive;
  cleanupTimerRef : option positive;
  leaderElectionTimerRef : option positive;
  isSupported : bool;
  isMultiTab : bool;
  tabCount : nat;
  activeTabUrls : gmap string string;
  isLeaderRef : bool;
  prevIsMultiTabRef : bool;
  prevTabCountRef : nat;
  (** host side: live timers, the next timer id (ids are positive
      integers), and whether the effect's listeners (message, beforeunload)
      and its cleanup function are installed *)
  timers : gmap positive TimerKind;
  nextTimerId : positive;
  mounted : bool;
  trace : list Effect
}.

(** The values of the [useRef] and [useState] initialisers. *)
Definition initialState : State := {|
  channelRef := None;
  activeTabsRef := ∅;
  heartbeatTimerRef := None;
  cleanupTimerRef := None;
  leaderElectionTimerRef := None;
  isSupported := false;
  isMultiTab := false;
  tabCount := 1%nat;
  activeTabUrls := ∅;
  isLeaderRef := true;
  prevIsMultiTabRef := false;
  prevTabCountRef := 1%nat;
  timers := ∅;
  nextTimerId := 1%positive;
  mounted := false;
  trace := []
|}.

Definition set_channelRef (v : option Channel) (s : State) : State :=
  mkState v (activeTabsRef s) (heartbeatTimerRef s) (cleanupTimerRef s)
    (leaderElectionTimerRef s) (isSupported s) (isMultiTab s) (tabCount s)
    (activeTabUrls s) (isLeaderRef s) (prevIsMultiTabRef s)
    (prevTabCountRef s) (timers s) (nextTimerId s) (mounted s) (trace s).

Definition set_activeTabsRef (v : gmap string TabInfo) (s : State) : State :=
  mkState (channelRef s) v (heartbeatTimerRef s) (cleanupTimerRef s)
    (leaderElectionTimerRef s) (isSupported s) (isMultiTab s) (tabCount s)
    (activeTabUrls s) (isLeaderRef s) (prevIsMultiTabRef s)
    (prevTabCountRef s) (timers s) (nextTimerId s) (mounted s) (trace s).

Definition set_heartbeatTimerRef (v : option positive) (s : State) : State :=
  mkState (channelRef s) (activeTabsRef s) v (cleanupTimerRef s)
    (leaderElectionTimerRef s) (isSupported s) (isMultiTab s) (tabCount s)
    (activeTabUrls s) (isLeaderRef s) (prevIsMultiTabRef s)
    (prevTabCountRef s) (timers s) (nextTimerId s) (mounted s) (trace s).

Definition set_cleanupTimerRef (v : option positive) (s : State) : State :=
  mkState (channelRef s) (activeTabsRef s) (heartbeatTimerRef s) v
    (leaderElectionTimerRef s) (isSupported s) (isMultiTab s) (tabCount s)
    (activeTabUrls s) (isLeaderRef s) (prevIsMultiTabRef s)
    (prevTabCountRef s) (timers s) (nextTimerId s) (mounted s) (trace s).

Definition set_leaderElectionTimerRef (v : option positive) (s : State)
  : State :=
  mkState (channelRef s) (activeTabsRef s) (heartbeatTimerRef s)
    (cleanupTimerRef s) v (isSupported s) (isMultiTab s) (tabCount s)
    (activeTabUrls s) (isLeaderRef s) (prevIsMultiTabRef s)
    (prevTabCountRef s) (timers s) (nextTimerId s) (mounted s) (trace s).

Definition set_isLeaderRef (v : bool) (s : State) : State :=
  mkState (channelRef s) (activeTabsRef s) (heartbeatTimerRef s)
    (cleanupTimerRef s) (leaderElectionTimerRef s) (isSupported s)
    (isMultiTab s) (tabCount s) (activeTabUrls s) v (prevIsMultiTabRef s)
    (prevTabCountRef s) (timers s) (nextTimerId s) (mounted s) (trace s).

Definition set_prev (isMulti : bool) (count : nat) (s : State) : State :=
  mkState (channelRef s) (activeTabsRef s) (heartbeatTimerRef s)
    (cleanupTimerRef s) (leaderElectionTimerRef s) (isSupported s)
    (isMultiTab s) (tabCount s) (activeTabUrls s) (isLeaderRef s) isMulti
    count (timers s) (nextTimerId s) (mounted s) (trace s).

Definition set_timers (v : gmap positive TimerKind) (s : State) : State :=
  mkState (channelRef s) (activeTabsRef s) (heartbeatTimerRef s)
    (cleanupTimerRef s) (leaderElectionTimerRef s) (isSupported s)
    (isMultiTab s) (tabCount s) (activeTabUrls s) (isLeaderRef s)
    (prevIsMultiTabRef s) (prevTabCountRef s) v (nextTimerId s) (mounted s)
    (trace s).

Definition set_nextTimerId (v : positive) (s : State) : State :=
  mkState (channelRef s) (activeTabsRef s) (heartbeatTimerRef s)
    (cleanupTimerRef s) (leaderElectionTimerRef s) (isSupported s)
    (isMultiTab s) (tabCount s) (activeTabUrls s) (isLeaderRef s)
    (prevIsMultiTabRef s) (prevTabCountRef s) (timers s) v (mounted s)
    (trace s).

Definition set_mounted (v : bool) (s : State) : State :=
  mkState (channelRef s) (activeTabsRef s) (heartbeatTimerRef s)
    (cleanupTimerRef s) (leaderElectionTimerRef s) (isSupported s)
    (isMultiTab s) (tabCount s) (activeTabUrls s) (isLeaderRef s)
    (prevIsMultiTabRef s) (prevTabCountRef s) (timers s) (nextTimerId s) v
    (trace s).

(** Record one external effect. *)
Definition emit (e : Effect) (s : State) : State :=
  mkState (channelRef s) (activeTabsRef s) (heartbeatTimerRef s)
    (cleanupTimerRef s) (leaderElectionTimerRef s) (isSupported s)
    (isMultiTab s) (tabCount s) (activeTabUrls s) (isLeaderRef s)
    (prevIsMultiTabRef s) (prevTabCountRef s) (timers s) (nextTimerId s)
    (mounted s) (e :: trace s).

(** Record several effects at once; the head of the list is the newest. *)
Definition emits (es : list Effect) (s : State) : State :=
  mkState (channelRef s) (activeTabsRef s) (heartbeatTimerRef s)
    (cleanupTimerRef s) (leaderElectionTimerRef s) (isSupported s)
    (isMultiTab s) (tabCount s) (activeTabUrls s) (isLeaderRef s)
    (prevIsMultiTabRef s) (prevTabCountRef s) (timers s) (nextTimerId s)
    (mounted s) (es ++ trace s).

(** [setIsSupported], [setTabCount], [setIsMultiTab], [setActiveTabUrls]:
    the new value is what the hook returns from then on. *)
Definition setIsSupported (v : bool) (s : State) : State :=
  emit (ESetIsSupported v)
    (mkState (channelRef s) (activeTabsRef s) (heartbeatTimerRef s)
       (cleanupTimerRef s) (leaderElectionTimerRef s) v (isMultiTab s)
       (tabCount s) (activeTabUrls s) (isLeaderRef s) (prevIsMultiTabRef s)
       (prevTabCountRef s) (timers s) (nextTimerId s) (mounted s) (trace s)).

Definition setTabCount (v : nat) (s : State) : State :=
  emit (ESetTabCount v)
    (mkState (channelRef s) (activeTabsRef s) (heartbeatTimerRef s)
       (cleanupTimerRef s) (leaderElectionTimerRef s) (isSupported s)
       (isMultiTab s) v (activeTabUrls s) (isLeaderRef s)
       (prevIsMultiTabRef s) (prevTabCountRef s) (timers s) (nextTimerId s)
       (mounted s) (trace s)).

Definition setIsMultiTab (v : bool) (s : State) : State :=
  emit (ESetIsMultiTab v)
    (mkState (channelRef s) (activeTabsRef s) (heartbeatTimerRef s)
       (cleanupTimerRef s) (leaderElectionTimerRef s) (isSupported s) v
       (tabCount s) (activeTabUrls s) (isLeaderRef s) (prevIsMultiTabRef s)
       (prevTabCountRef s) (timers s) (nextTimerId s) (mounted s) (trace s)).

Definition setActiveTabUrls (v : gmap string string) (s : State) : State :=
  emit (ESetActiveTabUrls v)
    (mkState (channelRef s) (activeTabsRef s) (heartbeatTimerRef s)
       (cleanupTimerRef s) (leaderElectionTimerRef s) (isSupported s)
       (isMultiTab s) (tabCount s) v (isLeaderRef s) (prevIsMultiTabRef s)
       (prevTabCountRef s) (timers s) (nextTimerId s) (mounted s) (trace s)).

(** ** Host timers *)

(** [setInterval] / [setTimeout]: a fresh positive id is registered. *)
Definition startTimer (k : TimerKind) (s : State) : State * positive :=
  let id := nextTimerId s in
  (set_nextTimerId (Pos.succ id) (set_timers (<[id := k]> (timers s)) s), id).

(** [clearInterval] / [clearTimeout]: unknown ids are ignored. *)
Definition clearTimer (id : positive) (s : State) : State :=
  set_timers (delete id (timers s)) s.

(** [if (ref.current) clear(ref.current)]: a timer id is a positive integer,
    hence truthy; [null] is not. *)
Definition clearIfSet (ref : option positive) (s : State) : State :=
  match ref with
  | Some id => clearTimer id s
  | None => s
  end.

(** ** Lexicographic order on ids *)

Definition string_le (a b : string) : Prop := String.leb a b = true.

(** ** [Array.prototype.sort] on an array of strings

    Without a comparator the array is put in ascending code-unit order.  The
    result is the unique ascending permutation of the input, so the
    algorithm the engine uses is irrelevant; insertion is used here. *)

Fixpoint sort_insert (x : string) (l : list string) : list string :=
  match l with
  | [] => [x]
  | y :: l' => if String.leb x y then x :: l else y :: sort_insert x l'
  end.

Fixpoint sort (l : list string) : list string :=
  match l with
  | [] => []
  | x :: l' => sort_insert x (sort l')
  end.

(** [lower_bound x l]: [x] is below every element of [l]. *)
Definition lower_bound (x : string) (l : list string) : Prop :=
  Forall (string_le x) l.

(** [ascending l]: every element is below everything that follows it. *)
Fixpoint ascending (l : list string) : Prop :=
  match l with
  | [] => True
  | x :: l' => lower_bound x l' /\ ascending l'
  end.

(** ** The functions of the hook *)

Section Hook.

Context (cfg : Config).

(** [log]: prints only when [debug] is set. *)
Definition log (site : LogSite) (s : State) : State :=
  if debug cfg then emit (ELog site) s else s.

(** The test [now - info.lastHeartbeat < inactivityThreshold] of
    [updateTabState], on an entry of the table. *)
Definition recent (now : Z) (entry : string * TabInfo) : Prop :=
  now - lastHeartbeat entry.2 < inactivityThreshold cfg.

#[global] Instance recent_dec (now : Z) (entry : string * TabInfo) :
  Decision (recent now entry).
Proof. unfold recent. apply _. Defined.

(** The test [tabId !== tabIdRef.current &&
    now - info.lastHeartbeat >= inactivityThreshold] of
    [cleanupInactiveTabs]. *)
Definition inactive (now : Z) (tabId : string) (info : TabInfo) : bool :=
  bool_decide (tabId ≠ tabIdRef cfg)
  && (now - lastHeartbeat info >=? inactivityThreshold cfg).

(** [allTabIds] after the [push] and the [sort]. *)
Definition sortedTabIds (table : gmap string TabInfo) : list string :=
  sort ((map_to_list table).*1 ++ [tabIdRef cfg]).

(** [allTabIds[0] === tabIdRef.current] (an empty array would give
    [undefined], which is not equal to a string). *)
Definition shouldBeLeader (table : gmap string TabInfo) : bool :=
  match sortedTabIds table with
  | first :: _ => bool_decide (first = tabIdRef cfg)
  | [] => false
  end.

(** The ids an instance knows of: the keys of its table and its own id. *)
Definition knownIds (table : gmap string TabInfo) : gset string :=
  dom table ∪ {[tabIdRef cfg]}.

(** The id the instance takes for the leader: [allTabIds[0]]. *)
Definition electedLeader (table : gmap string TabInfo) : option string :=
  head (sortedTabIds table).

Definition determineLeadership (s : State) : State * bool :=
  let should := shouldBeLeader (activeTabsRef s) in
  let wasLeader := isLeaderRef s in
  let s := set_isLeaderRef should s in
  let s :=
    if bool_decide (wasLeader ≠ should)
    then log (if should then LNowLeader else LNowFollower) s
    else s in
  (s, should).

(** The condition guarding the callback in [updateTabState]. *)
Definition shouldNotify (isLeader : bool) (s : State)
    (newIsMultiTab : bool) (newTabCount : nat) : bool :=
  isLeader && onMultiTabChange cfg
  && (bool_decide (prevIsMultiTabRef s ≠ newIsMultiTab)
      || bool_decide (prevTabCountRef s ≠ newTabCount)).

Definition updateTabState (now : Z) (currentUrl : string) (s : State)
  : State :=
  let activeTabs := filter (recent now) (map_to_list (activeTabsRef s)) in
  let s := set_activeTabsRef (list_to_map activeTabs) s in
  let s :=
    set_activeTabsRef
      (<[tabIdRef cfg := mkTabInfo (tabIdRef cfg) now currentUrl]>
         (activeTabsRef s)) s in
  let newTabCount := size (activeTabsRef s) in
  let newIsMultiTab := bool_decide (1 < newTabCount)%nat in
  let urlMap := info_url <$> activeTabsRef s in
  let s := log LActiveTabs s in
  let s := log LActiveUrls s in
  let s := setTabCount newTabCount s in
  let s := setIsMultiTab newIsMultiTab s in
  let s := setActiveTabUrls urlMap s in
  let '(s, isLeader) := determineLeadership s in
  if shouldNotify isLeader s newIsMultiTab newTabCount then
    let s := log LLeaderFiring s in
    let s := emit (ECallback newIsMultiTab newTabCount urlMap) s in
    set_prev newIsMultiTab newTabCount s
  else if negb isLeader && onMultiTabChange cfg then
    log LFollowerSuppressing s
  else s.

(** The table [updateTabState] leaves behind: the entries that pass the
    freshness test, with the own entry written over them. *)
Definition refreshed (now : Z) (currentUrl : string)
    (table : gmap string TabInfo) : gmap string TabInfo :=
  <[tabIdRef cfg := mkTabInfo (tabIdRef cfg) now currentUrl]>
    (filter (recent now) table).

(** Whether the recomputation started from [s] at clock [now] invokes the
    callback: the three conditions of the source, on the refreshed table. *)
Definition notifies (now : Z) (url : string) (s : State) : bool :=
  let table := refreshed now url (activeTabsRef s) in
  shouldNotify (shouldBeLeader table) s
    (bool_decide (1 < size table)%nat) (size table).

(** [sendMessage].  [postMessage] on a closed channel throws; the [catch]
    prints the error. *)
Definition sendMessage (now : Z) (currentUrl : string) (type : MessageType)
    (s : State) : State :=
  match channelRef s with
  | Some channel =>
      let message :=
        mkTabMessage type (tabIdRef cfg) now (Some currentUrl) in
      match channel with
      | ChannelOpen => log LSent (emit (EPostMessage message) s)
      | ChannelClosed => emit EConsoleError s
      end
  | None => s
  end.

(** The upsert of the [heartbeat] / [request-active-tabs] arm. *)
Definition upsertSender (message : TabMessage) (s : State) : State :=
  set_activeTabsRef
    (<[msg_tabId message :=
         mkTabInfo (msg_tabId message) (msg_timestamp message)
           (default EmptyString (msg_url message))]>
       (activeTabsRef s)) s.

(** [handleMessage]; [tSend] is the clock read by the reply's
    [sendMessage], [tNow] the one read by [updateTabState]. *)
Definition handleMessage (tSend tNow : Z) (currentUrl : string)
    (message : TabMessage) (s : State) : State :=
  if bool_decide (msg_tabId message = tabIdRef cfg) then s
  else
    let s := log LReceived s in
    match msg_type message with
    | heartbeat =>
        updateTabState tNow currentUrl (upsertSender message s)
    | request_active_tabs =>
        let s := upsertSender message s in
        let s := sendMessage tSend currentUrl heartbeat s in
        updateTabState tNow currentUrl s
    | tab_closed =>
        let s :=
          set_activeTabsRef (delete (msg_tabId message) (activeTabsRef s)) s in
        updateTabState tNow currentUrl s
    | request_leader =>
        let s := sendMessage tSend currentUrl heartbeat s in
        let s := clearIfSet (leaderElectionTimerRef s) s in
        let '(s, id) := startTimer LeaderElectionTimeout s in
        set_leaderElectionTimerRef (Some id) s
    | unknown_type => log LUnknownType s
    end.

(** One callback of the [forEach] in [cleanupInactiveTabs]; the accumulator
    is the state together with [hasChanges]. *)
Definition sweepEntry (now : Z) (tabId : string) (info : TabInfo)
    (acc : State * bool) : State * bool :=
  if inactive now tabId info then
    let s := log LRemoving acc.1 in
    (set_activeTabsRef (delete tabId (activeTabsRef s)) s, true)
  else acc.

(** The [forEach] loop: every entry present when the loop starts is visited
    once (deleting the entry being visited does not disturb the iteration
    of a [Map]). *)
Definition sweep (now : Z) (s : State) : State * bool :=
  map_fold (sweepEntry now) (s, false) (activeTabsRef s).

(** [cleanupInactiveTabs]; [now] is its own clock read, [now'] the one of
    the [updateTabState] it may call. *)
Definition cleanupInactiveTabs (now now' : Z) (currentUrl : string)
    (s : State) : State :=
  let '(s, hasChanges) := sweep now s in
  if hasChanges then updateTabState now' currentUrl s else s.

(** The body of the [useEffect].  [construct] is how the constructor of
    the channel ends; [tReq], [tBeat], [tNow] are the clock reads of the two
    [sendMessage] calls and of [updateTabState].  When the constructor
    throws, the rest of the [try] block is skipped and the [catch] runs:
    nothing is installed and no cleanup function is returned. *)
Definition mountEffect (construct : Construction) (tReq tBeat tNow : Z)
    (currentUrl : string) (s : State) : State :=
  let supported := broadcastChannelDefined cfg in
  let s := setIsSupported supported s in
  if negb supported then emit EConsoleWarn s
  else
    let s := log LInitializing s in
    match construct with
    | ConstructorThrows =>
        let s := emit EConsoleErrorInit s in
        setIsSupported false s
    | Constructed =>
        let s := set_channelRef (Some ChannelOpen) s in
        let s := sendMessage tReq currentUrl request_active_tabs s in
        let '(s, id) := startTimer HeartbeatInterval s in
        let s := set_heartbeatTimerRef (Some id) s in
        let '(s, id) := startTimer CleanupInterval s in
        let s := set_cleanupTimerRef (Some id) s in
        let s := sendMessage tBeat currentUrl heartbeat s in
        let s := updateTabState tNow currentUrl s in
        set_mounted true s
    end.

(** The cleanup function returned by the effect. *)
Definition unmountEffect (now : Z) (currentUrl : string) (s : State)
  : State :=
  let s := log LCleaningUp s in
  let s := sendMessage now currentUrl tab_closed s in
  let s := clearIfSet (heartbeatTimerRef s) s in
  let s := clearIfSet (cleanupTimerRef s) s in
  let s := clearIfSet (leaderElectionTimerRef s) s in
  let s :=
    match channelRef s with
    | Some _ => set_channelRef (Some ChannelClosed) s
    | None => s
    end in
  set_mounted false s.

(** [handleUnload], the [beforeunload] listener. *)
Definition handleUnload (now : Z) (currentUrl : string) (s : State)
  : State :=
  sendMessage now currentUrl tab_closed s.

(** ** The instance as a state machine

    What the host can make the instance do.  An event that the host cannot
    deliver in the current state (a message while no listener is installed,
    a timer id that is not live, ...) leaves the state as it is.  A run of
    the effect comes with the way the constructor of the channel ends. *)
Inductive Event : Type :=
| EvMount (construct : Construction) (tReq tBeat tNow : Z)
    (currentUrl : string)
| EvUnmount (now : Z) (currentUrl : string)
| EvMessage (tSend tNow : Z) (currentUrl : string) (message : TabMessage)
| EvTimer (id : positive) (now now' : Z) (currentUrl : string)
| EvBeforeUnload (now : Z) (currentUrl : string).

(** What a live timer runs when it fires.  A timeout is spent once fired;
    an interval stays live. *)
Definition fireTimer (id : positive) (now now' : Z) (currentUrl : string)
    (s : State) : State :=
  match timers s !! id with
  | Some HeartbeatInterval => sendMessage now currentUrl heartbeat s
  | Some CleanupInterval => cleanupInactiveTabs now now' currentUrl s
  | Some LeaderElectionTimeout => (determineLeadership (clearTimer id s)).1
  | None => s
  end.

Definition step (s : State) (ev : Event) : State :=
  match ev with
  | EvMount construct tReq tBeat tNow currentUrl =>
      if mounted s then s
      else mountEffect construct tReq tBeat tNow currentUrl s
  | EvUnmount now currentUrl =>
      if mounted s then unmountEffect now currentUrl s else s
  | EvMessage tSend tNow currentUrl message =>
      if mounted s then handleMessage tSend tNow currentUrl message s else s
  | EvTimer id now now' currentUrl => fireTimer id now now' currentUrl s
  | EvBeforeUnload now currentUrl =>
      if mounted s then handleUnload now currentUrl s else s
  end.

Definition run (events : list Event) (s : State) : State :=
  fold_left step events s.

Definition reachable (s : State) : Prop :=
  exists events, s = run events initialState.

End Hook.

(** ** Reading the trace *)

(** The callback invocations, newest first. *)
Fixpoint callbacks (tr : list Effect)
  : list (bool * nat * gmap string string) :=
  match tr with
  | [] => []
  | ECallback isMulti count urls :: tr' =>
      (isMulti, count, urls) :: callbacks tr'
  | _ :: tr' => callbacks tr'
  end.

(** The messages handed to [postMessage], newest first. *)
Fixpoint posted (tr : list Effect) : list TabMessage :=
  match tr with
  | [] => []
  | EPostMessage m :: tr' => m :: posted tr'
  | _ :: tr' => posted tr'
  end.

(** How many times [setTabCount] was called, that is, how many times
    [updateTabState] ran. *)
Fixpoint recomputations (tr : list Effect) : nat :=
  match tr with
  | [] => 0%nat
  | ESetTabCount _ :: tr' => S (recomputations tr')
  | _ :: tr' => recomputations tr'
  end.

(** The pair the callback was last invoked with, [(false, 1)] before any
    invocation. *)
Definition lastNotified (tr : list Effect) : bool * nat :=
  match callbacks tr with
  | (isMulti, count, _) :: _ => (isMulti, count)
  | [] => (false, 1%nat)
  end.

(** The trace without the output of the debug logger. *)
Fixpoint withoutLogs (tr : list Effect) : list Effect :=
  match tr with
  | [] => []
  | ELog _ :: tr' => withoutLogs tr'
  | e :: tr' => e :: withoutLogs tr'
  end.

(** The live leader-election timeouts. *)
Definition pendingLeaderChecks (s : State) : gmap positive TimerKind :=
  filter (λ kv, kv.2 = LeaderElectionTimeout) (timers s).

(** ** Definitions used to state and prove the properties *)

Section Auxiliary.

Context (cfg : Config).

(** What [sendMessage] emits, given the channel. *)
Definition sendEffects (now : Z) (url : string) (type : MessageType)
    (channel : option Channel) : list Effect :=
  match channel with
  | Some ChannelOpen =>
      (if debug cfg then [ELog LSent] else [])
      ++ [EPostMessage (mkTabMessage type (tabIdRef cfg) now (Some url))]
  | Some ChannelClosed => [EConsoleError]
  | None => []
  end.

(** [determineLeadership] as a state transformer. *)
Definition electSelf (s : State) : State :=
  let should := shouldBeLeader cfg (activeTabsRef s) in
  emits
    (if bool_decide (isLeaderRef s ≠ should) && debug cfg
     then [ELog (if should then LNowLeader else LNowFollower)]
     else [])
    (set_isLeaderRef should s).

(** The last statement of [updateTabState]. *)
Definition notifyChange (leader isMulti : bool) (count : nat)
    (urls : gmap string string) (s : State) : State :=
  let fires := shouldNotify cfg leader s isMulti count in
  emits
    (if fires
     then ECallback isMulti count urls
          :: (if debug cfg then [ELog LLeaderFiring] else [])
     else if negb leader && onMultiTabChange cfg && debug cfg
          then [ELog LFollowerSuppressing]
          else [])
    (set_prev (if fires then isMulti else prevIsMultiTabRef s)
       (if fires then count else prevTabCountRef s) s).

(** What the loop has done after visiting the entries of [visited]. *)
Definition sweep_inv (now : Z) (s : State) (acc : State * bool)
    (visited : gmap string TabInfo) : Prop :=
  (forall id,
      activeTabsRef acc.1 !! id
      = match visited !! id with
        | Some info =>
            if inactive cfg now id info then None else activeTabsRef s !! id
        | None => activeTabsRef s !! id
        end)
  /\ (exists k,
        set_activeTabsRef (activeTabsRef s) acc.1
        = Nat.iter k (log cfg LRemoving) s)
  /\ (acc.2 = true
      <-> exists id info,
            visited !! id = Some info /\ inactive cfg now id info = true)
  /\ (acc.2 = false -> acc.1 = s).

(** The part of the effect body that precedes [updateTabState], when the
    transport exists: open the channel, announce, start the intervals. *)
Definition announce (tReq tBeat : Z) (url : string) (s : State) : State :=
  let s := setIsSupported true s in
  let s := log cfg LInitializing s in
  let s := set_channelRef (Some ChannelOpen) s in
  let s := sendMessage cfg tReq url request_active_tabs s in
  let s :=
    set_heartbeatTimerRef (Some (nextTimerId s))
      (startTimer HeartbeatInterval s).1 in
  let s :=
    set_cleanupTimerRef (Some (nextTimerId s))
      (startTimer CleanupInterval s).1 in
  sendMessage cfg tBeat url heartbeat s.

(** The effect body when the transport exists and its constructor throws:
    the statements before the [try], then the [catch]. *)
Definition abandon (s : State) : State :=
  let s := setIsSupported true s in
  let s := log cfg LInitializing s in
  let s := emit EConsoleErrorInit s in
  setIsSupported false s.

(** The stored pair is the pair last notified. *)
Definition prevOk (s : State) : Prop :=
  (prevIsMultiTabRef s, prevTabCountRef s) = lastNotified (trace s).

(** Every live leader-election timeout is the one held in
    [leaderElectionTimerRef]; while the listeners are installed the channel
    is open. *)
Definition hostOk (s : State) : Prop :=
  (forall id,
      timers s !! id = Some LeaderElectionTimeout ->
      leaderElectionTimerRef s = Some id)
  /\ (mounted s = true -> channelRef s = Some ChannelOpen).

(** The timer part of the [request-leader] arm. *)
Definition rearmLeaderCheck (s : State) : State :=
  let s := clearIfSet (leaderElectionTimerRef s) s in
  set_leaderElectionTimerRef (Some (nextTimerId s))
    (startTimer LeaderElectionTimeout s).1.

(** The exposed count and flag agree with the table. *)
Definition countOk (s : State) : Prop :=
  (1 <= tabCount s)%nat
  /\ isMultiTab s = bool_decide (1 < tabCount s)%nat
  /\ ((0 < recomputations (trace s))%nat ->
      tabIdRef cfg ∈ dom (activeTabsRef s)
      /\ tabCount s = size (activeTabsRef s)).

(** The state of an instance that never opened a channel. *)
Definition inert (s : State) : Prop :=
  channelRef s = None
  /\ activeTabsRef s = ∅
  /\ (heartbeatTimerRef s, cleanupTimerRef s, leaderElectionTimerRef s)
     = (None, None, None)
  /\ (isSupported s, isMultiTab s, tabCount s) = (false, false, 1%nat)
  /\ (timers s, nextTimerId s, mounted s) = (∅, 1%positive, false)
  /\ posted (trace s) = []
  /\ callbacks (trace s) = []
  /\ recomputations (trace s) = 0%nat.

(** A [request-leader] message of another instance, delivered. *)
Definition requestLeaderFromPeer (ev : Event) : Prop :=
  exists tSend tNow url message,
    ev = EvMessage tSend tNow url message
    /\ msg_type message = request_leader
    /\ msg_tabId message ≠ tabIdRef cfg.

End Auxiliary.

(** ** Scenario states used by the examples *)

Definition defaultConfig (self : string) : Config := {|
  tabIdRef := self;
  debug := false;
  heartbeatInterval := 10000;
  inactivityThreshold := 30000;
  onMultiTabChange := true;
  broadcastChannelDefined := true
|}.

Local Open Scope string_scope.

(** A heartbeat of [sender], stamped [sent] by the sender's clock. *)
Definition heartbeatFrom (sender : string) (sent : Z) : TabMessage :=
  mkTabMessage heartbeat sender sent (Some "urlOfPeer").

(** Instance [a-100] after its effect has run at time 0. *)
Definition aloneA : State :=
  run (defaultConfig "a-100") [EvMount Constructed 0 0 0 "urlA"]
    initialState.

(** Instance [a-100], started at time 0, has received at time 5 a heartbeat
    that [b-200] stamped 4. *)
Definition withPeerB : State :=
  run (defaultConfig "a-100")
    [EvMount Constructed 0 0 0 "urlA";
     EvMessage 5 5 "urlA" (heartbeatFrom "b-200" 4)]
    initialState.

(** A host without [BroadcastChannel]. *)
Definition unsupportedConfig : Config := {|
  tabIdRef := "a-100";
  debug := true;
  heartbeatInterval := 10000;
  inactivityThreshold := 30000;
  onMultiTabChange := true;
  broadcastChannelDefined := false
|}.

(** What a host may try on an instance. *)
Definition busyHost : list Event :=
  [EvMount Constructed 0 0 0 "urlA";
   EvMessage 5 5 "urlA" (heartbeatFrom "b-200" 4);
   EvTimer 1 10000 10000 "urlA";
   EvTimer 2 15000 15000 "urlA";
   EvBeforeUnload 20000 "urlA";
   EvUnmount 20001 "urlA";
   EvMount Constructed 20002 20002 20002 "urlA"].

(** Two instances ask for a leader election in quick succession. *)
Definition leaderRequests : list Event :=
  [EvMessage 10 10 "urlA" (mkTabMessage request_leader "b-200" 9 None);
   EvMessage 11 11 "urlA" (mkTabMessage request_leader "c-300" 10 None)].

Local Close Scope string_scope.

(** ** Two readings of the specification that the code does not satisfy *)

(** "Only the reaper removes entries for staleness": handling a heartbeat
    of one peer keeps every other peer's entry. *)
Definition only_reaper_evicts : Prop :=
  forall (cfg : Config) (tSend tNow : Z) (url : string)
         (message : TabMessage) (s : State) (id : string) (info : TabInfo),
    reachable cfg s ->
    mounted s = true ->
    msg_type message = heartbeat ->
    msg_tabId message ≠ tabIdRef cfg ->
    id ≠ tabIdRef cfg ->
    id ≠ msg_tabId message ->
    activeTabsRef s !! id = Some info ->
    activeTabsRef (handleMessage cfg tSend tNow url message s) !! id
    = Some info.

(** "Every heartbeat or request-active-tabs message of another instance
    leaves the sender's entry in the table, with the sender's timestamp and
    url". *)
Definition sender_entry_always_stored : Prop :=
  forall (cfg : Config) (tSend tNow : Z) (url : string)
         (message : TabMessage) (s : State),
    reachable cfg s ->
    mounted s = true ->
    msg_tabId message ≠ tabIdRef cfg ->
    msg_type message = heartbeat \/ msg_type message = request_active_tabs ->
    activeTabsRef (handleMessage cfg tSend tNow url message s)
      !! msg_tabId message
    = Some (mkTabInfo (msg_tabId message) (msg_timestamp message)
              (default EmptyString (msg_url message))).

(** ** Definitions for the properties of the life cycle *)

Section LifeCycle.

Context (cfg : Config).

(** A message of this instance, as [sendMessage] builds it. *)
Definition ownMessage (type : MessageType) (now : Z) (url : string)
  : TabMessage :=
  mkTabMessage type (tabIdRef cfg) now (Some url).

(** What one host event makes the instance post, newest first. *)
Definition publishedBy (s : State) (ev : Event) : list TabMessage :=
  match ev with
  | EvMount construct tReq tBeat _ url =>
      if mounted s || negb (broadcastChannelDefined cfg) then []
      else
        match construct with
        | Constructed =>
            [ownMessage heartbeat tBeat url;
             ownMessage request_active_tabs tReq url]
        | ConstructorThrows => []
        end
  | EvUnmount now url =>
      if mounted s then [ownMessage tab_closed now url] else []
  | EvMessage tSend _ url message =>
      if mounted s && bool_decide (msg_tabId message ≠ tabIdRef cfg) then
        match msg_type message with
        | request_active_tabs | request_leader =>
            [ownMessage heartbeat tSend url]
        | heartbeat | tab_closed | unknown_type => []
        end
      else []
  | EvTimer id now _ url =>
      match timers s !! id with
      | Some HeartbeatInterval => [ownMessage heartbeat now url]
      | Some CleanupInterval | Some LeaderElectionTimeout | None => []
      end
  | EvBeforeUnload now url =>
      if mounted s then [ownMessage tab_closed now url] else []
  end.

(** [if (ref.current) clear(ref.current)] on the table of live timers. *)
Definition cleared (ref : option positive) (live : gmap positive TimerKind)
  : gmap positive TimerKind :=
  match ref with
  | Some id => delete id live
  | None => live
  end.

(** Every live timer was handed out before, belongs to an installed effect,
    and is the one its ref holds. *)
Definition timersOwned (s : State) : Prop :=
  forall id kind,
    timers s !! id = Some kind ->
    (id < nextTimerId s)%positive
    /\ mounted s = true
    /\ match kind with
       | HeartbeatInterval => heartbeatTimerRef s = Some id
       | CleanupInterval => cleanupTimerRef s = Some id
       | LeaderElectionTimeout => leaderElectionTimerRef s = Some id
       end.

(** The host side and the channel are the same in two states. *)
Definition sameHost (s s' : State) : Prop :=
  timers s' = timers s
  /\ nextTimerId s' = nextTimerId s
  /\ mounted s' = mounted s
  /\ channelRef s' = channelRef s
  /\ heartbeatTimerRef s' = heartbeatTimerRef s
  /\ cleanupTimerRef s' = cleanupTimerRef s
  /\ leaderElectionTimerRef s' = leaderElectionTimerRef s.

(** The table, the exposed values and the notifier's memory are the same in
    two states. *)
Definition sameView (s s' : State) : Prop :=
  activeTabsRef s' = activeTabsRef s
  /\ isSupported s' = isSupported s
  /\ isMultiTab s' = isMultiTab s
  /\ tabCount s' = tabCount s
  /\ activeTabUrls s' = activeTabUrls s
  /\ isLeaderRef s' = isLeaderRef s
  /\ prevIsMultiTabRef s' = prevIsMultiTabRef s
  /\ prevTabCountRef s' = prevTabCountRef s.

(** What may appear in the trace of an instance. *)
Definition effectOk (e : Effect) : Prop :=
  match e with
  | EPostMessage m =>
      msg_tabId m = tabIdRef cfg
      /\ is_Some (msg_url m)
      /\ (msg_type m = heartbeat \/ msg_type m = tab_closed
          \/ msg_type m = request_active_tabs)
  | EConsoleError => False
  | EConsoleErrorInit => broadcastChannelDefined cfg = true
  | EConsoleWarn => broadcastChannelDefined cfg = false
  | ELog _ => debug cfg = true
  | ESetIsSupported b => b = true -> broadcastChannelDefined cfg = true
  | ESetTabCount n => (1 <= n)%nat
  | ESetIsMultiTab _ => True
  | ESetActiveTabUrls urls => tabIdRef cfg ∈ dom urls
  | ECallback isMulti count urls =>
      onMultiTabChange cfg = true
      /\ isMulti = bool_decide (1 < count)%nat
      /\ count = size urls
      /\ tabIdRef cfg ∈ dom urls
  end.

(** [s'] has the trace of [s] with effects satisfying [effectOk] put in
    front. *)
Definition extends (s s' : State) : Prop :=
  exists new, trace s' = new ++ trace s /\ Forall effectOk new.

(** Every entry is stored under the id it carries; once [updateTabState]
    has run, the exposed url map is the table's. *)
Definition tableOk (s : State) : Prop :=
  (forall id info, activeTabsRef s !! id = Some info -> info_tabId info = id)
  /\ ((0 < recomputations (trace s))%nat ->
      activeTabUrls s = info_url <$> activeTabsRef s).

(** While the listeners are installed, [updateTabState] has run. *)
Definition mountedOk (s : State) : Prop :=
  mounted s = true ->
  (0 < recomputations (trace s))%nat /\ isSupported s = true.

End LifeCycle.

(** The pairs of a list of callback invocations (newest first) are pairwise
    different from their predecessor, the oldest from [(false, 1)]. *)
Fixpoint changesOnly (calls : list (bool * nat * gmap string string))
  : Prop :=
  match calls with
  | [] => True
  | (isMulti, count, _) :: older =>
      (isMulti, count)
      ≠ match older with
        | (isMulti', count', _) :: _ => (isMulti', count')
        | [] => (false, 1%nat)
        end
      /\ changesOnly older
  end.

(** Every peer entry is within the threshold of the own entry's stamp,
    which is the clock of the last run of [updateTabState]. *)
Definition freshOk (cfg : Config) (s : State) : Prop :=
  forall own id info,
    activeTabsRef s !! tabIdRef cfg = Some own ->
    id ≠ tabIdRef cfg ->
    activeTabsRef s !! id = Some info ->
    lastHeartbeat own - lastHeartbeat info < inactivityThreshold cfg.

(** The peers of the table that pass the test of [updateTabState]. *)
Definition freshPeers (cfg : Config) (now : Z) (table : gmap string TabInfo)
  : gmap string TabInfo :=
  filter (fun entry => entry.1 ≠ tabIdRef cfg /\ recent cfg now entry) table.

(** ** More scenario states *)

(** Instance [b-200] after its effect has run at time 3. *)
Definition aloneB : State :=
  run (defaultConfig "b-200") [EvMount Constructed 3 3 3 "urlB"%string]
    initialState.

(** Instance [a-100] has seen [b-200] come (heartbeat stamped 4, received
    at 5) and go ([tab-closed] received at 9). *)
Definition peerCameAndWent : State :=
  run (defaultConfig "a-100")
    [EvMount Constructed 0 0 0 "urlA"%string;
     EvMessage 5 5 "urlA"%string (heartbeatFrom "b-200" 4);
     EvMessage 9 9 "urlA"%string
       (mkTabMessage tab_closed "b-200" 8 None)]
    initialState.

(** * Properties *)

(** ** The id order is a total order *)

Lemma ascii_compare_N (a b : ascii) :
  Ascii.compare a b = N.compare (N_of_ascii a) (N_of_ascii b).
Proof. reflexivity. Qed.

Lemma string_compare_refl (s : string) : String.compare s s = Eq.
Proof.
  induction s as [|a s IH]; simpl; [reflexivity|].
  rewrite ascii_compare_N, N.compare_refl. exact IH.
Qed.

Lemma string_compare_not_Gt_trans (s1 s2 s3 : string) :
  String.compare s1 s2 <> Gt ->
  String.compare s2 s3 <> Gt ->
  String.compare s1 s3 <> Gt.
Proof.
  revert s2 s3.
  induction s1 as [|a s1 IH]; intros [|b s2] [|c s3]; simpl;
    try congruence.
  rewrite !ascii_compare_N.
  destruct (N.compare_spec (N_of_ascii a) (N_of_ascii b)) as [Hab|Hab|Hab];
    destruct (N.compare_spec (N_of_ascii b) (N_of_ascii c)) as [Hbc|Hbc|Hbc];
    destruct (N.compare_spec (N_of_ascii a) (N_of_ascii c)) as [Hac|Hac|Hac];
    try congruence; try lia.
  apply IH.
Qed.

Lemma string_le_refl (a : string) : string_le a a.
Proof. unfold string_le, String.leb. now rewrite string_compare_refl. Qed.

Lemma string_le_trans (a b c : string) :
  string_le a b -> string_le b c -> string_le a c.
Proof.
  unfold string_le, String.leb. intros Hab Hbc.
  pose proof (string_compare_not_Gt_trans a b c) as H.
  destruct (String.compare a b); try discriminate;
    destruct (String.compare b c); try discriminate;
    destruct (String.compare a c); try reflexivity;
    exfalso; apply H; congruence.
Qed.

Lemma string_le_antisym (a b : string) :
  string_le a b -> string_le b a -> a = b.
Proof. apply String.leb_antisym. Qed.

Lemma string_le_of_not_leb (a b : string) :
  String.leb a b = false -> string_le b a.
Proof.
  intros H. destruct (String.leb_total a b) as [Hab|Hba]; [|exact Hba].
  congruence.
Qed.

(** ** [sort] returns the ascending permutation *)

Lemma sort_insert_perm (x : string) (l : list string) :
  Permutation (x :: l) (sort_insert x l).
Proof.
  induction l as [|y l IH]; simpl; [reflexivity|].
  destruct (String.leb x y); [reflexivity|].
  rewrite perm_swap. now apply perm_skip.
Qed.

Lemma sort_perm (l : list string) : Permutation l (sort l).
Proof.
  induction l as [|x l IH]; simpl; [constructor|].
  rewrite <- sort_insert_perm. now apply perm_skip.
Qed.

Lemma lower_bound_weaken (x y : string) (l : list string) :
  string_le x y -> lower_bound y l -> lower_bound x l.
Proof.
  intros Hxy Hy. unfold lower_bound in *.
  eapply Forall_impl; [exact Hy|].
  intros z Hyz. exact (string_le_trans _ _ _ Hxy Hyz).
Qed.

Lemma lower_bound_sort_insert (z x : string) (l : list string) :
  string_le z x -> lower_bound z l -> lower_bound z (sort_insert x l).
Proof.
  intros Hzx Hzl. unfold lower_bound in *.
  rewrite <- (sort_insert_perm x l). now constructor.
Qed.

Lemma sort_insert_ascending (x : string) (l : list string) :
  ascending l -> ascending (sort_insert x l).
Proof.
  induction l as [|y l IH]; simpl; intros Hl.
  - split; [constructor | exact I].
  - destruct Hl as [Hy Hl].
    destruct (String.leb x y) eqn:Hxy; simpl.
    + split; [|split; assumption].
      constructor; [exact Hxy|]. now apply (lower_bound_weaken x y).
    + split; [|now apply IH].
      apply lower_bound_sort_insert; [|exact Hy].
      now apply string_le_of_not_leb.
Qed.

Lemma sort_ascending (l : list string) : ascending (sort l).
Proof.
  induction l as [|x l IH]; simpl; [exact I|].
  now apply sort_insert_ascending.
Qed.

(** The first element of the sorted array is below every element of the
    array. *)
Lemma sort_head_lower_bound (first : string) (rest l : list string) :
  sort l = first :: rest -> lower_bound first l.
Proof.
  intros Hs. pose proof (sort_ascending l) as Hasc.
  rewrite Hs in Hasc. destruct Hasc as [Hfirst _].
  unfold lower_bound. rewrite (sort_perm l), Hs.
  constructor; [apply string_le_refl | exact Hfirst].
Qed.

Lemma sort_head_elem (first : string) (rest l : list string) :
  sort l = first :: rest -> first ∈ l.
Proof.
  intros Hs. rewrite (sort_perm l), Hs. left.
Qed.

Lemma sort_nil_inv (l : list string) : sort l = [] -> l = [].
Proof.
  intros Hs. apply Permutation_nil. rewrite <- Hs. symmetry. apply sort_perm.
Qed.

(** The first element of the sorted array is determined by the set of
    elements alone. *)
Lemma sort_head_unique (l1 l2 : list string) :
  (forall x, x ∈ l1 <-> x ∈ l2) -> head (sort l1) = head (sort l2).
Proof.
  intros Hsame.
  destruct (sort l1) as [|a r1] eqn:H1, (sort l2) as [|b r2] eqn:H2; simpl.
  - reflexivity.
  - apply sort_nil_inv in H1. subst l1.
    apply sort_head_elem, Hsame in H2. now apply elem_of_nil in H2.
  - apply sort_nil_inv in H2. subst l2.
    apply sort_head_elem, Hsame in H1. now apply elem_of_nil in H1.
  - f_equal. apply string_le_antisym.
    + pose proof (sort_head_lower_bound _ _ _ H1) as Hlb.
      unfold lower_bound in Hlb. rewrite Forall_forall in Hlb.
      apply Hlb, Hsame. exact (sort_head_elem _ _ _ H2).
    + pose proof (sort_head_lower_bound _ _ _ H2) as Hlb.
      unfold lower_bound in Hlb. rewrite Forall_forall in Hlb.
      apply Hlb, Hsame. exact (sort_head_elem _ _ _ H1).
Qed.

(** ** Leader election *)

Section Leader.

Context (cfg : Config).

Lemma allTabIds_elem (table : gmap string TabInfo) (id : string) :
  id ∈ (map_to_list table).*1 ++ [tabIdRef cfg] <-> id ∈ knownIds cfg table.
Proof.
  unfold knownIds.
  rewrite elem_of_app, elem_of_union, elem_of_singleton, list_elem_of_singleton.
  rewrite elem_of_dom, list_elem_of_fmap.
  split; (intros [Hin|Hself]; [left|right; exact Hself]).
  - destruct Hin as [[k info] [-> Hin]]. simpl.
    apply elem_of_map_to_list in Hin. eauto.
  - destruct Hin as [info Hin]. exists (id, info). split; [reflexivity|].
    now apply elem_of_map_to_list.
Qed.

Lemma self_known (table : gmap string TabInfo) :
  tabIdRef cfg ∈ knownIds cfg table.
Proof. unfold knownIds. set_solver. Qed.

(** The elected id exists, is a known id, and is below every known id. *)
Lemma electedLeader_least (table : gmap string TabInfo) :
  exists leader,
    electedLeader cfg table = Some leader
    /\ leader ∈ knownIds cfg table
    /\ forall id, id ∈ knownIds cfg table -> string_le leader id.
Proof.
  unfold electedLeader, sortedTabIds.
  destruct (sort ((map_to_list table).*1 ++ [tabIdRef cfg]))
    as [|first rest] eqn:Hs.
  - apply sort_nil_inv in Hs. now destruct ((map_to_list table).*1).
  - exists first. split; [reflexivity|]. split.
    + apply allTabIds_elem. exact (sort_head_elem _ _ _ Hs).
    + intros id Hid. apply allTabIds_elem in Hid.
      pose proof (sort_head_lower_bound _ _ _ Hs) as Hlb.
      unfold lower_bound in Hlb. rewrite Forall_forall in Hlb. now apply Hlb.
Qed.

Lemma shouldBeLeader_elected (table : gmap string TabInfo) :
  shouldBeLeader cfg table
  = bool_decide (electedLeader cfg table = Some (tabIdRef cfg)).
Proof.
  unfold shouldBeLeader, electedLeader.
  destruct (sortedTabIds cfg table) as [|first rest]; simpl.
  - reflexivity.
  - apply bool_decide_ext. split; [now intros ->|now intros [= ->]].
Qed.

Lemma shouldBeLeader_true_iff (table : gmap string TabInfo) :
  shouldBeLeader cfg table = true
  <-> forall id, id ∈ dom table -> string_le (tabIdRef cfg) id.
Proof.
  rewrite shouldBeLeader_elected, bool_decide_eq_true.
  destruct (electedLeader_least table) as (leader & Hl & Hin & Hmin).
  rewrite Hl. split.
  - intros [= ->] id Hid. apply Hmin. unfold knownIds. set_solver.
  - intros Hself. f_equal. apply string_le_antisym.
    + apply Hmin, self_known.
    + unfold knownIds in Hin.
      apply elem_of_union in Hin as [Hin|Hin].
      * now apply Hself.
      * apply elem_of_singleton in Hin. subst. apply string_le_refl.
Qed.

Lemma determineLeadership_result (s : State) :
  (determineLeadership cfg s).2 = shouldBeLeader cfg (activeTabsRef s).
Proof. reflexivity. Qed.

Lemma withoutLogs_log (site : LogSite) (s : State) :
  withoutLogs (trace (log cfg site s)) = withoutLogs (trace s).
Proof. unfold log. now destruct (debug cfg). Qed.

End Leader.

(** Two instances that know the same ids elect the same id. *)
Lemma electedLeader_same_ids (cfg cfg' : Config)
    (table table' : gmap string TabInfo) :
  knownIds cfg' table' = knownIds cfg table ->
  electedLeader cfg' table' = electedLeader cfg table.
Proof.
  intros Hsame. unfold electedLeader, sortedTabIds.
  apply sort_head_unique. intros id.
  now rewrite !allTabIds_elem, Hsame.
Qed.

(** C1. [determineLeadership] returns [true] exactly when the own id is
    below or equal to every key of the presence table in the lexicographic
    order.  Its result is a function of the set of known ids: it is
    [allTabIds[0] === self], where [allTabIds[0]] is the least known id and
    is the same for any two instances that know the same ids, whatever else
    their states hold.  The call writes [isLeaderRef] and may print a debug
    line; the table, the exposed values, the last-notified pair and the
    timers are left as they were. *)
Theorem determineLeadership_least_id (cfg : Config) (s : State) :
  ((determineLeadership cfg s).2 = true
   <-> forall id, id ∈ dom (activeTabsRef s) ->
                  string_le (tabIdRef cfg) id)
  /\ (determineLeadership cfg s).2
     = bool_decide (electedLeader cfg (activeTabsRef s)
                    = Some (tabIdRef cfg))
  /\ (exists leader,
        electedLeader cfg (activeTabsRef s) = Some leader
        /\ leader ∈ knownIds cfg (activeTabsRef s)
        /\ forall id, id ∈ knownIds cfg (activeTabsRef s) ->
                      string_le leader id)
  /\ (forall (cfg' : Config) (s' : State),
        knownIds cfg' (activeTabsRef s') = knownIds cfg (activeTabsRef s) ->
        electedLeader cfg' (activeTabsRef s')
        = electedLeader cfg (activeTabsRef s))
  /\ (let s' := (determineLeadership cfg s).1 in
      activeTabsRef s' = activeTabsRef s
      /\ isLeaderRef s' = (determineLeadership cfg s).2
      /\ (tabCount s', isMultiTab s', activeTabUrls s')
         = (tabCount s, isMultiTab s, activeTabUrls s)
      /\ (prevIsMultiTabRef s', prevTabCountRef s')
         = (prevIsMultiTabRef s, prevTabCountRef s)
      /\ timers s' = timers s
      /\ withoutLogs (trace s') = withoutLogs (trace s)).
Proof.
  split; [|split; [|split; [|split]]].
  - rewrite determineLeadership_result. apply shouldBeLeader_true_iff.
  - rewrite determineLeadership_result. apply shouldBeLeader_elected.
  - apply electedLeader_least.
  - intros cfg' s'. apply electedLeader_same_ids.
  - unfold determineLeadership; simpl.
    destruct (bool_decide _); simpl;
      rewrite ?withoutLogs_log; unfold log;
      destruct (debug cfg); simpl; repeat split; reflexivity.
Qed.

(** ** The functions as setters and emitted effects

    Each function of the hook is a sequence of field writes and effects;
    the lemmas of this part put it in that form, with every case
    distinction inside the written value or the emitted list. *)

Section NormalForms.

Context (cfg : Config).

Lemma log_emits (site : LogSite) (s : State) :
  log cfg site s = emits (if debug cfg then [ELog site] else []) s.
Proof.
  unfold log. destruct (debug cfg); [reflexivity|]. now destruct s.
Qed.

Lemma sendMessage_emits (now : Z) (url : string) (type : MessageType)
    (s : State) :
  sendMessage cfg now url type s
  = emits (sendEffects cfg now url type (channelRef s)) s.
Proof.
  unfold sendMessage, sendEffects, log.
  destruct (channelRef s) as [[|]|]; destruct (debug cfg);
    try reflexivity; now destruct s.
Qed.

Lemma clearIfSet_normal (ref : option positive) (s : State) :
  clearIfSet ref s
  = set_timers (match ref with
                | Some id => delete id (timers s)
                | None => timers s
                end) s.
Proof. now destruct ref. Qed.

Lemma determineLeadership_normal (s : State) :
  determineLeadership cfg s
  = (electSelf cfg s, shouldBeLeader cfg (activeTabsRef s)).
Proof.
  unfold determineLeadership, electSelf, log. f_equal.
  destruct s as [? table ? ? ? ? ? ? ? wasLeader ? ? ? ? ? ?].
  cbn [isLeaderRef activeTabsRef].
  destruct (bool_decide (wasLeader ≠ shouldBeLeader cfg table));
    destruct (debug cfg); reflexivity.
Qed.

Lemma notify_normal (leader isMulti : bool) (count : nat)
    (urls : gmap string string) (s : State) :
  (if shouldNotify cfg leader s isMulti count
   then set_prev isMulti count
          (emit (ECallback isMulti count urls) (log cfg LLeaderFiring s))
   else if negb leader && onMultiTabChange cfg
        then log cfg LFollowerSuppressing s
        else s)
  = notifyChange cfg leader isMulti count urls s.
Proof.
  unfold notifyChange, log.
  destruct (shouldNotify cfg leader s isMulti count);
    destruct (negb leader && onMultiTabChange cfg);
    destruct (debug cfg); destruct s; reflexivity.
Qed.

Lemma updateTabState_stages (now : Z) (url : string) (s : State) :
  updateTabState cfg now url s
  = let table := refreshed cfg now url (activeTabsRef s) in
    let count := size table in
    let isMulti := bool_decide (1 < count)%nat in
    let urls := info_url <$> table in
    notifyChange cfg (shouldBeLeader cfg table) isMulti count urls
      (electSelf cfg
         (setActiveTabUrls urls
            (setIsMultiTab isMulti
               (setTabCount count
                  (emits
                     (if debug cfg
                      then [ELog LActiveUrls; ELog LActiveTabs]
                      else [])
                     (set_activeTabsRef table s)))))).
Proof.
  unfold updateTabState, refreshed. cbv zeta.
  rewrite determineLeadership_normal. cbv beta iota.
  rewrite notify_normal, !log_emits, <- map_filter_alt.
  destruct s. destruct (debug cfg); reflexivity.
Qed.

End NormalForms.

(** Evaluate a field of a state built from setters and [emits]. *)
Ltac fields :=
  cbn [channelRef activeTabsRef heartbeatTimerRef cleanupTimerRef
       leaderElectionTimerRef isSupported isMultiTab tabCount activeTabUrls
       isLeaderRef prevIsMultiTabRef prevTabCountRef timers nextTimerId
       mounted trace set_channelRef set_activeTabsRef set_heartbeatTimerRef
       set_cleanupTimerRef set_leaderElectionTimerRef set_isLeaderRef
       set_prev set_timers set_nextTimerId set_mounted emit emits
       setIsSupported setTabCount setIsMultiTab setActiveTabUrls
       electSelf notifyChange upsertSender startTimer clearTimer
       fst snd] in *.

(** Put every function of the hook in its setter form. *)
Ltac normal_forms :=
  rewrite ?updateTabState_stages, ?determineLeadership_normal,
    ?sendMessage_emits, ?log_emits, ?clearIfSet_normal in *;
  cbv zeta in *.

(** ** Reading a trace built by concatenation *)

Lemma callbacks_app (l1 l2 : list Effect) :
  callbacks (l1 ++ l2) = callbacks l1 ++ callbacks l2.
Proof.
  induction l1 as [|e l1 IH]; [reflexivity|].
  destruct e; simpl; congruence.
Qed.

Lemma posted_app (l1 l2 : list Effect) :
  posted (l1 ++ l2) = posted l1 ++ posted l2.
Proof.
  induction l1 as [|e l1 IH]; [reflexivity|].
  destruct e; simpl; congruence.
Qed.

Lemma recomputations_app (l1 l2 : list Effect) :
  recomputations (l1 ++ l2) = (recomputations l1 + recomputations l2)%nat.
Proof.
  induction l1 as [|e l1 IH]; [reflexivity|].
  destruct e; simpl; congruence.
Qed.

Lemma withoutLogs_app (l1 l2 : list Effect) :
  withoutLogs (l1 ++ l2) = withoutLogs l1 ++ withoutLogs l2.
Proof.
  induction l1 as [|e l1 IH]; [reflexivity|].
  destruct e; simpl; congruence.
Qed.

(** Setter form, then the fields read off. *)
Ltac state_eval :=
  normal_forms; fields; unfold notifies, shouldNotify, sendEffects in *;
  fields.

Ltac trace_simpl :=
  rewrite ?callbacks_app, ?posted_app, ?recomputations_app,
    ?withoutLogs_app;
  cbn [callbacks posted recomputations withoutLogs app Nat.add].

(** Decide the case distinctions left in the goal. *)
Ltac split_conds :=
  repeat match goal with
    | |- context [if ?b then _ else _] =>
        destruct b eqn:?; fields; trace_simpl
    | |- context [match ?o with Some _ => _ | None => _ end] =>
        destruct o eqn:?; fields; trace_simpl
    | |- context [match ?c with ChannelOpen => _ | ChannelClosed => _ end] =>
        destruct c eqn:?; fields; trace_simpl
    end.

Ltac crush_state :=
  state_eval; trace_simpl; split_conds; try reflexivity.

(** ** Recomputation: [updateTabState] *)

Section Recompute.

Context (cfg : Config).

Lemma updateTabState_table (now : Z) (url : string) (s : State) :
  activeTabsRef (updateTabState cfg now url s)
  = refreshed cfg now url (activeTabsRef s).
Proof. state_eval. reflexivity. Qed.

Lemma updateTabState_tabCount (now : Z) (url : string) (s : State) :
  tabCount (updateTabState cfg now url s)
  = size (refreshed cfg now url (activeTabsRef s)).
Proof. state_eval. reflexivity. Qed.

Lemma updateTabState_isMultiTab (now : Z) (url : string) (s : State) :
  isMultiTab (updateTabState cfg now url s)
  = bool_decide (1 < size (refreshed cfg now url (activeTabsRef s)))%nat.
Proof. state_eval. reflexivity. Qed.

Lemma updateTabState_activeTabUrls (now : Z) (url : string) (s : State) :
  activeTabUrls (updateTabState cfg now url s)
  = info_url <$> refreshed cfg now url (activeTabsRef s).
Proof. state_eval. reflexivity. Qed.

Lemma updateTabState_callbacks (now : Z) (url : string) (s : State) :
  callbacks (trace (updateTabState cfg now url s))
  = (if notifies cfg now url s
     then [(bool_decide (1 < size (refreshed cfg now url (activeTabsRef s)))%nat,
            size (refreshed cfg now url (activeTabsRef s)),
            info_url <$> refreshed cfg now url (activeTabsRef s))]
     else [])
    ++ callbacks (trace s).
Proof.
  state_eval. trace_simpl. split_conds; reflexivity.
Qed.

Lemma updateTabState_prev (now : Z) (url : string) (s : State) :
  (prevIsMultiTabRef (updateTabState cfg now url s),
   prevTabCountRef (updateTabState cfg now url s))
  = if notifies cfg now url s
    then (bool_decide (1 < size (refreshed cfg now url (activeTabsRef s)))%nat,
          size (refreshed cfg now url (activeTabsRef s)))
    else (prevIsMultiTabRef s, prevTabCountRef s).
Proof.
  state_eval. split_conds; reflexivity.
Qed.

End Recompute.

(** ** The reaper: [cleanupInactiveTabs] *)

Section Reaper.

Context (cfg : Config).

Lemma inactive_true_iff (now : Z) (tabId : string) (info : TabInfo) :
  inactive cfg now tabId info = true
  <-> tabId ≠ tabIdRef cfg
      /\ inactivityThreshold cfg <= now - lastHeartbeat info.
Proof.
  unfold inactive.
  rewrite andb_true_iff, bool_decide_eq_true, Z.geb_le. reflexivity.
Qed.

Lemma inactive_not_recent (now : Z) (tabId : string) (info : TabInfo) :
  tabId ≠ tabIdRef cfg ->
  (inactive cfg now tabId info = false <-> recent cfg now (tabId, info)).
Proof.
  intros Hne. unfold recent; simpl.
  destruct (inactive cfg now tabId info) eqn:Hin.
  - apply inactive_true_iff in Hin. split; [discriminate|lia].
  - split; [intros _|reflexivity].
    destruct (Z_lt_le_dec (now - lastHeartbeat info)
                (inactivityThreshold cfg)) as [Hlt|Hle]; [exact Hlt|].
    assert (inactive cfg now tabId info = true) as Habs
        by (apply inactive_true_iff; split; assumption).
    congruence.
Qed.

Lemma set_activeTabsRef_log (site : LogSite) (table : gmap string TabInfo)
    (s : State) :
  set_activeTabsRef table (log cfg site s)
  = log cfg site (set_activeTabsRef table s).
Proof. unfold log. now destruct (debug cfg). Qed.

Lemma set_activeTabsRef_twice (t1 t2 : gmap string TabInfo) (s : State) :
  set_activeTabsRef t1 (set_activeTabsRef t2 s) = set_activeTabsRef t1 s.
Proof. reflexivity. Qed.

Lemma set_activeTabsRef_same (s : State) :
  set_activeTabsRef (activeTabsRef s) s = s.
Proof. now destruct s. Qed.

Lemma activeTabsRef_log (site : LogSite) (s : State) :
  activeTabsRef (log cfg site s) = activeTabsRef s.
Proof. unfold log. now destruct (debug cfg). Qed.

Lemma sweep_inv_fold (now : Z) (s : State) (m : gmap string TabInfo) :
  sweep_inv cfg now s (map_fold (sweepEntry cfg now) (s, false) m) m.
Proof.
  apply (map_fold_weak_ind (sweep_inv cfg now s)).
  - repeat split; simpl.
    + exists 0%nat. simpl. apply set_activeTabsRef_same.
    + discriminate.
    + intros (id & info & Hl & _). now rewrite lookup_empty in Hl.
  - intros i x m' [r b] Hfresh (Htab & [k Hk] & Hch & Hno).
    unfold sweepEntry. simpl in *.
    destruct (inactive cfg now i x) eqn:Hin; repeat split; simpl.
    + intros id. rewrite activeTabsRef_log.
      destruct (decide (id = i)) as [->|Hne].
      * now rewrite lookup_delete_eq, lookup_insert_eq, Hin.
      * rewrite lookup_delete_ne, lookup_insert_ne by congruence. apply Htab.
    + exists (S k). simpl. rewrite <- Hk.
      now rewrite set_activeTabsRef_twice, set_activeTabsRef_log.
    + intros _. exists i, x. now rewrite lookup_insert_eq.
    + discriminate.
    + intros id. destruct (decide (id = i)) as [->|Hne].
      * rewrite lookup_insert_eq, Hin, Htab. now rewrite Hfresh.
      * rewrite lookup_insert_ne by congruence. apply Htab.
    + exists k. exact Hk.
    + intros Hb. apply Hch in Hb as (id & info & Hl & Hi).
      exists id, info. split; [|exact Hi].
      rewrite lookup_insert_ne; [exact Hl|]. intros ->. congruence.
    + intros (id & info & Hl & Hi). apply Hch.
      destruct (decide (i = id)) as [->|Hne].
      * rewrite lookup_insert_eq in Hl. congruence.
      * rewrite lookup_insert_ne in Hl by exact Hne. eauto.
    + exact Hno.
Qed.

Lemma sweep_table (now : Z) (s : State) (id : string) :
  activeTabsRef (sweep cfg now s).1 !! id
  = match activeTabsRef s !! id with
    | Some info => if inactive cfg now id info then None else Some info
    | None => None
    end.
Proof.
  destruct (sweep_inv_fold now s (activeTabsRef s)) as (Htab & _).
  unfold sweep. rewrite Htab.
  destruct (activeTabsRef s !! id) as [info|] eqn:Hl; [|reflexivity].
  now destruct (inactive cfg now id info).
Qed.

Lemma sweep_hasChanges (now : Z) (s : State) :
  (sweep cfg now s).2 = true
  <-> exists id info,
        activeTabsRef s !! id = Some info /\ inactive cfg now id info = true.
Proof.
  destruct (sweep_inv_fold now s (activeTabsRef s)) as (_ & _ & Hch & _).
  exact Hch.
Qed.

Lemma sweep_unchanged (now : Z) (s : State) :
  (sweep cfg now s).2 = false -> (sweep cfg now s).1 = s.
Proof.
  destruct (sweep_inv_fold now s (activeTabsRef s)) as (_ & _ & _ & Hno).
  exact Hno.
Qed.

(** Apart from the table, the loop only prints debug lines. *)
Lemma sweep_frame (now : Z) (s : State) :
  exists k,
    set_activeTabsRef (activeTabsRef s) (sweep cfg now s).1
    = Nat.iter k (log cfg LRemoving) s.
Proof.
  destruct (sweep_inv_fold now s (activeTabsRef s)) as (_ & Hk & _).
  exact Hk.
Qed.

End Reaper.

(** ** What each function leaves alone *)

Section Frames.

Context (cfg : Config).

Lemma callbacks_withoutLogs (tr : list Effect) :
  callbacks (withoutLogs tr) = callbacks tr.
Proof.
  induction tr as [|e tr IH]; [reflexivity|].
  destruct e; simpl; congruence.
Qed.

Lemma recomputations_withoutLogs (tr : list Effect) :
  recomputations (withoutLogs tr) = recomputations tr.
Proof.
  induction tr as [|e tr IH]; [reflexivity|].
  destruct e; simpl; congruence.
Qed.

Lemma iter_log_fields (k : nat) (site : LogSite) (s : State) :
  let s' := Nat.iter k (log cfg site) s in
  channelRef s' = channelRef s
  /\ activeTabsRef s' = activeTabsRef s
  /\ leaderElectionTimerRef s' = leaderElectionTimerRef s
  /\ (isSupported s', isMultiTab s', tabCount s', activeTabUrls s')
     = (isSupported s, isMultiTab s, tabCount s, activeTabUrls s)
  /\ isLeaderRef s' = isLeaderRef s
  /\ (prevIsMultiTabRef s', prevTabCountRef s')
     = (prevIsMultiTabRef s, prevTabCountRef s)
  /\ (timers s', nextTimerId s', mounted s')
     = (timers s, nextTimerId s, mounted s)
  /\ withoutLogs (trace s') = withoutLogs (trace s).
Proof.
  induction k as [|k IH]; [repeat split; reflexivity|].
  cbn zeta in *. cbn [Nat.iter nat_rect] in *.
  destruct IH as (H1 & H2 & H3 & H4 & H5 & H6 & H7 & H8).
  rewrite log_emits. fields. trace_simpl.
  repeat split; try assumption.
  destruct (debug cfg); assumption.
Qed.

(** The loop of the reaper changes the table and prints debug lines;
    nothing else. *)
Lemma sweep_fields (now : Z) (s : State) :
  let s' := (sweep cfg now s).1 in
  channelRef s' = channelRef s
  /\ leaderElectionTimerRef s' = leaderElectionTimerRef s
  /\ (isSupported s', isMultiTab s', tabCount s', activeTabUrls s')
     = (isSupported s, isMultiTab s, tabCount s, activeTabUrls s)
  /\ isLeaderRef s' = isLeaderRef s
  /\ (prevIsMultiTabRef s', prevTabCountRef s')
     = (prevIsMultiTabRef s, prevTabCountRef s)
  /\ (timers s', nextTimerId s', mounted s')
     = (timers s, nextTimerId s, mounted s)
  /\ withoutLogs (trace s') = withoutLogs (trace s).
Proof.
  destruct (sweep_frame cfg now s) as [k Hk].
  destruct (iter_log_fields k LRemoving s)
    as (H1 & _ & H3 & H4 & H5 & H6 & H7 & H8).
  rewrite <- Hk in H1, H3, H4, H5, H6, H7, H8. simpl in *.
  repeat split; assumption.
Qed.

Lemma updateTabState_fields (now : Z) (url : string) (s : State) :
  let s' := updateTabState cfg now url s in
  channelRef s' = channelRef s
  /\ leaderElectionTimerRef s' = leaderElectionTimerRef s
  /\ isSupported s' = isSupported s
  /\ (timers s', nextTimerId s', mounted s')
     = (timers s, nextTimerId s, mounted s)
  /\ posted (trace s') = posted (trace s)
  /\ recomputations (trace s') = S (recomputations (trace s))
  /\ isLeaderRef s'
     = shouldBeLeader cfg (refreshed cfg now url (activeTabsRef s)).
Proof.
  crush_state; repeat split; reflexivity.
Qed.

Lemma sendMessage_fields (now : Z) (url : string) (type : MessageType)
    (s : State) :
  let s' := sendMessage cfg now url type s in
  channelRef s' = channelRef s
  /\ activeTabsRef s' = activeTabsRef s
  /\ leaderElectionTimerRef s' = leaderElectionTimerRef s
  /\ (isSupported s', isMultiTab s', tabCount s', activeTabUrls s')
     = (isSupported s, isMultiTab s, tabCount s, activeTabUrls s)
  /\ isLeaderRef s' = isLeaderRef s
  /\ (prevIsMultiTabRef s', prevTabCountRef s')
     = (prevIsMultiTabRef s, prevTabCountRef s)
  /\ (timers s', nextTimerId s', mounted s')
     = (timers s, nextTimerId s, mounted s)
  /\ callbacks (trace s') = callbacks (trace s)
  /\ recomputations (trace s') = recomputations (trace s).
Proof. crush_state; repeat split; reflexivity. Qed.

Lemma mountEffect_supported (tReq tBeat tNow : Z) (url : string)
    (s : State) :
  broadcastChannelDefined cfg = true ->
  mountEffect cfg Constructed tReq tBeat tNow url s
  = set_mounted true (updateTabState cfg tNow url (announce cfg tReq tBeat url s)).
Proof. intros Hsup. unfold mountEffect. now rewrite Hsup. Qed.

Lemma mountEffect_throws (tReq tBeat tNow : Z) (url : string)
    (s : State) :
  broadcastChannelDefined cfg = true ->
  mountEffect cfg ConstructorThrows tReq tBeat tNow url s = abandon cfg s.
Proof. intros Hsup. unfold mountEffect. now rewrite Hsup. Qed.

Lemma mountEffect_unsupported (construct : Construction)
    (tReq tBeat tNow : Z) (url : string) (s : State) :
  broadcastChannelDefined cfg = false ->
  mountEffect cfg construct tReq tBeat tNow url s
  = emit EConsoleWarn (setIsSupported false s).
Proof. intros Hsup. unfold mountEffect. now rewrite Hsup. Qed.

(** Apart from [isSupported] and the trace, an effect whose constructor
    throws leaves the state as it was. *)
Lemma abandon_fields (s : State) :
  let s' := abandon cfg s in
  channelRef s' = channelRef s
  /\ activeTabsRef s' = activeTabsRef s
  /\ (heartbeatTimerRef s', cleanupTimerRef s', leaderElectionTimerRef s')
     = (heartbeatTimerRef s, cleanupTimerRef s, leaderElectionTimerRef s)
  /\ isSupported s' = false
  /\ (isMultiTab s', tabCount s', activeTabUrls s')
     = (isMultiTab s, tabCount s, activeTabUrls s)
  /\ isLeaderRef s' = isLeaderRef s
  /\ (prevIsMultiTabRef s', prevTabCountRef s')
     = (prevIsMultiTabRef s, prevTabCountRef s)
  /\ (timers s', nextTimerId s', mounted s')
     = (timers s, nextTimerId s, mounted s)
  /\ posted (trace s') = posted (trace s)
  /\ callbacks (trace s') = callbacks (trace s)
  /\ recomputations (trace s') = recomputations (trace s).
Proof.
  unfold abandon, log, setIsSupported. simpl.
  destruct (debug cfg); simpl; repeat split; reflexivity.
Qed.

Lemma announce_fields (tReq tBeat : Z) (url : string) (s : State) :
  let s' := announce cfg tReq tBeat url s in
  channelRef s' = Some ChannelOpen
  /\ activeTabsRef s' = activeTabsRef s
  /\ leaderElectionTimerRef s' = leaderElectionTimerRef s
  /\ (isMultiTab s', tabCount s', activeTabUrls s')
     = (isMultiTab s, tabCount s, activeTabUrls s)
  /\ (prevIsMultiTabRef s', prevTabCountRef s')
     = (prevIsMultiTabRef s, prevTabCountRef s)
  /\ timers s'
     = <[Pos.succ (nextTimerId s) := CleanupInterval]>
         (<[nextTimerId s := HeartbeatInterval]> (timers s))
  /\ callbacks (trace s') = callbacks (trace s)
  /\ recomputations (trace s') = recomputations (trace s).
Proof.
  unfold announce, sendMessage, log, setIsSupported. simpl.
  destruct (debug cfg); simpl; repeat split; reflexivity.
Qed.

End Frames.

Section ReaperSpec.

Context (cfg : Config).

Lemma refreshed_lookup_other (now : Z) (url : string)
    (table : gmap string TabInfo) (id : string) :
  id ≠ tabIdRef cfg ->
  refreshed cfg now url table !! id
  = match table !! id with
    | Some info =>
        if inactive cfg now id info then None else Some info
    | None => None
    end.
Proof.
  intros Hne. unfold refreshed.
  rewrite lookup_insert_ne by congruence.
  destruct (table !! id) as [info|] eqn:Hl.
  - destruct (inactive cfg now id info) eqn:Hin.
    + apply map_lookup_filter_None_2. right. intros x Hx Hrec.
      rewrite Hl in Hx. injection Hx as <-.
      apply inactive_not_recent in Hrec; [congruence|exact Hne].
    + apply map_lookup_filter_Some_2; [exact Hl|].
      now apply inactive_not_recent.
  - apply map_lookup_filter_None_2. now left.
Qed.

Lemma refreshed_lookup_self (now : Z) (url : string)
    (table : gmap string TabInfo) :
  refreshed cfg now url table !! tabIdRef cfg
  = Some (mkTabInfo (tabIdRef cfg) now url).
Proof. unfold refreshed. apply lookup_insert_eq. Qed.

Lemma cleanupInactiveTabs_unfold (now now' : Z) (url : string) (s : State) :
  cleanupInactiveTabs cfg now now' url s
  = if (sweep cfg now s).2
    then updateTabState cfg now' url (sweep cfg now s).1
    else s.
Proof.
  unfold cleanupInactiveTabs.
  pose proof (sweep_unchanged cfg now s) as Hno.
  destruct (sweep cfg now s) as [s1 [|]]; simpl in *; [reflexivity|].
  now apply Hno.
Qed.

End ReaperSpec.

(** C4. One sweep of [cleanupInactiveTabs], reading the clock as [now]:
    the loop deletes exactly the entries whose id is not the own id and
    whose [now - lastHeartbeat >= inactivityThreshold], and keeps every
    other entry as it is (so the own entry is never deleted by it);
    [updateTabState] is run exactly when at least one entry was deleted,
    and otherwise the whole state is left as it was.  When the
    recomputation reads the same clock value, the table after the whole
    call holds, for ids other than the own, exactly the entries the loop
    kept, and the own entry is present. *)
Theorem cleanupInactiveTabs_evicts_stale_peers (cfg : Config)
    (now now' : Z) (url : string) (s : State) :
  let stale (id : string) (info : TabInfo) : bool :=
    bool_decide (id ≠ tabIdRef cfg
                 /\ inactivityThreshold cfg <= now - lastHeartbeat info) in
  let swept := (sweep cfg now s).1 in
  let removed := (sweep cfg now s).2 in
  (forall id,
      activeTabsRef swept !! id
      = match activeTabsRef s !! id with
        | Some info => if stale id info then None else Some info
        | None => None
        end)
  /\ activeTabsRef swept !! tabIdRef cfg = activeTabsRef s !! tabIdRef cfg
  /\ (removed = true
      <-> exists id info,
            activeTabsRef s !! id = Some info /\ stale id info = true)
  /\ cleanupInactiveTabs cfg now now' url s
     = (if removed then updateTabState cfg now' url swept else s)
  /\ recomputations (trace (cleanupInactiveTabs cfg now now' url s))
     = (recomputations (trace s) + if removed then 1 else 0)%nat
  /\ (forall id,
        id ≠ tabIdRef cfg ->
        activeTabsRef (cleanupInactiveTabs cfg now now url s) !! id
        = activeTabsRef swept !! id)
  /\ (is_Some (activeTabsRef s !! tabIdRef cfg) ->
      is_Some (activeTabsRef (cleanupInactiveTabs cfg now now' url s)
                 !! tabIdRef cfg)).
Proof.
  intros stale swept removed.
  assert (forall id info, stale id info = inactive cfg now id info) as Hstale.
  { intros id info. unfold stale.
    destruct (inactive cfg now id info) eqn:Hin.
    - apply bool_decide_eq_true. now apply inactive_true_iff.
    - apply bool_decide_eq_false. intros Habs.
      apply inactive_true_iff in Habs. congruence. }
  assert (forall id,
             activeTabsRef swept !! id
             = match activeTabsRef s !! id with
               | Some info => if stale id info then None else Some info
               | None => None
               end) as Hswept.
  { intros id. unfold swept. rewrite sweep_table.
    destruct (activeTabsRef s !! id); [|reflexivity]. now rewrite Hstale. }
  split; [exact Hswept|].
  split.
  { rewrite Hswept. destruct (activeTabsRef s !! tabIdRef cfg) as [info|];
      [|reflexivity].
    unfold stale. rewrite bool_decide_eq_false_2; [reflexivity|].
    intros [Hne _]. now apply Hne. }
  split.
  { unfold removed. rewrite sweep_hasChanges.
    split; intros (id & info & Hl & Hi); exists id, info;
      (split; [exact Hl|]); [now rewrite Hstale|now rewrite <- Hstale]. }
  split; [apply cleanupInactiveTabs_unfold|].
  split.
  { rewrite cleanupInactiveTabs_unfold. fold removed swept.
    destruct removed; [|lia].
    destruct (updateTabState_fields cfg now' url swept)
      as (_ & _ & _ & _ & _ & Hrec & _).
    destruct (sweep_fields cfg now s) as (_ & _ & _ & _ & _ & _ & Htr).
    rewrite Hrec. fold swept in Htr.
    rewrite <- (recomputations_withoutLogs (trace swept)), Htr,
      recomputations_withoutLogs. lia. }
  split.
  { intros id Hne. rewrite cleanupInactiveTabs_unfold. fold removed swept.
    destruct removed eqn:Hrem.
    - rewrite updateTabState_table, refreshed_lookup_other by exact Hne.
      rewrite Hswept.
      destruct (activeTabsRef s !! id) as [info|]; [|reflexivity].
      rewrite Hstale.
      destruct (inactive cfg now id info) eqn:Hin; [reflexivity|].
      now rewrite Hin.
    - unfold swept. now rewrite (sweep_unchanged cfg now s Hrem). }
  intros Hself. rewrite cleanupInactiveTabs_unfold.
  destruct (sweep cfg now s).2; [|exact Hself].
  rewrite updateTabState_table, refreshed_lookup_self. eauto.
Qed.

(** ** The change notifier *)

Section Notifier.

Context (cfg : Config).

Lemma pair_differs (a b : bool) (n m : nat) :
  bool_decide (a ≠ b) || bool_decide (n ≠ m)
  = bool_decide ((a, n) ≠ (b, m)).
Proof.
  destruct (decide (a = b)) as [->|Hab], (decide (n = m)) as [->|Hnm].
  - rewrite !bool_decide_eq_false_2; [reflexivity|tauto..].
  - rewrite (bool_decide_eq_true_2 (n ≠ m)) by exact Hnm.
    rewrite orb_true_r. symmetry. apply bool_decide_eq_true. congruence.
  - rewrite (bool_decide_eq_true_2 (a ≠ b)) by exact Hab.
    symmetry. apply bool_decide_eq_true. congruence.
  - rewrite (bool_decide_eq_true_2 (a ≠ b)) by exact Hab.
    symmetry. apply bool_decide_eq_true. congruence.
Qed.

Lemma shouldBeLeader_same_dom (t1 t2 : gmap string TabInfo) :
  dom t1 = dom t2 -> shouldBeLeader cfg t1 = shouldBeLeader cfg t2.
Proof.
  intros Hdom. rewrite !shouldBeLeader_elected.
  rewrite (electedLeader_same_ids cfg cfg t2 t1); [reflexivity|].
  unfold knownIds. now rewrite Hdom.
Qed.

Lemma refreshed_dom_subseteq (now : Z) (url : string)
    (table : gmap string TabInfo) :
  tabIdRef cfg ∈ dom table -> dom (refreshed cfg now url table) ⊆ dom table.
Proof.
  intros Hself. unfold refreshed. rewrite dom_insert_L.
  apply union_subseteq. split.
  - now apply singleton_subseteq_l.
  - apply dom_filter_subseteq.
Qed.

Lemma refreshed_self_in_dom (now : Z) (url : string)
    (table : gmap string TabInfo) :
  tabIdRef cfg ∈ dom (refreshed cfg now url table).
Proof. unfold refreshed. rewrite dom_insert_L. set_solver. Qed.

(** Recomputing again without the count changing keeps the key set. *)
Lemma refreshed_twice_same_size (now now2 : Z) (url url2 : string)
    (table : gmap string TabInfo) :
  size (refreshed cfg now2 url2 (refreshed cfg now url table))
  = size (refreshed cfg now url table) ->
  dom (refreshed cfg now2 url2 (refreshed cfg now url table))
  = dom (refreshed cfg now url table).
Proof.
  intros Hsize. apply set_subseteq_size_eq.
  - apply refreshed_dom_subseteq, refreshed_self_in_dom.
  - rewrite !size_dom. lia.
Qed.

Lemma notifies_fires (now : Z) (url : string) (s : State) :
  let s' := updateTabState cfg now url s in
  notifies cfg now url s
  = isLeaderRef s' && onMultiTabChange cfg
    && bool_decide ((prevIsMultiTabRef s, prevTabCountRef s)
                    ≠ (isMultiTab s', tabCount s')).
Proof.
  simpl. unfold notifies, shouldNotify.
  destruct (updateTabState_fields cfg now url s)
    as (_ & _ & _ & _ & _ & _ & Hleader).
  rewrite Hleader, updateTabState_isMultiTab, updateTabState_tabCount.
  now rewrite pair_differs.
Qed.

End Notifier.

(** C2. One run of [updateTabState] invokes the callback exactly when the
    instance is the leader after this recomputation, a callback was passed,
    and the new pair [(isMultiTab, tabCount)] differs from the pair held in
    [prevIsMultiTabRef] / [prevTabCountRef]; then it is invoked once, with
    the new values, and the pair is stored.  Otherwise the stored pair is
    untouched and nothing is invoked.  A further recomputation that yields
    the same count invokes nothing. *)
Theorem updateTabState_notifies_on_change (cfg : Config)
    (now : Z) (url : string) (s : State) :
  let s' := updateTabState cfg now url s in
  let fires :=
    isLeaderRef s' && onMultiTabChange cfg
    && bool_decide ((prevIsMultiTabRef s, prevTabCountRef s)
                    ≠ (isMultiTab s', tabCount s')) in
  callbacks (trace s')
  = (if fires then [(isMultiTab s', tabCount s', activeTabUrls s')] else [])
    ++ callbacks (trace s)
  /\ (prevIsMultiTabRef s', prevTabCountRef s')
     = (if fires then (isMultiTab s', tabCount s')
        else (prevIsMultiTabRef s, prevTabCountRef s))
  /\ (isLeaderRef s' = true
      <-> forall id, id ∈ dom (activeTabsRef s') ->
                     string_le (tabIdRef cfg) id)
  /\ (forall (now2 : Z) (url2 : string),
        tabCount (updateTabState cfg now2 url2 s') = tabCount s' ->
        callbacks (trace (updateTabState cfg now2 url2 s'))
        = callbacks (trace s')).
Proof.
  intros s' fires.
  assert (notifies cfg now url s = fires) as Hfires
      by apply notifies_fires.
  assert (isLeaderRef s' = shouldBeLeader cfg (activeTabsRef s')) as Hlead.
  { unfold s'. rewrite updateTabState_table.
    now destruct (updateTabState_fields cfg now url s)
      as (_ & _ & _ & _ & _ & _ & ->). }
  split.
  { unfold s'. rewrite updateTabState_callbacks, Hfires.
    now rewrite updateTabState_isMultiTab, updateTabState_tabCount,
      updateTabState_activeTabUrls. }
  split.
  { unfold s'. rewrite updateTabState_prev, Hfires.
    now rewrite updateTabState_isMultiTab, updateTabState_tabCount. }
  split.
  { rewrite Hlead. apply shouldBeLeader_true_iff. }
  intros now2 url2 Hcount.
  rewrite updateTabState_callbacks.
  replace (notifies cfg now2 url2 s') with false; [reflexivity|].
  symmetry.
  pose proof (notifies_fires cfg now2 url2 s') as Hn.
  cbv zeta in Hn. rewrite Hn. clear Hn.
  assert (isLeaderRef (updateTabState cfg now2 url2 s') = isLeaderRef s')
    as Hsame_leader.
  { destruct (updateTabState_fields cfg now2 url2 s')
      as (_ & _ & _ & _ & _ & _ & Hl2).
    rewrite Hl2, Hlead. apply shouldBeLeader_same_dom.
    unfold s'. rewrite updateTabState_table.
    apply refreshed_twice_same_size.
    unfold s' in Hcount.
    now rewrite !updateTabState_tabCount, updateTabState_table in Hcount. }
  assert (isMultiTab (updateTabState cfg now2 url2 s') = isMultiTab s')
    as Hsame_multi.
  { rewrite updateTabState_isMultiTab.
    rewrite updateTabState_tabCount in Hcount. rewrite Hcount.
    unfold s'.
    now rewrite updateTabState_isMultiTab, updateTabState_tabCount. }
  rewrite Hsame_leader, Hsame_multi, Hcount.
  pose proof (updateTabState_prev cfg now url s) as Hprev.
  rewrite Hfires in Hprev.
  rewrite <- updateTabState_isMultiTab, <- updateTabState_tabCount in Hprev.
  fold s' in Hprev. rewrite Hprev.
  destruct fires eqn:Hf.
  - rewrite (bool_decide_eq_false_2 (_ ≠ _)); [apply andb_false_r|tauto].
  - exact Hf.
Qed.

(** ** Invariants of the reachable states *)

Section Invariants.

Context (cfg : Config).

Lemma run_snoc (events : list Event) (ev : Event) (s : State) :
  run cfg (events ++ [ev]) s = step cfg (run cfg events s) ev.
Proof. unfold run. now rewrite fold_left_app. Qed.

Lemma run_app (ev1 ev2 : list Event) (s : State) :
  run cfg (ev1 ++ ev2) s = run cfg ev2 (run cfg ev1 s).
Proof. unfold run. now rewrite fold_left_app. Qed.

Lemma reachable_step (s : State) (ev : Event) :
  reachable cfg s -> reachable cfg (step cfg s ev).
Proof.
  intros [events ->]. exists (events ++ [ev]). now rewrite run_snoc.
Qed.

Lemma reachable_run (s : State) (events : list Event) :
  reachable cfg s -> reachable cfg (run cfg events s).
Proof.
  intros [before ->]. exists (before ++ events). now rewrite run_app.
Qed.

(** Induction over the reachable states. *)
Lemma reachable_ind (P : State -> Prop) :
  P initialState ->
  (forall s ev, reachable cfg s -> P s -> P (step cfg s ev)) ->
  forall s, reachable cfg s -> P s.
Proof.
  intros Hinit Hstep s [events ->].
  induction events as [|ev events IH] using rev_ind; [exact Hinit|].
  rewrite run_snoc. apply Hstep; [now exists events | exact IH].
Qed.

Lemma prevOk_frame (s s' : State) :
  (prevIsMultiTabRef s', prevTabCountRef s')
  = (prevIsMultiTabRef s, prevTabCountRef s) ->
  callbacks (trace s') = callbacks (trace s) ->
  prevOk s -> prevOk s'.
Proof.
  unfold prevOk, lastNotified. intros -> ->. tauto.
Qed.

Lemma prevOk_updateTabState (now : Z) (url : string) (s : State) :
  prevOk s -> prevOk (updateTabState cfg now url s).
Proof.
  unfold prevOk, lastNotified.
  rewrite updateTabState_prev, updateTabState_callbacks.
  now destruct (notifies cfg now url s).
Qed.

Lemma prevOk_log (site : LogSite) (s : State) :
  prevOk s -> prevOk (log cfg site s).
Proof. apply prevOk_frame; crush_state. Qed.

Lemma prevOk_sendMessage (now : Z) (url : string) (type : MessageType)
    (s : State) :
  prevOk s -> prevOk (sendMessage cfg now url type s).
Proof. apply prevOk_frame; crush_state. Qed.

Lemma prevOk_sweep (now : Z) (s : State) :
  prevOk s -> prevOk (sweep cfg now s).1.
Proof.
  destruct (sweep_fields cfg now s) as (_ & _ & _ & _ & Hprev & _ & Htr).
  apply prevOk_frame; [exact Hprev|].
  now rewrite <- callbacks_withoutLogs, Htr, callbacks_withoutLogs.
Qed.

Lemma prevOk_handleMessage (tSend tNow : Z) (url : string)
    (message : TabMessage) (s : State) :
  prevOk s -> prevOk (handleMessage cfg tSend tNow url message s).
Proof.
  intros Hs. unfold handleMessage.
  destruct (bool_decide _); [exact Hs|].
  destruct (msg_type message).
  - apply prevOk_updateTabState.
    revert Hs. apply prevOk_frame; crush_state.
  - apply prevOk_updateTabState.
    revert Hs. apply prevOk_frame; crush_state.
  - apply prevOk_updateTabState.
    revert Hs. apply prevOk_frame; crush_state.
  - revert Hs. apply prevOk_frame; crush_state.
  - now apply prevOk_log, prevOk_log.
Qed.

Lemma prevOk_cleanupInactiveTabs (now now' : Z) (url : string) (s : State) :
  prevOk s -> prevOk (cleanupInactiveTabs cfg now now' url s).
Proof.
  intros Hs. rewrite cleanupInactiveTabs_unfold.
  destruct (sweep cfg now s).2; [|exact Hs].
  now apply prevOk_updateTabState, prevOk_sweep.
Qed.

Lemma prevOk_mountEffect (construct : Construction) (tReq tBeat tNow : Z)
    (url : string) (s : State) :
  prevOk s -> prevOk (mountEffect cfg construct tReq tBeat tNow url s).
Proof.
  intros Hs. destruct (broadcastChannelDefined cfg) eqn:Hsup.
  - destruct construct.
    + rewrite mountEffect_supported by exact Hsup.
      apply (prevOk_frame (updateTabState cfg tNow url
                             (announce cfg tReq tBeat url s)));
        [reflexivity..|].
      apply prevOk_updateTabState.
      destruct (announce_fields cfg tReq tBeat url s)
        as (_ & _ & _ & _ & Hprev & _ & Hcb & _).
      revert Hs. now apply prevOk_frame.
    + rewrite mountEffect_throws by exact Hsup.
      destruct (abandon_fields cfg s)
        as (_ & _ & _ & _ & _ & _ & Hprev & _ & _ & Hcb & _).
      revert Hs. now apply prevOk_frame.
  - rewrite mountEffect_unsupported by exact Hsup.
    revert Hs. apply prevOk_frame; reflexivity.
Qed.

Lemma prevOk_step (s : State) (ev : Event) :
  prevOk s -> prevOk (step cfg s ev).
Proof.
  intros Hs. destruct ev as [construct tReq tBeat tNow url|now url
                            |tSend tNow url m|id now now' url|now url]; simpl.
  - destruct (mounted s); [exact Hs|now apply prevOk_mountEffect].
  - destruct (mounted s); [|exact Hs].
    revert Hs. apply prevOk_frame; unfold unmountEffect; crush_state.
  - destruct (mounted s); [|exact Hs]. now apply prevOk_handleMessage.
  - unfold fireTimer. destruct (timers s !! id) as [[| |]|]; [| | |exact Hs].
    + now apply prevOk_sendMessage.
    + now apply prevOk_cleanupInactiveTabs.
    + revert Hs. apply prevOk_frame; crush_state.
  - destruct (mounted s); [|exact Hs]. now apply prevOk_sendMessage.
Qed.

Lemma reachable_prevOk (s : State) : reachable cfg s -> prevOk s.
Proof.
  apply reachable_ind; [reflexivity|].
  intros s' ev _. apply prevOk_step.
Qed.

End Invariants.

Section HostInvariants.

Context (cfg : Config).

Lemma hostOk_frame (s s' : State) :
  timers s' = timers s ->
  leaderElectionTimerRef s' = leaderElectionTimerRef s ->
  mounted s' = mounted s ->
  channelRef s' = channelRef s ->
  hostOk s -> hostOk s'.
Proof. unfold hostOk. intros -> -> -> ->. tauto. Qed.

Lemma hostOk_updateTabState (now : Z) (url : string) (s : State) :
  hostOk s -> hostOk (updateTabState cfg now url s).
Proof.
  destruct (updateTabState_fields cfg now url s)
    as (Hch & Href & _ & Hhost & _).
  injection Hhost as Ht _ Hm. now apply hostOk_frame.
Qed.

Lemma hostOk_sendMessage (now : Z) (url : string) (type : MessageType)
    (s : State) :
  hostOk s -> hostOk (sendMessage cfg now url type s).
Proof.
  destruct (sendMessage_fields cfg now url type s)
    as (Hch & _ & Href & _ & _ & _ & Hhost & _).
  injection Hhost as Ht _ Hm. now apply hostOk_frame.
Qed.

Lemma hostOk_sweep (now : Z) (s : State) :
  hostOk s -> hostOk (sweep cfg now s).1.
Proof.
  destruct (sweep_fields cfg now s) as (Hch & Href & _ & _ & _ & Hhost & _).
  injection Hhost as Ht _ Hm. now apply hostOk_frame.
Qed.

(** Dropping timers keeps the invariant. *)
Lemma hostOk_fewer_timers (s s' : State) :
  timers s' ⊆ timers s ->
  leaderElectionTimerRef s' = leaderElectionTimerRef s ->
  (mounted s' = true -> channelRef s' = Some ChannelOpen) ->
  hostOk s -> hostOk s'.
Proof.
  intros Hsub Href Hch [Hlead _]. split; [|exact Hch].
  intros id Hid. rewrite Href. apply Hlead.
  eapply lookup_weaken; eassumption.
Qed.

Lemma rearmLeaderCheck_timers (s : State) :
  timers (rearmLeaderCheck s)
  = <[nextTimerId s := LeaderElectionTimeout]>
      (match leaderElectionTimerRef s with
       | Some old => delete old (timers s)
       | None => timers s
       end).
Proof.
  unfold rearmLeaderCheck. now destruct (leaderElectionTimerRef s).
Qed.

Lemma rearmLeaderCheck_ref (s : State) :
  leaderElectionTimerRef (rearmLeaderCheck s) = Some (nextTimerId s).
Proof.
  unfold rearmLeaderCheck. now destruct (leaderElectionTimerRef s).
Qed.

Lemma hostOk_rearmLeaderCheck (s : State) :
  hostOk s -> hostOk (rearmLeaderCheck s).
Proof.
  intros [Hlead Hch]. split.
  - intros id. rewrite rearmLeaderCheck_timers, rearmLeaderCheck_ref.
    destruct (decide (nextTimerId s = id)) as [->|Hne]; [reflexivity|].
    rewrite lookup_insert_ne by exact Hne. intros Hid. exfalso.
    destruct (leaderElectionTimerRef s) as [old|] eqn:Href.
    + destruct (decide (old = id)) as [->|Hold].
      * now rewrite lookup_delete_eq in Hid.
      * rewrite lookup_delete_ne in Hid by exact Hold.
        apply Hlead in Hid. congruence.
    + apply Hlead in Hid. discriminate.
  - unfold rearmLeaderCheck. now destruct (leaderElectionTimerRef s).
Qed.

Lemma handleMessage_request_leader (tSend tNow : Z) (url : string)
    (message : TabMessage) (s : State) :
  msg_tabId message ≠ tabIdRef cfg ->
  msg_type message = request_leader ->
  handleMessage cfg tSend tNow url message s
  = rearmLeaderCheck (sendMessage cfg tSend url heartbeat
                        (log cfg LReceived s)).
Proof.
  intros Hne Hty. unfold handleMessage.
  rewrite bool_decide_eq_false_2 by exact Hne. rewrite Hty.
  unfold rearmLeaderCheck. simpl.
  now destruct (leaderElectionTimerRef _).
Qed.

Lemma hostOk_log (site : LogSite) (s : State) :
  hostOk s -> hostOk (log cfg site s).
Proof. apply hostOk_frame; crush_state. Qed.

Lemma hostOk_handleMessage (tSend tNow : Z) (url : string)
    (message : TabMessage) (s : State) :
  hostOk s -> hostOk (handleMessage cfg tSend tNow url message s).
Proof.
  intros Hs.
  destruct (decide (msg_tabId message = tabIdRef cfg)) as [Heq|Hne].
  { unfold handleMessage. now rewrite bool_decide_eq_true_2. }
  destruct (msg_type message) eqn:Hty;
    [| | |rewrite handleMessage_request_leader by assumption;
          now apply hostOk_rearmLeaderCheck, hostOk_sendMessage, hostOk_log
     |];
    unfold handleMessage; rewrite bool_decide_eq_false_2 by exact Hne;
    rewrite Hty.
  - apply hostOk_updateTabState. revert Hs. apply hostOk_frame; crush_state.
  - apply hostOk_updateTabState. revert Hs. apply hostOk_frame; crush_state.
  - apply hostOk_updateTabState. revert Hs. apply hostOk_frame; crush_state.
  - now apply hostOk_log, hostOk_log.
Qed.

Lemma hostOk_cleanupInactiveTabs (now now' : Z) (url : string) (s : State) :
  hostOk s -> hostOk (cleanupInactiveTabs cfg now now' url s).
Proof.
  intros Hs. rewrite cleanupInactiveTabs_unfold.
  destruct (sweep cfg now s).2; [|exact Hs].
  now apply hostOk_updateTabState, hostOk_sweep.
Qed.

Lemma hostOk_mountEffect (construct : Construction) (tReq tBeat tNow : Z)
    (url : string) (s : State) :
  hostOk s -> hostOk (mountEffect cfg construct tReq tBeat tNow url s).
Proof.
  intros [Hlead Hch]. destruct (broadcastChannelDefined cfg) eqn:Hsup.
  - destruct construct; [|rewrite mountEffect_throws by exact Hsup;
      destruct (abandon_fields cfg s)
        as (Hopen & _ & Hrefs & _ & _ & _ & _ & Hhost & _);
      injection Hrefs as _ _ Href; injection Hhost as Ht _ Hm;
      now apply (hostOk_frame s)].
    rewrite mountEffect_supported by exact Hsup.
    destruct (updateTabState_fields cfg tNow url
                (announce cfg tReq tBeat url s))
      as (Hopen & Href & _ & Hhost & _).
    injection Hhost as Ht _ _.
    destruct (announce_fields cfg tReq tBeat url s)
      as (Hopen' & _ & Href' & _ & _ & Ht' & _).
    split; simpl.
    + intros id. rewrite Ht, Href, Ht', Href'. intros Hid.
      destruct (decide (Pos.succ (nextTimerId s) = id)) as [Heq|Hne1];
        [subst id; now rewrite lookup_insert_eq in Hid|].
      rewrite lookup_insert_ne in Hid by exact Hne1.
      destruct (decide (nextTimerId s = id)) as [Heq|Hne2];
        [subst id; now rewrite lookup_insert_eq in Hid|].
      rewrite lookup_insert_ne in Hid by exact Hne2.
      now apply Hlead.
    + intros _. now rewrite Hopen, Hopen'.
  - rewrite mountEffect_unsupported by exact Hsup.
    split; [exact Hlead|exact Hch].
Qed.

Lemma unmountEffect_fields (now : Z) (url : string) (s : State) :
  let s' := unmountEffect cfg now url s in
  mounted s' = false
  /\ timers s' ⊆ timers s
  /\ leaderElectionTimerRef s' = leaderElectionTimerRef s
  /\ activeTabsRef s' = activeTabsRef s
  /\ (isSupported s', isMultiTab s', tabCount s', activeTabUrls s')
     = (isSupported s, isMultiTab s, tabCount s, activeTabUrls s)
  /\ (prevIsMultiTabRef s', prevTabCountRef s')
     = (prevIsMultiTabRef s, prevTabCountRef s)
  /\ callbacks (trace s') = callbacks (trace s)
  /\ recomputations (trace s') = recomputations (trace s).
Proof.
  assert (forall (ref : option positive) (m : gmap positive TimerKind),
             match ref with Some id => delete id m | None => m end ⊆ m)
    as Hdel.
  { intros [id|] m; [apply delete_subseteq|reflexivity]. }
  unfold unmountEffect. state_eval. trace_simpl.
  split; [now destruct (channelRef s)|].
  split.
  { destruct (channelRef s); fields;
      (etransitivity; [apply Hdel|]); (etransitivity; [apply Hdel|]);
      apply Hdel. }
  repeat split; destruct (channelRef s) as [[|]|]; fields;
    try reflexivity; destruct (debug cfg); reflexivity.
Qed.

Lemma hostOk_step (s : State) (ev : Event) :
  hostOk s -> hostOk (step cfg s ev).
Proof.
  intros Hs. destruct ev as [construct tReq tBeat tNow url|now url
                            |tSend tNow url m|id now now' url|now url]; simpl.
  - destruct (mounted s); [exact Hs|now apply hostOk_mountEffect].
  - destruct (mounted s); [|exact Hs].
    destruct (unmountEffect_fields now url s) as (Hm & Ht & Href & _).
    revert Hs. apply hostOk_fewer_timers; [exact Ht|exact Href|].
    rewrite Hm. discriminate.
  - destruct (mounted s); [|exact Hs]. now apply hostOk_handleMessage.
  - unfold fireTimer. destruct (timers s !! id) as [[| |]|]; [| | |exact Hs].
    + now apply hostOk_sendMessage.
    + now apply hostOk_cleanupInactiveTabs.
    + apply (hostOk_fewer_timers s); [| | |exact Hs].
      * state_eval. apply delete_subseteq.
      * state_eval. reflexivity.
      * state_eval. destruct Hs as [_ Hch]. exact Hch.
  - destruct (mounted s); [|exact Hs]. now apply hostOk_sendMessage.
Qed.

Lemma reachable_hostOk (s : State) : reachable cfg s -> hostOk s.
Proof.
  apply reachable_ind.
  - split; [|discriminate].
    intros id Hid. unfold initialState in Hid. fields.
    now rewrite lookup_empty in Hid.
  - intros s' ev _. apply hostOk_step.
Qed.

End HostInvariants.

Section CountInvariant.

Context (cfg : Config).

Lemma countOk_frame (s s' : State) :
  activeTabsRef s' = activeTabsRef s ->
  tabCount s' = tabCount s ->
  isMultiTab s' = isMultiTab s ->
  recomputations (trace s') = recomputations (trace s) ->
  countOk cfg s -> countOk cfg s'.
Proof. unfold countOk. intros -> -> -> ->. tauto. Qed.

Lemma refreshed_size_pos (now : Z) (url : string)
    (table : gmap string TabInfo) :
  (1 <= size (refreshed cfg now url table))%nat.
Proof.
  pose proof (refreshed_self_in_dom cfg now url table) as Hself.
  rewrite <- (size_dom (D := gset string)).
  assert (size (dom (refreshed cfg now url table)) ≠ 0%nat); [|lia].
  apply size_non_empty_iff. intros Hempty.
  rewrite Hempty in Hself. now apply elem_of_empty in Hself.
Qed.

(** [updateTabState] establishes the invariant from any state. *)
Lemma countOk_updateTabState (now : Z) (url : string) (s : State) :
  countOk cfg (updateTabState cfg now url s).
Proof.
  unfold countOk.
  rewrite updateTabState_tabCount, updateTabState_isMultiTab,
    updateTabState_table.
  split; [apply refreshed_size_pos|].
  split; [reflexivity|].
  intros _. split; [apply refreshed_self_in_dom|reflexivity].
Qed.

Lemma countOk_log (site : LogSite) (s : State) :
  countOk cfg s -> countOk cfg (log cfg site s).
Proof. apply countOk_frame; crush_state. Qed.

Lemma countOk_sendMessage (now : Z) (url : string) (type : MessageType)
    (s : State) :
  countOk cfg s -> countOk cfg (sendMessage cfg now url type s).
Proof. apply countOk_frame; crush_state. Qed.

Lemma countOk_handleMessage (tSend tNow : Z) (url : string)
    (message : TabMessage) (s : State) :
  countOk cfg s -> countOk cfg (handleMessage cfg tSend tNow url message s).
Proof.
  intros Hs. unfold handleMessage.
  destruct (bool_decide _); [exact Hs|].
  destruct (msg_type message); try apply countOk_updateTabState.
  - revert Hs. apply countOk_frame; crush_state.
  - now apply countOk_log, countOk_log.
Qed.

Lemma countOk_step (s : State) (ev : Event) :
  countOk cfg s -> countOk cfg (step cfg s ev).
Proof.
  intros Hs. destruct ev as [construct tReq tBeat tNow url|now url
                            |tSend tNow url m|id now now' url|now url]; simpl.
  - destruct (mounted s); [exact Hs|].
    destruct (broadcastChannelDefined cfg) eqn:Hsup.
    + destruct construct; [|rewrite mountEffect_throws by exact Hsup;
        destruct (abandon_fields cfg s)
          as (_ & Htab & _ & _ & Hview & _ & _ & _ & _ & _ & Hrec);
        injection Hview as Hmulti Hcount _;
        revert Hs; now apply countOk_frame].
      rewrite mountEffect_supported by exact Hsup.
      apply (countOk_frame (updateTabState cfg tNow url
                              (announce cfg tReq tBeat url s)));
        [reflexivity..|].
      apply countOk_updateTabState.
    + rewrite mountEffect_unsupported by exact Hsup.
      revert Hs. apply countOk_frame; reflexivity.
  - destruct (mounted s); [|exact Hs].
    destruct (unmountEffect_fields cfg now url s)
      as (_ & _ & _ & Htab & Hview & _ & _ & Hrec).
    injection Hview as _ Hmulti Hcount _.
    revert Hs. now apply countOk_frame.
  - destruct (mounted s); [|exact Hs]. now apply countOk_handleMessage.
  - unfold fireTimer. destruct (timers s !! id) as [[| |]|]; [| | |exact Hs].
    + now apply countOk_sendMessage.
    + rewrite cleanupInactiveTabs_unfold.
      destruct (sweep cfg now s).2; [|exact Hs].
      apply countOk_updateTabState.
    + revert Hs. apply countOk_frame; crush_state.
  - destruct (mounted s); [|exact Hs]. now apply countOk_sendMessage.
Qed.

Lemma reachable_countOk (s : State) : reachable cfg s -> countOk cfg s.
Proof.
  apply reachable_ind.
  - unfold countOk, initialState. fields. trace_simpl.
    split; [lia|]. split; [reflexivity|]. lia.
  - intros s' ev _. apply countOk_step.
Qed.

End CountInvariant.

(** C5. After every run of [updateTabState], from any state the instance
    can reach: the presence table has an entry for the own id, the exposed
    [tabCount] is the size of the table and at least 1, and the exposed
    [isMultiTab] is [tabCount > 1].  Between recomputations the property
    stays: in every reachable state [tabCount >= 1] and
    [isMultiTab = (tabCount > 1)], and once [updateTabState] has run the
    table contains the own id and [tabCount] is its size. *)
Theorem count_invariant (cfg : Config) (s : State)
    (now : Z) (url : string) :
  reachable cfg s ->
  (let s' := updateTabState cfg now url s in
   is_Some (activeTabsRef s' !! tabIdRef cfg)
   /\ tabCount s' = size (activeTabsRef s')
   /\ (1 <= tabCount s')%nat
   /\ isMultiTab s' = bool_decide (1 < tabCount s')%nat)
  /\ (1 <= tabCount s)%nat
  /\ isMultiTab s = bool_decide (1 < tabCount s)%nat
  /\ ((0 < recomputations (trace s))%nat ->
      is_Some (activeTabsRef s !! tabIdRef cfg)
      /\ tabCount s = size (activeTabsRef s)).
Proof.
  intros Hreach.
  destruct (countOk_updateTabState cfg now url s) as (Hpos' & Hmulti' & Hrec').
  destruct (reachable_countOk cfg s Hreach) as (Hpos & Hmulti & Hrec).
  destruct (updateTabState_fields cfg now url s)
    as (_ & _ & _ & _ & _ & Hcount & _).
  split.
  { cbv zeta. destruct Hrec' as [Hself Hsize]; [rewrite Hcount; lia|].
    apply elem_of_dom in Hself. auto. }
  split; [exact Hpos|]. split; [exact Hmulti|].
  intros Hdone. destruct (Hrec Hdone) as [Hself Hsize].
  apply elem_of_dom in Hself. auto.
Qed.

(** C10. In every reachable state the pair held in [prevIsMultiTabRef] /
    [prevTabCountRef] is the pair of the most recent callback invocation,
    and [(false, 1)] when the callback has never been invoked.  Hence a
    step of the instance that invokes no callback leaves the pair as it
    was; in particular a recomputation after which the instance is not the
    leader, or one without a registered callback, invokes nothing and
    leaves the pair unchanged. *)
Theorem last_notified_pair (cfg : Config) (s : State) :
  reachable cfg s ->
  (prevIsMultiTabRef s, prevTabCountRef s) = lastNotified (trace s)
  /\ (forall ev,
        callbacks (trace (step cfg s ev)) = callbacks (trace s) ->
        (prevIsMultiTabRef (step cfg s ev), prevTabCountRef (step cfg s ev))
        = (prevIsMultiTabRef s, prevTabCountRef s))
  /\ (forall now url,
        let s' := updateTabState cfg now url s in
        isLeaderRef s' = false \/ onMultiTabChange cfg = false ->
        callbacks (trace s') = callbacks (trace s)
        /\ (prevIsMultiTabRef s', prevTabCountRef s')
           = (prevIsMultiTabRef s, prevTabCountRef s)).
Proof.
  intros Hreach.
  pose proof (reachable_prevOk cfg s Hreach) as Hprev.
  split; [exact Hprev|]. split.
  - intros ev Hquiet.
    pose proof (reachable_prevOk cfg _ (reachable_step cfg s ev Hreach))
      as Hnext.
    unfold prevOk, lastNotified in *. now rewrite Hnext, Hquiet.
  - intros now url s' Hsilent.
    assert (notifies cfg now url s = false) as Hno.
    { pose proof (notifies_fires cfg now url s) as Hn.
      cbv zeta in Hn. fold s' in Hn. rewrite Hn.
      destruct Hsilent as [-> | ->]; [reflexivity|].
      now rewrite andb_false_r. }
    unfold s'. rewrite updateTabState_callbacks, updateTabState_prev, Hno.
    split; reflexivity.
Qed.

(** ** An instance without [BroadcastChannel] *)

Section Unsupported.

Context (cfg : Config).
Hypothesis unsupported : broadcastChannelDefined cfg = false.

Lemma inert_step (s : State) (ev : Event) : inert s -> inert (step cfg s ev).
Proof.
  intros Hs.
  pose proof Hs as (Hch & Htab & Hrefs & Hview & Hhost & Hpost & Hcb & Hrec).
  injection Hhost as Htimers Hnext Hmounted.
  destruct ev as [construct tReq tBeat tNow url|now url
                 |tSend tNow url m|id now now' url|now url]; simpl; rewrite ?Hmounted;
    try exact Hs.
  - rewrite mountEffect_unsupported by exact unsupported.
    unfold inert. fields. trace_simpl.
    injection Hview as _ Hmulti Hcount. injection Hrefs as Hh Hc Hl.
    now rewrite Hch, Htab, Hh, Hc, Hl, Hmulti, Hcount, Htimers, Hnext,
      Hmounted, Hpost, Hcb, Hrec.
  - unfold fireTimer. rewrite Htimers, lookup_empty. exact Hs.
Qed.

Lemma inert_run (events : list Event) : inert (run cfg events initialState).
Proof.
  induction events as [|ev events IH] using rev_ind.
  - repeat split.
  - rewrite run_snoc. now apply inert_step.
Qed.

End Unsupported.

(** C8. When [BroadcastChannel] is not defined, whatever the host does to
    the instance: nothing is ever posted, no timer id is ever handed out
    (the next id is still the first one and no timer is live), no channel
    is opened, no listener is installed, the table stays empty, the
    callback is never invoked, and the exposed values stay
    [isSupported = false], [tabCount = 1], [isMultiTab = false]. *)
Theorem unsupported_instance_is_inert (cfg : Config) (events : list Event) :
  broadcastChannelDefined cfg = false ->
  let s := run cfg events initialState in
  posted (trace s) = []
  /\ timers s = ∅
  /\ nextTimerId s = 1%positive
  /\ (heartbeatTimerRef s, cleanupTimerRef s, leaderElectionTimerRef s)
     = (None, None, None)
  /\ channelRef s = None
  /\ mounted s = false
  /\ activeTabsRef s = ∅
  /\ callbacks (trace s) = []
  /\ recomputations (trace s) = 0%nat
  /\ isSupported s = false
  /\ tabCount s = 1%nat
  /\ isMultiTab s = false.
Proof.
  intros Hunsupported s.
  destruct (inert_run cfg Hunsupported events)
    as (Hch & Htab & Hrefs & Hview & Hhost & Hpost & Hcb & Hrec).
  fold s in Hch, Htab, Hrefs, Hview, Hhost, Hpost, Hcb, Hrec.
  injection Hhost as Htimers Hnext Hmounted.
  injection Hview as Hsup Hmulti Hcount.
  repeat split; assumption.
Qed.

(** ** Message handling *)

Section Messages.

Context (cfg : Config).

Lemma handleMessage_self (tSend tNow : Z) (url : string)
    (message : TabMessage) (s : State) :
  msg_tabId message = tabIdRef cfg ->
  handleMessage cfg tSend tNow url message s = s.
Proof.
  intros Hself. unfold handleMessage. now rewrite bool_decide_eq_true_2.
Qed.

Lemma handleMessage_heartbeat (tSend tNow : Z) (url : string)
    (message : TabMessage) (s : State) :
  msg_tabId message ≠ tabIdRef cfg ->
  msg_type message = heartbeat ->
  handleMessage cfg tSend tNow url message s
  = updateTabState cfg tNow url (upsertSender message (log cfg LReceived s)).
Proof.
  intros Hne Hty. unfold handleMessage.
  rewrite bool_decide_eq_false_2 by exact Hne. now rewrite Hty.
Qed.

Lemma handleMessage_request_active_tabs (tSend tNow : Z) (url : string)
    (message : TabMessage) (s : State) :
  msg_tabId message ≠ tabIdRef cfg ->
  msg_type message = request_active_tabs ->
  handleMessage cfg tSend tNow url message s
  = updateTabState cfg tNow url
      (sendMessage cfg tSend url heartbeat
         (upsertSender message (log cfg LReceived s))).
Proof.
  intros Hne Hty. unfold handleMessage.
  rewrite bool_decide_eq_false_2 by exact Hne. now rewrite Hty.
Qed.

Lemma handleMessage_tab_closed (tSend tNow : Z) (url : string)
    (message : TabMessage) (s : State) :
  msg_tabId message ≠ tabIdRef cfg ->
  msg_type message = tab_closed ->
  handleMessage cfg tSend tNow url message s
  = updateTabState cfg tNow url
      (set_activeTabsRef
         (delete (msg_tabId message) (activeTabsRef (log cfg LReceived s)))
         (log cfg LReceived s)).
Proof.
  intros Hne Hty. unfold handleMessage.
  rewrite bool_decide_eq_false_2 by exact Hne. now rewrite Hty.
Qed.

Lemma handleMessage_unknown (tSend tNow : Z) (url : string)
    (message : TabMessage) (s : State) :
  msg_tabId message ≠ tabIdRef cfg ->
  msg_type message = unknown_type ->
  handleMessage cfg tSend tNow url message s
  = log cfg LUnknownType (log cfg LReceived s).
Proof.
  intros Hne Hty. unfold handleMessage.
  rewrite bool_decide_eq_false_2 by exact Hne. now rewrite Hty.
Qed.

(** The entry of [id] after a recomputation, for any [id] but the own. *)
Lemma refreshed_lookup_recent (now : Z) (url : string)
    (table : gmap string TabInfo) (id : string) :
  id ≠ tabIdRef cfg ->
  refreshed cfg now url table !! id
  = match table !! id with
    | Some info =>
        if bool_decide (now - lastHeartbeat info < inactivityThreshold cfg)
        then Some info else None
    | None => None
    end.
Proof.
  intros Hne. rewrite refreshed_lookup_other by exact Hne.
  destruct (table !! id) as [info|]; [|reflexivity].
  destruct (inactive cfg now id info) eqn:Hin.
  - apply inactive_true_iff in Hin as [_ Hold].
    rewrite bool_decide_eq_false_2; [reflexivity|lia].
  - apply inactive_not_recent in Hin; [|exact Hne].
    unfold recent in Hin; simpl in Hin.
    now rewrite bool_decide_eq_true_2.
Qed.

(** What handling a [request-leader] message of a peer does to the state:
    a reply is sent and the leader check is re-armed. *)
Lemma request_leader_fields (tSend tNow : Z) (url : string)
    (message : TabMessage) (s : State) :
  msg_type message = request_leader ->
  let s' := handleMessage cfg tSend tNow url message s in
  activeTabsRef s' = activeTabsRef s
  /\ (isSupported s', isMultiTab s', tabCount s', activeTabUrls s')
     = (isSupported s, isMultiTab s, tabCount s, activeTabUrls s)
  /\ (prevIsMultiTabRef s', prevTabCountRef s')
     = (prevIsMultiTabRef s, prevTabCountRef s)
  /\ isLeaderRef s' = isLeaderRef s
  /\ (channelRef s', mounted s') = (channelRef s, mounted s)
  /\ callbacks (trace s') = callbacks (trace s)
  /\ recomputations (trace s') = recomputations (trace s).
Proof.
  intros Hty.
  destruct (decide (msg_tabId message = tabIdRef cfg)) as [Hself|Hne].
  { rewrite handleMessage_self by exact Hself. repeat split. }
  rewrite handleMessage_request_leader by assumption.
  unfold rearmLeaderCheck. crush_state; repeat split; reflexivity.
Qed.

Lemma request_leader_timers (tSend tNow : Z) (url : string)
    (message : TabMessage) (s : State) :
  msg_tabId message ≠ tabIdRef cfg ->
  msg_type message = request_leader ->
  let s' := handleMessage cfg tSend tNow url message s in
  timers s'
  = <[nextTimerId s := LeaderElectionTimeout]>
      (match leaderElectionTimerRef s with
       | Some old => delete old (timers s)
       | None => timers s
       end)
  /\ leaderElectionTimerRef s' = Some (nextTimerId s)
  /\ nextTimerId s' = Pos.succ (nextTimerId s).
Proof.
  intros Hne Hty. rewrite handleMessage_request_leader by assumption.
  cbv zeta. rewrite rearmLeaderCheck_timers, rearmLeaderCheck_ref.
  unfold rearmLeaderCheck. crush_state; repeat split; reflexivity.
Qed.

Lemma request_leader_posted (tSend tNow : Z) (url : string)
    (message : TabMessage) (s : State) :
  msg_tabId message ≠ tabIdRef cfg ->
  msg_type message = request_leader ->
  channelRef s = Some ChannelOpen ->
  posted (trace (handleMessage cfg tSend tNow url message s))
  = mkTabMessage heartbeat (tabIdRef cfg) tSend (Some url)
    :: posted (trace s).
Proof.
  intros Hne Hty Hopen. rewrite handleMessage_request_leader by assumption.
  unfold rearmLeaderCheck. state_eval. rewrite Hopen. trace_simpl.
  split_conds; reflexivity.
Qed.

(** Firing a live leader-election timeout only re-evaluates leadership. *)
Lemma fireTimer_leader_check (id : positive) (now now' : Z) (url : string)
    (s : State) :
  timers s !! id = Some LeaderElectionTimeout ->
  let s' := fireTimer cfg id now now' url s in
  activeTabsRef s' = activeTabsRef s
  /\ (isSupported s', isMultiTab s', tabCount s', activeTabUrls s')
     = (isSupported s, isMultiTab s, tabCount s, activeTabUrls s)
  /\ (prevIsMultiTabRef s', prevTabCountRef s')
     = (prevIsMultiTabRef s, prevTabCountRef s)
  /\ isLeaderRef s' = shouldBeLeader cfg (activeTabsRef s)
  /\ timers s' = delete id (timers s)
  /\ withoutLogs (trace s') = withoutLogs (trace s).
Proof.
  intros Hlive. unfold fireTimer. rewrite Hlive.
  crush_state; repeat split; reflexivity.
Qed.

End Messages.

(** C9. Handling a [request-leader] message leaves the presence table, the
    exposed [tabCount], [isMultiTab] and [activeTabUrls], the last-notified
    pair and [isLeaderRef] as they were: the sender is not entered in the
    table, [updateTabState] is not run, the callback is not invoked.  What
    it does (for a message of another instance) is post one heartbeat and
    arm the leader check; when that check fires it re-evaluates
    [isLeaderRef] from the unchanged table and touches nothing else but
    the debug log. *)
Theorem request_leader_leaves_table_and_aggregate (cfg : Config)
    (tSend tNow : Z) (url : string) (sender : string) (sent : Z)
    (senderUrl : option string) (s : State) :
  let message := mkTabMessage request_leader sender sent senderUrl in
  let s' := handleMessage cfg tSend tNow url message s in
  activeTabsRef s' = activeTabsRef s
  /\ (tabCount s', isMultiTab s', activeTabUrls s')
     = (tabCount s, isMultiTab s, activeTabUrls s)
  /\ (prevIsMultiTabRef s', prevTabCountRef s')
     = (prevIsMultiTabRef s, prevTabCountRef s)
  /\ isLeaderRef s' = isLeaderRef s
  /\ callbacks (trace s') = callbacks (trace s)
  /\ recomputations (trace s') = recomputations (trace s)
  /\ (sender ≠ tabIdRef cfg ->
      channelRef s = Some ChannelOpen ->
      posted (trace s')
      = mkTabMessage heartbeat (tabIdRef cfg) tSend (Some url)
        :: posted (trace s))
  /\ (sender ≠ tabIdRef cfg ->
      timers s' !! nextTimerId s = Some LeaderElectionTimeout
      /\ leaderElectionTimerRef s' = Some (nextTimerId s))
  /\ (forall id now now' url',
        timers s' !! id = Some LeaderElectionTimeout ->
        let s'' := fireTimer cfg id now now' url' s' in
        activeTabsRef s'' = activeTabsRef s
        /\ (tabCount s'', isMultiTab s'', activeTabUrls s'')
           = (tabCount s, isMultiTab s, activeTabUrls s)
        /\ (prevIsMultiTabRef s'', prevTabCountRef s'')
           = (prevIsMultiTabRef s, prevTabCountRef s)
        /\ isLeaderRef s'' = shouldBeLeader cfg (activeTabsRef s)
        /\ callbacks (trace s'') = callbacks (trace s)
        /\ recomputations (trace s'') = recomputations (trace s)).
Proof.
  intros message s'.
  destruct (request_leader_fields cfg tSend tNow url message s eq_refl)
    as (Htab & Hview & Hprev & Hlead & _ & Hcb & Hrec).
  fold s' in Htab, Hview, Hprev, Hlead, Hcb, Hrec.
  injection Hview as _ Hmulti Hcount Hurls.
  split; [exact Htab|].
  split; [now rewrite Hmulti, Hcount, Hurls|].
  split; [exact Hprev|]. split; [exact Hlead|].
  split; [exact Hcb|]. split; [exact Hrec|].
  split.
  { intros Hne Hopen.
    now apply (request_leader_posted cfg tSend tNow url message s). }
  split.
  { intros Hne.
    destruct (request_leader_timers cfg tSend tNow url message s Hne eq_refl)
      as (Ht & Href & _).
    fold s' in Ht, Href. split; [|exact Href].
    rewrite Ht. apply lookup_insert_eq. }
  intros id now now' url' Hlive.
  destruct (fireTimer_leader_check cfg id now now' url' s' Hlive)
    as (Htab2 & Hview2 & Hprev2 & Hlead2 & _ & Htr2).
  injection Hview2 as _ Hmulti2 Hcount2 Hurls2. cbv zeta.
  rewrite Htab2, Hmulti2, Hcount2, Hurls2, Hprev2, Hlead2.
  rewrite Htab, Hmulti, Hcount, Hurls, Hprev.
  rewrite <- (callbacks_withoutLogs (trace (fireTimer _ _ _ _ _ _))).
  rewrite <- (recomputations_withoutLogs (trace (fireTimer _ _ _ _ _ _))).
  rewrite Htr2, callbacks_withoutLogs, recomputations_withoutLogs.
  now rewrite Hcb, Hrec.
Qed.

(** ** The debounced leader check *)

Section Debounce.

Context (cfg : Config).

Lemma pendingLeaderChecks_lookup (s : State) (id : positive) :
  pendingLeaderChecks s !! id
  = match timers s !! id with
    | Some LeaderElectionTimeout => Some LeaderElectionTimeout
    | _ => None
    end.
Proof.
  unfold pendingLeaderChecks.
  destruct (timers s !! id) as [kind|] eqn:Hl.
  - destruct (decide (kind = LeaderElectionTimeout)) as [->|Hne].
    + now apply map_lookup_filter_Some_2.
    + transitivity (@None TimerKind); [|now destruct kind].
      apply map_lookup_filter_None_2. right. intros x Hx Hkind.
      simpl in Hkind. congruence.
  - apply map_lookup_filter_None_2. now left.
Qed.

(** With the invariant, the live leader checks are at most the one the ref
    holds. *)
Lemma pendingLeaderChecks_at_most_one (s : State) :
  hostOk s -> (size (pendingLeaderChecks s) <= 1)%nat.
Proof.
  intros [Hlead _].
  destruct (leaderElectionTimerRef s) as [ref|] eqn:Href.
  - rewrite <- (map_size_singleton ref LeaderElectionTimeout).
    apply map_subseteq_size, map_subseteq_spec. intros id kind Hid.
    rewrite pendingLeaderChecks_lookup in Hid.
    destruct (timers s !! id) as [[| |]|] eqn:Hl; try discriminate.
    injection Hid as <-. apply Hlead in Hl. injection Hl as ->.
    apply lookup_singleton_eq.
  - assert (pendingLeaderChecks s = ∅) as ->;
      [|rewrite map_size_empty; lia].
    apply map_empty. intros id. rewrite pendingLeaderChecks_lookup.
    destruct (timers s !! id) as [[| |]|] eqn:Hl; try reflexivity.
    apply Hlead in Hl. discriminate.
Qed.

(** One [request-leader] message: the pending check, if any, is cancelled
    and exactly the new one is live. *)
Lemma request_leader_rearms (tSend tNow : Z) (url : string)
    (message : TabMessage) (s : State) :
  hostOk s ->
  msg_tabId message ≠ tabIdRef cfg ->
  msg_type message = request_leader ->
  pendingLeaderChecks (handleMessage cfg tSend tNow url message s)
  = {[nextTimerId s := LeaderElectionTimeout]}.
Proof.
  intros [Hlead _] Hne Hty.
  destruct (request_leader_timers cfg tSend tNow url message s Hne Hty)
    as (Ht & _ & _).
  apply map_eq. intros id. rewrite pendingLeaderChecks_lookup, Ht.
  destruct (decide (nextTimerId s = id)) as [Heq|Hfresh].
  { subst id. now rewrite lookup_insert_eq, lookup_singleton_eq. }
  rewrite lookup_insert_ne by exact Hfresh.
  rewrite lookup_singleton_ne by exact Hfresh.
  destruct (leaderElectionTimerRef s) as [old|] eqn:Href.
  - destruct (decide (old = id)) as [Heq|Hold].
    + subst id. now rewrite lookup_delete_eq.
    + rewrite lookup_delete_ne by exact Hold.
      destruct (timers s !! id) as [[| |]|] eqn:Hl; try reflexivity.
      apply Hlead in Hl. congruence.
  - destruct (timers s !! id) as [[| |]|] eqn:Hl; try reflexivity.
    apply Hlead in Hl. congruence.
Qed.

Lemma fire_leader_check_clears (id : positive) (now now' : Z) (url : string)
    (s : State) :
  pendingLeaderChecks s = {[id := LeaderElectionTimeout]} ->
  pendingLeaderChecks (step cfg s (EvTimer id now now' url)) = ∅.
Proof.
  intros Hone.
  assert (timers s !! id = Some LeaderElectionTimeout) as Hlive.
  { pose proof (pendingLeaderChecks_lookup s id) as Hl.
    rewrite Hone, lookup_singleton_eq in Hl.
    destruct (timers s !! id) as [[| |]|]; congruence. }
  simpl.
  destruct (fireTimer_leader_check cfg id now now' url s Hlive)
    as (_ & _ & _ & _ & Ht & _).
  unfold pendingLeaderChecks in *.
  rewrite Ht, map_filter_delete, Hone. apply delete_singleton_eq.
Qed.

(** A burst of [request-leader] messages keeps the listeners installed and
    the channel as it is, and posts one reply per message. *)
Lemma burst_replies (burst : list Event) (s : State) :
  Forall (requestLeaderFromPeer cfg) burst ->
  mounted s = true ->
  channelRef s = Some ChannelOpen ->
  mounted (run cfg burst s) = true
  /\ channelRef (run cfg burst s) = Some ChannelOpen
  /\ length (posted (trace (run cfg burst s)))
     = (length burst + length (posted (trace s)))%nat.
Proof.
  intros Hburst Hm Hopen.
  induction burst as [|ev burst IH] using rev_ind.
  - simpl. auto.
  - apply Forall_app in Hburst as [Hburst Hev].
    apply Forall_singleton in Hev
      as (tSend & tNow & url & message & -> & Hty & Hne).
    destruct (IH Hburst) as (Hm' & Hopen' & Hlen).
    rewrite run_snoc. simpl. rewrite Hm'.
    destruct (request_leader_fields cfg tSend tNow url message
                (run cfg burst s) Hty) as (_ & _ & _ & _ & Hhost & _).
    injection Hhost as Hch Hmounted.
    rewrite Hmounted, Hch, Hm', Hopen'.
    rewrite request_leader_posted by assumption.
    rewrite length_app. simpl. rewrite Hlen. repeat split. lia.
Qed.

End Debounce.

(** ** The scenario states are reachable *)

Lemma reachable_withPeerB : reachable (defaultConfig "a-100") withPeerB.
Proof.
  exists [EvMount Constructed 0 0 0 "urlA"%string;
          EvMessage 5 5 "urlA"%string (heartbeatFrom "b-200" 4)].
  reflexivity.
Defined.

Lemma reachable_aloneA : reachable (defaultConfig "a-100") aloneA.
Proof. exists [EvMount Constructed 0 0 0 "urlA"%string]. reflexivity. Defined.

(** ** Staleness outside the reaper *)

(** C3, as stated, fails: [updateTabState] filters the table by
    [now - lastHeartbeat < inactivityThreshold] on every run, so a heartbeat
    of [c-300] received at time 40000 removes the entry of [b-200], last
    heard of at time 4. *)
Lemma heartbeat_evicts_stale_peer : ~ only_reaper_evicts.
Proof.
  intros Hclaim.
  assert (activeTabsRef
            (handleMessage (defaultConfig "a-100") 40000 40000 "urlA"
               (heartbeatFrom "c-300" 40000) withPeerB) !! "b-200"%string
          = None) as Hgone by (vm_compute; reflexivity).
  assert (activeTabsRef
            (handleMessage (defaultConfig "a-100") 40000 40000 "urlA"
               (heartbeatFrom "c-300" 40000) withPeerB) !! "b-200"%string
          = Some (mkTabInfo "b-200" 4 "urlOfPeer")) as Hkept.
  { apply Hclaim.
    - exact reachable_withPeerB.
    - vm_compute. reflexivity.
    - reflexivity.
    - intros Heq. vm_compute in Heq. discriminate Heq.
    - intros Heq. vm_compute in Heq. discriminate Heq.
    - intros Heq. vm_compute in Heq. discriminate Heq.
    - vm_compute. reflexivity. }
  rewrite Hgone in Hkept. discriminate Hkept.
Qed.

(** C3, amended.  Handling a message of another instance changes the entry
    of a third instance only through the recomputation it ends with: for
    [heartbeat], [request-active-tabs] and [tab-closed] the entry is kept
    unchanged when [now - lastHeartbeat < inactivityThreshold] at the clock
    read by [updateTabState] and removed otherwise; for [request-leader]
    and unknown kinds it is kept. *)
Theorem handleMessage_evicts_only_stale_peers (cfg : Config)
    (tSend tNow : Z) (url : string) (message : TabMessage) (s : State)
    (id : string) (info : TabInfo) :
  msg_tabId message ≠ tabIdRef cfg ->
  id ≠ tabIdRef cfg ->
  id ≠ msg_tabId message ->
  activeTabsRef s !! id = Some info ->
  activeTabsRef (handleMessage cfg tSend tNow url message s) !! id
  = match msg_type message with
    | heartbeat | request_active_tabs | tab_closed =>
        if bool_decide (tNow - lastHeartbeat info < inactivityThreshold cfg)
        then Some info else None
    | request_leader | unknown_type => Some info
    end.
Proof.
  intros Hpeer Hother Hthird Hentry.
  destruct (msg_type message) eqn:Hty.
  - rewrite handleMessage_heartbeat by assumption.
    rewrite updateTabState_table, refreshed_lookup_recent by exact Hother.
    state_eval. rewrite lookup_insert_ne by congruence. now rewrite Hentry.
  - rewrite handleMessage_tab_closed by assumption.
    rewrite updateTabState_table, refreshed_lookup_recent by exact Hother.
    state_eval. rewrite lookup_delete_ne by congruence. now rewrite Hentry.
  - rewrite handleMessage_request_active_tabs by assumption.
    rewrite updateTabState_table, refreshed_lookup_recent by exact Hother.
    state_eval. rewrite lookup_insert_ne by congruence. now rewrite Hentry.
  - destruct (request_leader_fields cfg tSend tNow url message s Hty)
      as (Htab & _).
    now rewrite Htab.
  - rewrite handleMessage_unknown by assumption. state_eval. exact Hentry.
Qed.

Lemma handleMessage_evicts_only_stale_peers_witness :
  activeTabsRef
    (handleMessage (defaultConfig "a-100") 40000 40000 "urlA"
       (heartbeatFrom "c-300" 40000) withPeerB) !! "b-200"%string
  = None
  /\ activeTabsRef
       (handleMessage (defaultConfig "a-100") 20000 20000 "urlA"
          (heartbeatFrom "c-300" 20000) withPeerB) !! "b-200"%string
     = Some (mkTabInfo "b-200" 4 "urlOfPeer").
Proof.
  assert (activeTabsRef withPeerB !! "b-200"%string
          = Some (mkTabInfo "b-200" 4 "urlOfPeer")) as Hentry
      by (vm_compute; reflexivity).
  assert ("c-300"%string ≠ "a-100"%string) as Hpeer by discriminate.
  assert ("b-200"%string ≠ "a-100"%string) as Hother by discriminate.
  assert ("b-200"%string ≠ "c-300"%string) as Hthird by discriminate.
  split.
  - exact (handleMessage_evicts_only_stale_peers (defaultConfig "a-100")
             40000 40000 "urlA" (heartbeatFrom "c-300" 40000) withPeerB
             "b-200" (mkTabInfo "b-200" 4 "urlOfPeer")
             Hpeer Hother Hthird Hentry).
  - exact (handleMessage_evicts_only_stale_peers (defaultConfig "a-100")
             20000 20000 "urlA" (heartbeatFrom "c-300" 20000) withPeerB
             "b-200" (mkTabInfo "b-200" 4 "urlOfPeer")
             Hpeer Hother Hthird Hentry).
Defined.

(** ** The sender's entry *)

(** C6, as stated, fails: the entry written for the sender goes through the
    same filter.  A heartbeat that [b-200] stamped 0, received at local
    time 40000, leaves no entry for [b-200]. *)
Lemma stale_sender_entry_not_stored : ~ sender_entry_always_stored.
Proof.
  intros Hclaim.
  assert (activeTabsRef
            (handleMessage (defaultConfig "a-100") 40000 40000 "urlA"
               (heartbeatFrom "b-200" 0) aloneA) !! "b-200"%string
          = None) as Hgone by (vm_compute; reflexivity).
  assert (activeTabsRef
            (handleMessage (defaultConfig "a-100") 40000 40000 "urlA"
               (heartbeatFrom "b-200" 0) aloneA) !! "b-200"%string
          = Some (mkTabInfo "b-200" 0 "urlOfPeer")) as Hstored.
  { apply (Hclaim (defaultConfig "a-100") 40000 40000 "urlA"%string
             (heartbeatFrom "b-200" 0) aloneA).
    - exact reachable_aloneA.
    - vm_compute. reflexivity.
    - intros Heq. vm_compute in Heq. discriminate Heq.
    - left. reflexivity. }
  rewrite Hgone in Hstored. discriminate Hstored.
Qed.

(** C6, amended.  For a [heartbeat] or [request-active-tabs] message of
    another instance, received while the listeners are installed: the
    handler first writes the sender's entry with the timestamp the sender
    supplied and the url of the message (the empty string when the message
    has none); after the recomputation that follows, that entry is in the
    table exactly when [tNow - timestamp < inactivityThreshold] for the
    local clock [tNow], and the sender has no entry otherwise.  A
    [request-active-tabs] message has exactly one heartbeat posted in
    reply, a [heartbeat] message none. *)
Theorem handleMessage_upserts_sender (cfg : Config)
    (tSend tNow : Z) (url : string) (message : TabMessage) (s : State) :
  reachable cfg s ->
  mounted s = true ->
  msg_tabId message ≠ tabIdRef cfg ->
  msg_type message = heartbeat \/ msg_type message = request_active_tabs ->
  let entry :=
    mkTabInfo (msg_tabId message) (msg_timestamp message)
      (default EmptyString (msg_url message)) in
  let s' := handleMessage cfg tSend tNow url message s in
  activeTabsRef (upsertSender message s) !! msg_tabId message = Some entry
  /\ activeTabsRef s' !! msg_tabId message
     = (if bool_decide (tNow - msg_timestamp message
                        < inactivityThreshold cfg)
        then Some entry else None)
  /\ posted (trace s')
     = (if bool_decide (msg_type message = request_active_tabs)
        then [mkTabMessage heartbeat (tabIdRef cfg) tSend (Some url)]
        else [])
       ++ posted (trace s).
Proof.
  intros Hreach Hm Hpeer Hkind entry s'.
  assert (channelRef s = Some ChannelOpen) as Hopen.
  { destruct (reachable_hostOk cfg s Hreach) as [_ Hch]. now apply Hch. }
  split; [unfold upsertSender; fields; apply lookup_insert_eq|].
  unfold s'. destruct Hkind as [Hty|Hty].
  - rewrite handleMessage_heartbeat by assumption.
    rewrite updateTabState_table, refreshed_lookup_recent by exact Hpeer.
    destruct (updateTabState_fields cfg tNow url
                (upsertSender message (log cfg LReceived s)))
      as (_ & _ & _ & _ & Hposted & _).
    rewrite Hposted, Hty. clear Hposted.
    rewrite (bool_decide_eq_false_2 (heartbeat = request_active_tabs))
      by discriminate.
    state_eval. rewrite lookup_insert_eq. cbn [lastHeartbeat].
    split; [reflexivity|]. trace_simpl. split_conds; reflexivity.
  - rewrite handleMessage_request_active_tabs by assumption.
    rewrite updateTabState_table, refreshed_lookup_recent by exact Hpeer.
    destruct (updateTabState_fields cfg tNow url
                (sendMessage cfg tSend url heartbeat
                   (upsertSender message (log cfg LReceived s))))
      as (_ & _ & _ & _ & Hposted & _).
    rewrite Hposted, Hty. clear Hposted.
    rewrite (bool_decide_eq_true_2 (request_active_tabs = request_active_tabs))
      by reflexivity.
    state_eval. rewrite lookup_insert_eq, Hopen. cbn [lastHeartbeat].
    split; [reflexivity|]. trace_simpl. split_conds; reflexivity.
Qed.

Lemma handleMessage_upserts_sender_witness :
  activeTabsRef
    (handleMessage (defaultConfig "a-100") 7 8 "urlA"
       (mkTabMessage request_active_tabs "b-200" 6 None) aloneA)
    !! "b-200"%string
  = Some (mkTabInfo "b-200" 6 "")
  /\ posted
       (trace (handleMessage (defaultConfig "a-100") 7 8 "urlA"
                 (mkTabMessage request_active_tabs "b-200" 6 None) aloneA))
     = [mkTabMessage heartbeat "a-100" 7 (Some "urlA"%string)]
       ++ posted (trace aloneA).
Proof.
  assert (mounted aloneA = true) as Hm by (vm_compute; reflexivity).
  assert ("b-200"%string ≠ "a-100"%string) as Hpeer by discriminate.
  pose proof (handleMessage_upserts_sender (defaultConfig "a-100") 7 8 "urlA"
                (mkTabMessage request_active_tabs "b-200" 6 None) aloneA
                reachable_aloneA Hm Hpeer (or_intror eq_refl))
    as (_ & Hentry & Hposted).
  split; [exact Hentry|exact Hposted].
Defined.

(** ** The theorems at the scenario states *)

Lemma count_invariant_witness :
  (1 <= tabCount withPeerB)%nat
  /\ isMultiTab withPeerB = bool_decide (1 < tabCount withPeerB)%nat
  /\ is_Some (activeTabsRef withPeerB !! "a-100"%string)
  /\ tabCount withPeerB = size (activeTabsRef withPeerB).
Proof.
  destruct (count_invariant (defaultConfig "a-100") withPeerB 10 "urlA"
              reachable_withPeerB) as (_ & Hpos & Hmulti & Hdone).
  assert (0 < recomputations (trace withPeerB))%nat as Hran
      by (vm_compute; lia).
  destruct (Hdone Hran) as [Hself Hsize].
  repeat split; assumption.
Defined.

Lemma last_notified_pair_witness :
  (prevIsMultiTabRef withPeerB, prevTabCountRef withPeerB)
  = lastNotified (trace withPeerB)
  /\ lastNotified (trace withPeerB) = (true, 2%nat).
Proof.
  destruct (last_notified_pair (defaultConfig "a-100") withPeerB
              reachable_withPeerB) as (Hpair & _).
  split; [exact Hpair|]. vm_compute. reflexivity.
Defined.

Lemma unsupported_instance_is_inert_witness :
  let s := run unsupportedConfig busyHost initialState in
  posted (trace s) = []
  /\ timers s = ∅
  /\ nextTimerId s = 1%positive
  /\ isSupported s = false
  /\ tabCount s = 1%nat
  /\ isMultiTab s = false.
Proof.
  destruct (unsupported_instance_is_inert unsupportedConfig busyHost eq_refl)
    as (Hposted & Htimers & Hnext & _ & _ & _ & _ & _ & _ & Hsup & Hcount
        & Hmulti).
  cbv zeta. repeat split; assumption.
Defined.

Lemma leaderRequests_from_peers :
  Forall (requestLeaderFromPeer (defaultConfig "a-100")) leaderRequests.
Proof.
  repeat constructor.
  - exists 10, 10, "urlA"%string,
      (mkTabMessage request_leader "b-200" 9 None).
    repeat split. discriminate.
  - exists 11, 11, "urlA"%string,
      (mkTabMessage request_leader "c-300" 10 None).
    repeat split. discriminate.
Defined.

(** ** The scenarios of the specification, run on the model *)

(** A single instance: count 1, not multi, the callback is never invoked. *)
Example scenario_single_instance :
  (tabCount aloneA, isMultiTab aloneA, callbacks (trace aloneA))
  = (1%nat, false, []).
Proof. vm_compute. reflexivity. Qed.

(** [a-100] learns of [b-200]: it is the leader and notifies [(true, 2)]
    with both urls. *)
Example scenario_two_instances :
  (tabCount withPeerB, isLeaderRef withPeerB, callbacks (trace withPeerB))
  = (2%nat, true,
     [(true, 2%nat,
       {[ "a-100"%string := "urlA"%string;
          "b-200"%string := "urlOfPeer"%string ]})]).
Proof. vm_compute. reflexivity. Qed.

(** Seen from [b-200], the same group: not the leader, nothing notified. *)
Example scenario_follower_suppresses :
  let s :=
    run (defaultConfig "b-200")
      [EvMount Constructed 3 3 3 "urlB"%string;
       EvMessage 5 5 "urlB"%string (heartbeatFrom "a-100" 4)]
      initialState in
  (tabCount s, isLeaderRef s, callbacks (trace s)) = (2%nat, false, []).
Proof. vm_compute. reflexivity. Qed.

(** [b-200] closes: [a-100] notifies [(false, 1)]. *)
Example scenario_peer_closes :
  let s :=
    step (defaultConfig "a-100") withPeerB
      (EvMessage 9 9 "urlA"%string
         (mkTabMessage tab_closed "b-200" 8 None)) in
  (tabCount s, head (callbacks (trace s)))
  = (1%nat, Some (false, 1%nat, {[ "a-100"%string := "urlA"%string ]})).
Proof. vm_compute. reflexivity. Qed.

(** [b-200] falls silent: the sweep (timer 2) keeps it while
    [now - 4 < 30000] and evicts it from then on. *)
Example scenario_peer_silent :
  let before :=
    step (defaultConfig "a-100") withPeerB
      (EvTimer 2 30003 30003 "urlA"%string) in
  let after :=
    step (defaultConfig "a-100") withPeerB
      (EvTimer 2 30004 30004 "urlA"%string) in
  (tabCount before, tabCount after, head (callbacks (trace after)))
  = (2%nat, 1%nat,
     Some (false, 1%nat, {[ "a-100"%string := "urlA"%string ]})).
Proof. vm_compute. reflexivity. Qed.

(** The constructor of the channel throws in the first run of the effect:
    the error is printed, [isSupported] is [false], nothing is installed
    and nothing is posted; a later run in which it returns starts the
    instance. *)
Example scenario_constructor_throws :
  let failed :=
    step (defaultConfig "a-100") initialState
      (EvMount ConstructorThrows 0 0 0 "urlA"%string) in
  let retried :=
    step (defaultConfig "a-100") failed
      (EvMount Constructed 1 1 1 "urlA"%string) in
  (trace failed, isSupported failed, mounted failed, channelRef failed,
   timers failed)
  = ([ESetIsSupported false; EConsoleErrorInit; ESetIsSupported true],
     false, false, None, ∅)
  /\ (isSupported retried, mounted retried, tabCount retried,
      length (posted (trace retried)))
     = (true, true, 1%nat, 2%nat).
Proof. vm_compute. split; reflexivity. Qed.

(** * Properties of the life cycle *)

(** ** Frames of the building blocks *)

Section Blocks.

Context (cfg : Config).

Lemma sameHost_refl (s : State) : sameHost s s.
Proof. repeat split. Qed.

Lemma sameHost_trans (s1 s2 s3 : State) :
  sameHost s1 s2 -> sameHost s2 s3 -> sameHost s1 s3.
Proof.
  intros (H1 & H2 & H3 & H4 & H5 & H6 & H7) (G1 & G2 & G3 & G4 & G5 & G6 & G7).
  repeat split; congruence.
Qed.

Lemma sameView_refl (s : State) : sameView s s.
Proof. repeat split. Qed.

Lemma sameView_trans (s1 s2 s3 : State) :
  sameView s1 s2 -> sameView s2 s3 -> sameView s1 s3.
Proof.
  intros (H1 & H2 & H3 & H4 & H5 & H6 & H7 & H8)
         (G1 & G2 & G3 & G4 & G5 & G6 & G7 & G8).
  repeat split; congruence.
Qed.

Lemma extends_refl (s : State) : extends cfg s s.
Proof. exists []. split; [reflexivity|constructor]. Qed.

Lemma extends_trans (s1 s2 s3 : State) :
  extends cfg s1 s2 -> extends cfg s2 s3 -> extends cfg s1 s3.
Proof.
  intros (new1 & H1 & Hok1) (new2 & H2 & Hok2). exists (new2 ++ new1).
  split; [now rewrite H2, H1, app_assoc|]. now apply Forall_app.
Qed.

(** A state built on [s] whose trace has the effects [new] in front. *)
Lemma extends_new (new : list Effect) (s s' : State) :
  trace s' = new ++ trace s -> Forall (effectOk cfg) new ->
  extends cfg s s'.
Proof. intros Htr Hok. now exists new. Qed.

Lemma extends_same_trace (s s' : State) :
  trace s' = trace s -> extends cfg s s'.
Proof. intros Htr. now apply (extends_new []). Qed.

Lemma log_frames (site : LogSite) (s : State) :
  sameHost s (log cfg site s)
  /\ sameView s (log cfg site s)
  /\ extends cfg s (log cfg site s).
Proof.
  rewrite log_emits. split; [repeat split|]. split; [repeat split|].
  apply (extends_new (if debug cfg then [ELog site] else []));
    [reflexivity|].
  destruct (debug cfg) eqn:Hdebug; repeat constructor. exact Hdebug.
Qed.

Lemma iter_log_frames (k : nat) (site : LogSite) (s : State) :
  sameHost s (Nat.iter k (log cfg site) s)
  /\ sameView s (Nat.iter k (log cfg site) s)
  /\ extends cfg s (Nat.iter k (log cfg site) s).
Proof.
  induction k as [|k (IH1 & IH2 & IH3)].
  - split; [apply sameHost_refl|]. split; [apply sameView_refl|].
    apply extends_refl.
  - cbn [Nat.iter nat_rect].
    destruct (log_frames site (Nat.iter k (log cfg site) s))
      as (H1 & H2 & H3).
    split; [now apply (sameHost_trans _ _ _ IH1)|].
    split; [now apply (sameView_trans _ _ _ IH2)|].
    now apply (extends_trans _ _ _ IH3).
Qed.

(** [sendMessage] with a kind the hook uses, on a channel that is not
    closed. *)
Lemma sendMessage_frames (now : Z) (url : string) (type : MessageType)
    (s : State) :
  channelRef s ≠ Some ChannelClosed ->
  type = heartbeat \/ type = tab_closed \/ type = request_active_tabs ->
  sameHost s (sendMessage cfg now url type s)
  /\ sameView s (sendMessage cfg now url type s)
  /\ extends cfg s (sendMessage cfg now url type s).
Proof.
  intros Hopen Hkind. rewrite sendMessage_emits.
  split; [repeat split|]. split; [repeat split|].
  apply (extends_new (sendEffects cfg now url type (channelRef s)));
    [reflexivity|].
  unfold sendEffects. destruct (channelRef s) as [[|]|]; [|congruence|].
  - apply Forall_app. split.
    + destruct (debug cfg) eqn:Hdebug; repeat constructor. exact Hdebug.
    + constructor; [|constructor]. cbn.
      split; [reflexivity|]. split; [eauto|exact Hkind].
  - constructor.
Qed.

(** On an open channel [sendMessage] posts exactly its message. *)
Lemma sendMessage_posts (now : Z) (url : string) (type : MessageType)
    (s : State) :
  channelRef s = Some ChannelOpen ->
  posted (trace (sendMessage cfg now url type s))
  = ownMessage cfg type now url :: posted (trace s).
Proof.
  intros Hopen. rewrite sendMessage_emits. unfold sendEffects.
  rewrite Hopen. fields. trace_simpl.
  destruct (debug cfg); reflexivity.
Qed.

Lemma sweep_frames (now : Z) (s : State) :
  sameHost s (sweep cfg now s).1
  /\ extends cfg s (sweep cfg now s).1
  /\ (isSupported (sweep cfg now s).1, isMultiTab (sweep cfg now s).1,
      tabCount (sweep cfg now s).1, activeTabUrls (sweep cfg now s).1)
     = (isSupported s, isMultiTab s, tabCount s, activeTabUrls s)
  /\ isLeaderRef (sweep cfg now s).1 = isLeaderRef s.
Proof.
  destruct (sweep_frame cfg now s) as [k Hk].
  destruct (iter_log_frames k LRemoving s) as (Hhost & Hview & Hext).
  rewrite <- Hk in Hhost, Hview, Hext.
  split; [exact Hhost|]. split.
  - destruct Hext as (new & Htr & Hok). now exists new.
  - destruct Hview as (_ & H2 & H3 & H4 & H5 & H6 & _).
    fields. split; congruence.
Qed.

End Blocks.

(** ** [updateTabState] as a building block *)

Section RecomputeBlock.

Context (cfg : Config).

Lemma updateTabState_sameHost (now : Z) (url : string) (s : State) :
  sameHost s (updateTabState cfg now url s).
Proof. state_eval. repeat split. Qed.

(** The table [updateTabState] leaves, entry by entry. *)
Lemma refreshed_lookup (now : Z) (url : string)
    (table : gmap string TabInfo) (id : string) :
  refreshed cfg now url table !! id
  = if bool_decide (id = tabIdRef cfg)
    then Some (mkTabInfo (tabIdRef cfg) now url)
    else match table !! id with
         | Some info =>
             if bool_decide (now - lastHeartbeat info
                             < inactivityThreshold cfg)
             then Some info else None
         | None => None
         end.
Proof.
  destruct (decide (id = tabIdRef cfg)) as [->|Hne].
  - rewrite bool_decide_eq_true_2 by reflexivity.
    apply refreshed_lookup_self.
  - rewrite bool_decide_eq_false_2 by exact Hne.
    now apply refreshed_lookup_recent.
Qed.

Lemma refreshed_urls_dom (now : Z) (url : string)
    (table : gmap string TabInfo) :
  tabIdRef cfg ∈ dom (info_url <$> refreshed cfg now url table).
Proof. rewrite dom_fmap_L. apply refreshed_self_in_dom. Qed.

Lemma extends_list_nil (tr : list Effect) :
  exists new, tr = new ++ tr /\ Forall (effectOk cfg) new.
Proof. exists []. split; [reflexivity|constructor]. Qed.

Lemma extends_list_cons (e : Effect) (tr tr' : list Effect) :
  effectOk cfg e ->
  (exists new, tr' = new ++ tr /\ Forall (effectOk cfg) new) ->
  exists new, e :: tr' = new ++ tr /\ Forall (effectOk cfg) new.
Proof.
  intros He (new & -> & Hok). exists (e :: new).
  split; [reflexivity|now constructor].
Qed.

Lemma updateTabState_extends (now : Z) (url : string) (s : State) :
  extends cfg s (updateTabState cfg now url s).
Proof.
  pose proof (refreshed_size_pos cfg now url (activeTabsRef s)) as Hpos.
  pose proof (refreshed_urls_dom now url (activeTabsRef s)) as Hdom.
  pose proof (map_size_fmap info_url (refreshed cfg now url (activeTabsRef s)))
    as Hsize.
  unfold extends. state_eval.
  set (table := refreshed cfg now url (activeTabsRef s)) in *.
  destruct (debug cfg) eqn:Hdebug, (onMultiTabChange cfg) eqn:Hcb,
    (shouldBeLeader cfg table) eqn:Hleader,
    (bool_decide (prevIsMultiTabRef s ≠ bool_decide (1 < size table)%nat)),
    (bool_decide (prevTabCountRef s ≠ size table)),
    (isLeaderRef s);
    cbn [andb orb negb app];
    rewrite ?bool_decide_eq_true_2 by discriminate;
    rewrite ?bool_decide_eq_false_2 by (intros Habs; now apply Habs);
    cbn [andb orb negb app].
  all: repeat first
         [ apply extends_list_nil
         | apply extends_list_cons; [cbn [effectOk]; auto|] ].
Qed.

End RecomputeBlock.

(** ** The timers an instance owns *)

Section Timers.

Context (cfg : Config).

Lemma cleared_lookup (ref : option positive)
    (live : gmap positive TimerKind) (id : positive) (kind : TimerKind) :
  cleared ref live !! id = Some kind <->
  live !! id = Some kind /\ ref ≠ Some id.
Proof.
  destruct ref as [old|]; simpl.
  - rewrite lookup_delete_Some. split.
    + intros [Hne Hl]. split; [exact Hl|congruence].
    + intros [Hl Hne]. split; [congruence|exact Hl].
  - split; [intros Hl; split; [exact Hl|discriminate]|tauto].
Qed.

Lemma timersOwned_sameHost (s s' : State) :
  sameHost s s' -> timersOwned s -> timersOwned s'.
Proof.
  intros (Ht & Hn & Hm & _ & Hh & Hc & Hl) Hown id kind.
  rewrite Ht, Hn, Hm, Hh, Hc, Hl. apply Hown.
Qed.

(** An instance whose effect is not installed has no live timer. *)
Lemma timersOwned_unmounted (s : State) :
  timersOwned s -> mounted s = false -> timers s = ∅.
Proof.
  intros Hown Hm. apply map_empty. intros id.
  destruct (timers s !! id) as [kind|] eqn:Hl; [|reflexivity].
  destruct (Hown id kind Hl) as (_ & Hmounted & _). congruence.
Qed.

Lemma unmountEffect_host (now : Z) (url : string) (s : State) :
  let s' := unmountEffect cfg now url s in
  timers s'
  = cleared (leaderElectionTimerRef s)
      (cleared (cleanupTimerRef s)
         (cleared (heartbeatTimerRef s) (timers s)))
  /\ nextTimerId s' = nextTimerId s
  /\ mounted s' = false
  /\ channelRef s'
     = match channelRef s with
       | Some _ => Some ChannelClosed
       | None => None
       end
  /\ sameView s s'.
Proof.
  unfold unmountEffect, cleared. state_eval.
  destruct (channelRef s) eqn:Hch; fields; rewrite ?Hch; repeat split.
Qed.

(** The cleanup function leaves no timer behind. *)
Lemma unmountEffect_no_timer (now : Z) (url : string) (s : State) :
  timersOwned s -> timers (unmountEffect cfg now url s) = ∅.
Proof.
  intros Hown. destruct (unmountEffect_host now url s) as (Ht & _).
  rewrite Ht. apply map_empty. intros id.
  destruct (cleared _ _ !! id) as [kind|] eqn:Hl; [|reflexivity].
  apply cleared_lookup in Hl as [Hl Hleader].
  apply cleared_lookup in Hl as [Hl Hcleanup].
  apply cleared_lookup in Hl as [Hl Hheartbeat].
  destruct (Hown id kind Hl) as (_ & _ & Href).
  destruct kind; congruence.
Qed.

Lemma announce_host (tReq tBeat : Z) (url : string) (s : State) :
  let s' := announce cfg tReq tBeat url s in
  timers s'
  = <[Pos.succ (nextTimerId s) := CleanupInterval]>
      (<[nextTimerId s := HeartbeatInterval]> (timers s))
  /\ nextTimerId s' = Pos.succ (Pos.succ (nextTimerId s))
  /\ heartbeatTimerRef s' = Some (nextTimerId s)
  /\ cleanupTimerRef s' = Some (Pos.succ (nextTimerId s))
  /\ leaderElectionTimerRef s' = leaderElectionTimerRef s
  /\ channelRef s' = Some ChannelOpen
  /\ mounted s' = mounted s
  /\ isSupported s' = true
  /\ activeTabsRef s' = activeTabsRef s
  /\ isLeaderRef s' = isLeaderRef s
  /\ posted (trace s')
     = ownMessage cfg heartbeat tBeat url
       :: ownMessage cfg request_active_tabs tReq url
       :: posted (trace s).
Proof.
  unfold announce. state_eval. trace_simpl.
  repeat split. destruct (debug cfg); reflexivity.
Qed.

Lemma announce_extends (tReq tBeat : Z) (url : string) (s : State) :
  broadcastChannelDefined cfg = true ->
  extends cfg s (announce cfg tReq tBeat url s).
Proof.
  intros Hsup. unfold announce, extends. state_eval.
  destruct (debug cfg) eqn:Hdebug; cbn [app].
  all: repeat first
         [ apply extends_list_nil
         | apply extends_list_cons;
           [cbn [effectOk msg_tabId msg_url msg_type]; eauto 6|] ].
Qed.

Lemma abandon_frames (s : State) :
  broadcastChannelDefined cfg = true ->
  sameHost s (abandon cfg s) /\ extends cfg s (abandon cfg s).
Proof.
  intros Hsup. unfold abandon. rewrite log_emits.
  split; [repeat split|]. unfold extends. fields.
  destruct (debug cfg) eqn:Hdebug; cbn [app].
  all: repeat first
         [ apply extends_list_nil
         | apply extends_list_cons; [cbn [effectOk]; eauto|] ].
Qed.

Lemma timersOwned_mount (construct : Construction) (tReq tBeat tNow : Z)
    (url : string) (s : State) :
  timersOwned s -> mounted s = false ->
  timersOwned (mountEffect cfg construct tReq tBeat tNow url s).
Proof.
  intros Hown Hm.
  pose proof (timersOwned_unmounted s Hown Hm) as Hnone.
  destruct (broadcastChannelDefined cfg) eqn:Hsup.
  - destruct construct; [|rewrite mountEffect_throws by exact Hsup;
      apply (timersOwned_sameHost s); [now apply abandon_frames|exact Hown]].
    rewrite mountEffect_supported by exact Hsup.
    destruct (updateTabState_sameHost cfg tNow url
                (announce cfg tReq tBeat url s))
      as (Ht & Hn & _ & _ & Hh & Hc & Hl).
    destruct (announce_host tReq tBeat url s)
      as (Ht' & Hn' & Hh' & Hc' & _).
    intros id kind. fields. rewrite Ht, Hn, Hh, Hc, Hl, Ht', Hn', Hh', Hc', Hnone.
    intros Hlive.
    destruct (decide (Pos.succ (nextTimerId s) = id)) as [Heq|Hne1].
    { subst id. rewrite lookup_insert_eq in Hlive. injection Hlive as <-.
      repeat split. lia. }
    rewrite lookup_insert_ne in Hlive by exact Hne1.
    destruct (decide (nextTimerId s = id)) as [Heq|Hne2].
    { subst id. rewrite lookup_insert_eq in Hlive. injection Hlive as <-.
      repeat split. lia. }
    rewrite lookup_insert_ne, lookup_empty in Hlive by exact Hne2.
    discriminate.
  - rewrite mountEffect_unsupported by exact Hsup.
    intros id kind. fields. rewrite Hnone, lookup_empty. discriminate.
Qed.

Lemma timersOwned_rearm (s : State) :
  timersOwned s -> mounted s = true -> timersOwned (rearmLeaderCheck s).
Proof.
  intros Hown Hm id kind.
  rewrite rearmLeaderCheck_timers, rearmLeaderCheck_ref.
  unfold rearmLeaderCheck. rewrite clearIfSet_normal. fields.
  fold (cleared (leaderElectionTimerRef s) (timers s)).
  destruct (decide (nextTimerId s = id)) as [Heq|Hfresh].
  { subst id. rewrite lookup_insert_eq. intros [= <-].
    split; [lia|]. split; [exact Hm|reflexivity]. }
  rewrite lookup_insert_ne by exact Hfresh. intros Hlive.
  apply cleared_lookup in Hlive as [Hlive Hnot].
  destruct (Hown id kind Hlive) as (Hlt & _ & Href).
  split; [lia|]. split; [exact Hm|].
  destruct kind; [exact Href|exact Href|congruence].
Qed.

End Timers.

(** ** Frames of the handlers *)

Section Handlers.

Context (cfg : Config).

Lemma set_activeTabsRef_frames (table : gmap string TabInfo) (s : State) :
  sameHost s (set_activeTabsRef table s)
  /\ extends cfg s (set_activeTabsRef table s).
Proof. split; [repeat split|]. now apply extends_same_trace. Qed.

Lemma electSelf_frames (s : State) :
  sameHost s (electSelf cfg s) /\ extends cfg s (electSelf cfg s)
  /\ posted (trace (electSelf cfg s)) = posted (trace s)
  /\ callbacks (trace (electSelf cfg s)) = callbacks (trace s)
  /\ recomputations (trace (electSelf cfg s)) = recomputations (trace s).
Proof.
  split; [repeat split|]. unfold extends. fields. trace_simpl.
  destruct (bool_decide _), (debug cfg) eqn:Hdebug; cbn [andb app];
    repeat split;
    repeat first
      [ apply extends_list_nil
      | apply extends_list_cons; [cbn [effectOk]; auto|] ].
Qed.

(** What [handleMessage] does to a message of another instance, by kind. *)
Lemma handleMessage_cases (tSend tNow : Z) (url : string)
    (message : TabMessage) (s : State) :
  msg_tabId message ≠ tabIdRef cfg ->
  let received := log cfg LReceived s in
  handleMessage cfg tSend tNow url message s
  = match msg_type message with
    | heartbeat =>
        updateTabState cfg tNow url (upsertSender message received)
    | request_active_tabs =>
        updateTabState cfg tNow url
          (sendMessage cfg tSend url heartbeat
             (upsertSender message received))
    | tab_closed =>
        updateTabState cfg tNow url
          (set_activeTabsRef
             (delete (msg_tabId message) (activeTabsRef received)) received)
    | request_leader =>
        rearmLeaderCheck (sendMessage cfg tSend url heartbeat received)
    | unknown_type => log cfg LUnknownType received
    end.
Proof.
  intros Hpeer. cbv zeta. destruct (msg_type message) eqn:Hty.
  - now apply handleMessage_heartbeat.
  - now apply handleMessage_tab_closed.
  - now apply handleMessage_request_active_tabs.
  - now apply handleMessage_request_leader.
  - now apply handleMessage_unknown.
Qed.

Lemma handleMessage_extends (tSend tNow : Z) (url : string)
    (message : TabMessage) (s : State) :
  channelRef s ≠ Some ChannelClosed ->
  extends cfg s (handleMessage cfg tSend tNow url message s).
Proof.
  intros Hopen.
  destruct (decide (msg_tabId message = tabIdRef cfg)) as [Hself|Hpeer].
  { rewrite handleMessage_self by exact Hself. apply extends_refl. }
  rewrite handleMessage_cases by exact Hpeer. cbv zeta.
  destruct (log_frames cfg LReceived s) as (Hhost & _ & Hlog).
  assert (channelRef (log cfg LReceived s) ≠ Some ChannelClosed) as Hopen'.
  { destruct Hhost as (_ & _ & _ & Hch & _). now rewrite Hch. }
  apply (extends_trans cfg _ _ _ Hlog).
  destruct (msg_type message).
  - eapply extends_trans; [|apply updateTabState_extends].
    now apply extends_same_trace.
  - eapply extends_trans; [|apply updateTabState_extends].
    now apply extends_same_trace.
  - eapply extends_trans; [|apply updateTabState_extends].
    apply (extends_trans cfg _ (upsertSender message (log cfg LReceived s)));
      [now apply extends_same_trace|].
    apply sendMessage_frames; [exact Hopen'|now left].
  - eapply extends_trans;
      [apply sendMessage_frames; [exact Hopen'|now left]|].
    apply extends_same_trace. unfold rearmLeaderCheck.
    rewrite clearIfSet_normal. reflexivity.
  - apply log_frames.
Qed.

Lemma handleMessage_timersOwned (tSend tNow : Z) (url : string)
    (message : TabMessage) (s : State) :
  timersOwned s -> mounted s = true ->
  timersOwned (handleMessage cfg tSend tNow url message s).
Proof.
  intros Hown Hm.
  destruct (decide (msg_tabId message = tabIdRef cfg)) as [Hself|Hpeer].
  { now rewrite handleMessage_self. }
  rewrite handleMessage_cases by exact Hpeer. cbv zeta.
  destruct (log_frames cfg LReceived s) as (Hhost & _ & _).
  pose proof (timersOwned_sameHost _ _ Hhost Hown) as Hown'.
  destruct (msg_type message).
  - eapply timersOwned_sameHost; [apply updateTabState_sameHost|].
    eapply timersOwned_sameHost; [|exact Hown']. repeat split.
  - eapply timersOwned_sameHost; [apply updateTabState_sameHost|].
    eapply timersOwned_sameHost; [|exact Hown']. repeat split.
  - eapply timersOwned_sameHost; [apply updateTabState_sameHost|].
    rewrite sendMessage_emits.
    eapply timersOwned_sameHost; [|exact Hown']. repeat split.
  - apply timersOwned_rearm.
    + rewrite sendMessage_emits.
      eapply timersOwned_sameHost; [|exact Hown']. repeat split.
    + rewrite sendMessage_emits, log_emits. exact Hm.
  - eapply timersOwned_sameHost; [apply log_frames|exact Hown'].
Qed.

Lemma handleMessage_posted (tSend tNow : Z) (url : string)
    (message : TabMessage) (s : State) :
  channelRef s = Some ChannelOpen ->
  msg_tabId message ≠ tabIdRef cfg ->
  posted (trace (handleMessage cfg tSend tNow url message s))
  = match msg_type message with
    | request_active_tabs | request_leader =>
        [ownMessage cfg heartbeat tSend url]
    | heartbeat | tab_closed | unknown_type => []
    end
    ++ posted (trace s).
Proof.
  intros Hopen Hpeer. rewrite handleMessage_cases by exact Hpeer. cbv zeta.
  destruct (msg_type message).
  - destruct (updateTabState_fields cfg tNow url
                (upsertSender message (log cfg LReceived s)))
      as (_ & _ & _ & _ & -> & _).
    state_eval. trace_simpl. now destruct (debug cfg).
  - destruct (updateTabState_fields cfg tNow url
                (set_activeTabsRef
                   (delete (msg_tabId message)
                      (activeTabsRef (log cfg LReceived s)))
                   (log cfg LReceived s)))
      as (_ & _ & _ & _ & -> & _).
    state_eval. trace_simpl. now destruct (debug cfg).
  - destruct (updateTabState_fields cfg tNow url
                (sendMessage cfg tSend url heartbeat
                   (upsertSender message (log cfg LReceived s))))
      as (_ & _ & _ & _ & -> & _).
    rewrite sendMessage_posts by (state_eval; exact Hopen).
    state_eval. trace_simpl. now destruct (debug cfg).
  - unfold rearmLeaderCheck. rewrite clearIfSet_normal. fields.
    rewrite sendMessage_posts by (state_eval; exact Hopen).
    state_eval. trace_simpl. now destruct (debug cfg).
  - state_eval. trace_simpl. now destruct (debug cfg).
Qed.

Lemma posted_withoutLogs (tr : list Effect) :
  posted (withoutLogs tr) = posted tr.
Proof.
  induction tr as [|e tr IH]; [reflexivity|].
  destruct e; simpl; congruence.
Qed.

Lemma cleanupInactiveTabs_frames (now now' : Z) (url : string) (s : State) :
  sameHost s (cleanupInactiveTabs cfg now now' url s)
  /\ extends cfg s (cleanupInactiveTabs cfg now now' url s)
  /\ posted (trace (cleanupInactiveTabs cfg now now' url s))
     = posted (trace s).
Proof.
  rewrite cleanupInactiveTabs_unfold.
  destruct (sweep cfg now s).2.
  - destruct (sweep_frames cfg now s) as (Hhost & Hext & _).
    split; [|split].
    + eapply sameHost_trans; [exact Hhost|apply updateTabState_sameHost].
    + eapply extends_trans; [exact Hext|apply updateTabState_extends].
    + destruct (updateTabState_fields cfg now' url (sweep cfg now s).1)
        as (_ & _ & _ & _ & -> & _).
      destruct (sweep_fields cfg now s) as (_ & _ & _ & _ & _ & _ & Htr).
      now rewrite <- posted_withoutLogs, Htr, posted_withoutLogs.
  - split; [apply sameHost_refl|]. split; [apply extends_refl|reflexivity].
Qed.

End Handlers.

(** ** Invariants of the life cycle *)

Section LifeCycleInvariants.

Context (cfg : Config).

Lemma unmountEffect_trace (now : Z) (url : string) (s : State) :
  channelRef s = Some ChannelOpen ->
  posted (trace (unmountEffect cfg now url s))
  = ownMessage cfg tab_closed now url :: posted (trace s)
  /\ extends cfg s (unmountEffect cfg now url s).
Proof.
  intros Hopen. unfold unmountEffect, extends. state_eval.
  rewrite Hopen. fields. trace_simpl.
  destruct (debug cfg) eqn:Hdebug; cbn [app]; (split; [reflexivity|]).
  all: repeat first
         [ apply extends_list_nil
         | apply extends_list_cons;
           [cbn [effectOk msg_tabId msg_url msg_type]; eauto 6|] ].
Qed.

Lemma fire_leader_check_frames (id : positive) (s : State) :
  (determineLeadership cfg (clearTimer id s)).1
  = electSelf cfg (clearTimer id s)
  /\ timers (electSelf cfg (clearTimer id s)) = delete id (timers s)
  /\ nextTimerId (electSelf cfg (clearTimer id s)) = nextTimerId s
  /\ mounted (electSelf cfg (clearTimer id s)) = mounted s
  /\ channelRef (electSelf cfg (clearTimer id s)) = channelRef s
  /\ heartbeatTimerRef (electSelf cfg (clearTimer id s))
     = heartbeatTimerRef s
  /\ cleanupTimerRef (electSelf cfg (clearTimer id s)) = cleanupTimerRef s
  /\ leaderElectionTimerRef (electSelf cfg (clearTimer id s))
     = leaderElectionTimerRef s
  /\ extends cfg s (electSelf cfg (clearTimer id s))
  /\ posted (trace (electSelf cfg (clearTimer id s))) = posted (trace s).
Proof.
  split; [now rewrite determineLeadership_normal|].
  destruct (electSelf_frames cfg (clearTimer id s))
    as (_ & Hext & Hposted & _).
  repeat split; assumption.
Qed.

Lemma timersOwned_step (s : State) (ev : Event) :
  timersOwned s -> timersOwned (step cfg s ev).
Proof.
  intros Hown. destruct ev as [construct tReq tBeat tNow url|now url
                              |tSend tNow url m|id now now' url|now url]; cbn [step].
  - destruct (mounted s) eqn:Hm; [exact Hown|now apply timersOwned_mount].
  - destruct (mounted s) eqn:Hm; [|exact Hown].
    intros id kind. rewrite (unmountEffect_no_timer cfg now url s Hown).
    now rewrite lookup_empty.
  - destruct (mounted s) eqn:Hm; [|exact Hown].
    now apply handleMessage_timersOwned.
  - unfold fireTimer. destruct (timers s !! id) as [[| |]|] eqn:Hlive;
      [| | |exact Hown].
    + rewrite sendMessage_emits.
      eapply timersOwned_sameHost; [|exact Hown]. repeat split.
    + eapply timersOwned_sameHost; [|exact Hown].
      apply cleanupInactiveTabs_frames.
    + destruct (fire_leader_check_frames id s)
        as (-> & Ht & Hn & Hm & _ & Hh & Hc & Hl & _).
      intros id' kind. rewrite Ht, Hn, Hm, Hh, Hc, Hl.
      intros Hlive'. apply lookup_delete_Some in Hlive' as [_ Hlive'].
      now apply Hown.
  - destruct (mounted s) eqn:Hm; [|exact Hown].
    unfold handleUnload. rewrite sendMessage_emits.
    eapply timersOwned_sameHost; [|exact Hown]. repeat split.
Qed.

Lemma reachable_timersOwned (s : State) : reachable cfg s -> timersOwned s.
Proof.
  apply reachable_ind.
  - intros id kind Hlive. unfold initialState in Hlive. fields.
    now rewrite lookup_empty in Hlive.
  - intros s' ev _. apply timersOwned_step.
Qed.

(** In a state the instance can be in, a live timer or an installed
    listener comes with an open channel. *)
Lemma live_timer_open (s : State) (id : positive) (kind : TimerKind) :
  timersOwned s -> hostOk s -> timers s !! id = Some kind ->
  channelRef s = Some ChannelOpen.
Proof.
  intros Hown [_ Hch] Hlive. apply Hch.
  now destruct (Hown id kind Hlive) as (_ & Hm & _).
Qed.

Lemma step_extends (s : State) (ev : Event) :
  timersOwned s -> hostOk s -> extends cfg s (step cfg s ev).
Proof.
  intros Hown Hhost. pose proof Hhost as [_ Hch].
  destruct ev as [construct tReq tBeat tNow url|now url
                 |tSend tNow url m|id now now' url|now url]; cbn [step].
  - destruct (mounted s) eqn:Hm; [apply extends_refl|].
    destruct (broadcastChannelDefined cfg) eqn:Hsup.
    + destruct construct;
        [|rewrite mountEffect_throws by exact Hsup; now apply abandon_frames].
      rewrite mountEffect_supported by exact Hsup.
      eapply extends_trans; [now apply announce_extends|].
      eapply extends_trans; [apply updateTabState_extends|].
      now apply extends_same_trace.
    + rewrite mountEffect_unsupported by exact Hsup.
      apply (extends_new cfg [EConsoleWarn; ESetIsSupported false]);
        [reflexivity|].
      repeat constructor; cbn [effectOk]; congruence.
  - destruct (mounted s) eqn:Hm; [|apply extends_refl].
    apply unmountEffect_trace. now apply Hch.
  - destruct (mounted s) eqn:Hm; [|apply extends_refl].
    apply handleMessage_extends. rewrite Hch by reflexivity. discriminate.
  - unfold fireTimer. destruct (timers s !! id) as [[| |]|] eqn:Hlive;
      [| | |apply extends_refl].
    + apply sendMessage_frames; [|now left].
      rewrite (live_timer_open s id _ Hown Hhost Hlive). discriminate.
    + apply cleanupInactiveTabs_frames.
    + destruct (fire_leader_check_frames id s)
        as (-> & _ & _ & _ & _ & _ & _ & _ & Hext & _).
      exact Hext.
  - destruct (mounted s) eqn:Hm; [|apply extends_refl].
    apply sendMessage_frames; [|right; now left].
    rewrite Hch by reflexivity. discriminate.
Qed.

Lemma reachable_trace_ok (s : State) :
  reachable cfg s -> Forall (effectOk cfg) (trace s).
Proof.
  intros Hreach. pattern s. revert s Hreach. apply reachable_ind.
  - constructor.
  - intros s ev Hreach IH.
    destruct (step_extends s ev (reachable_timersOwned s Hreach)
                (reachable_hostOk cfg s Hreach)) as (new & -> & Hnew).
    now apply Forall_app.
Qed.

(** What one event posts. *)
Lemma step_posted (s : State) (ev : Event) :
  timersOwned s -> hostOk s ->
  posted (trace (step cfg s ev))
  = publishedBy cfg s ev ++ posted (trace s).
Proof.
  intros Hown Hhost. pose proof Hhost as [_ Hch].
  destruct ev as [construct tReq tBeat tNow url|now url
                 |tSend tNow url m|id now now' url|now url]; cbn [step publishedBy].
  - destruct (mounted s) eqn:Hm; [reflexivity|].
    destruct (broadcastChannelDefined cfg) eqn:Hsup; cbn [orb negb].
    + destruct construct;
        [|rewrite mountEffect_throws by exact Hsup;
          destruct (abandon_fields cfg s)
            as (_ & _ & _ & _ & _ & _ & _ & _ & Hposted & _);
          exact Hposted].
      rewrite mountEffect_supported by exact Hsup.
      destruct (updateTabState_fields cfg tNow url
                  (announce cfg tReq tBeat url s))
        as (_ & _ & _ & _ & Hposted & _).
      destruct (announce_host cfg tReq tBeat url s)
        as (_ & _ & _ & _ & _ & _ & _ & _ & _ & _ & Hannounce).
      fields. now rewrite Hposted, Hannounce.
    + rewrite mountEffect_unsupported by exact Hsup. reflexivity.
  - destruct (mounted s) eqn:Hm; [|reflexivity].
    now apply unmountEffect_trace, Hch.
  - destruct (mounted s) eqn:Hm; [|reflexivity]. cbn [andb].
    destruct (decide (msg_tabId m = tabIdRef cfg)) as [Hself|Hpeer].
    + rewrite handleMessage_self by exact Hself.
      now rewrite bool_decide_eq_false_2 by tauto.
    + rewrite bool_decide_eq_true_2 by exact Hpeer.
      apply handleMessage_posted; [now apply Hch|exact Hpeer].
  - unfold fireTimer. destruct (timers s !! id) as [[| |]|] eqn:Hlive;
      [| | |reflexivity].
    + apply sendMessage_posts. exact (live_timer_open s id _ Hown Hhost Hlive).
    + apply cleanupInactiveTabs_frames.
    + destruct (fire_leader_check_frames id s)
        as (-> & _ & _ & _ & _ & _ & _ & _ & _ & Hposted).
      exact Hposted.
  - destruct (mounted s) eqn:Hm; [|reflexivity].
    apply sendMessage_posts. now apply Hch.
Qed.

End LifeCycleInvariants.

(** ** When the callback is invoked *)

Section Notifications.

Context (cfg : Config).

(** One event either leaves the callbacks and the notifier's memory as they
    are, or ends with one run of [updateTabState] from a state that has
    them as they were. *)
Lemma step_shape (s : State) (ev : Event) :
  (callbacks (trace (step cfg s ev)) = callbacks (trace s)
   /\ (prevIsMultiTabRef (step cfg s ev), prevTabCountRef (step cfg s ev))
      = (prevIsMultiTabRef s, prevTabCountRef s))
  \/ exists now url s0,
       callbacks (trace s0) = callbacks (trace s)
       /\ (prevIsMultiTabRef s0, prevTabCountRef s0)
          = (prevIsMultiTabRef s, prevTabCountRef s)
       /\ callbacks (trace (step cfg s ev))
          = callbacks (trace (updateTabState cfg now url s0))
       /\ isLeaderRef (step cfg s ev)
          = isLeaderRef (updateTabState cfg now url s0).
Proof.
  destruct ev as [construct tReq tBeat tNow url|now url
                 |tSend tNow url m|id now now' url|now url]; cbn [step].
  - destruct (mounted s); [now left|].
    destruct (broadcastChannelDefined cfg) eqn:Hsup.
    + destruct construct;
        [|rewrite mountEffect_throws by exact Hsup; left;
          destruct (abandon_fields cfg s)
            as (_ & _ & _ & _ & _ & _ & Hprev & _ & _ & Hcb & _);
          split; assumption].
      rewrite mountEffect_supported by exact Hsup. right.
      exists tNow, url, (announce cfg tReq tBeat url s).
      destruct (announce_fields cfg tReq tBeat url s)
        as (_ & _ & _ & _ & Hprev & _ & Hcb & _).
      repeat split; assumption.
    + rewrite mountEffect_unsupported by exact Hsup. left. split; reflexivity.
  - destruct (mounted s); [|now left]. left.
    destruct (unmountEffect_fields cfg now url s)
      as (_ & _ & _ & _ & _ & Hprev & Hcb & _).
    split; assumption.
  - destruct (mounted s); [|now left].
    destruct (decide (msg_tabId m = tabIdRef cfg)) as [Hself|Hpeer].
    { rewrite handleMessage_self by exact Hself. now left. }
    rewrite handleMessage_cases by exact Hpeer. cbv zeta.
    destruct (msg_type m) eqn:Hty.
    + right. exists tNow, url, (upsertSender m (log cfg LReceived s)).
      split; [crush_state|]. split; [crush_state|]. split; reflexivity.
    + right.
      exists tNow, url,
        (set_activeTabsRef
           (delete (msg_tabId m) (activeTabsRef (log cfg LReceived s)))
           (log cfg LReceived s)).
      split; [crush_state|]. split; [crush_state|]. split; reflexivity.
    + right.
      exists tNow, url,
        (sendMessage cfg tSend url heartbeat
           (upsertSender m (log cfg LReceived s))).
      split; [crush_state|]. split; [crush_state|]. split; reflexivity.
    + left. unfold rearmLeaderCheck. split; crush_state.
    + left. split; crush_state.
  - unfold fireTimer. destruct (timers s !! id) as [[| |]|]; [| | |now left].
    + left. split; crush_state.
    + rewrite cleanupInactiveTabs_unfold.
      destruct (sweep cfg now s).2; [|now left].
      right. exists now', url, (sweep cfg now s).1.
      destruct (sweep_fields cfg now s) as (_ & _ & _ & _ & Hprev & _ & Htr).
      split; [now rewrite <- callbacks_withoutLogs, Htr,
                callbacks_withoutLogs|].
      split; [exact Hprev|]. split; reflexivity.
    + left. split; crush_state.
  - destruct (mounted s); [|now left]. left. unfold handleUnload.
    split; crush_state.
Qed.

Lemma notifies_differs (now : Z) (url : string) (s : State) :
  notifies cfg now url s = true ->
  (isMultiTab (updateTabState cfg now url s),
   tabCount (updateTabState cfg now url s))
  ≠ (prevIsMultiTabRef s, prevTabCountRef s)
  /\ isLeaderRef (updateTabState cfg now url s) = true
  /\ onMultiTabChange cfg = true.
Proof.
  pose proof (notifies_fires cfg now url s) as Hn. cbv zeta in Hn.
  rewrite Hn. intros Hfires.
  apply andb_true_iff in Hfires as [Hfires Hdiff].
  apply andb_true_iff in Hfires as [Hleader Hcb].
  apply bool_decide_eq_true in Hdiff.
  split; [congruence|]. split; assumption.
Qed.

Lemma step_silent (s : State) (ev : Event) :
  isLeaderRef (step cfg s ev) = false \/ onMultiTabChange cfg = false ->
  callbacks (trace (step cfg s ev)) = callbacks (trace s).
Proof.
  intros Hsilent.
  destruct (step_shape s ev)
    as [[Hquiet _]|(now & url & s0 & Hcb & _ & Hcalls & Hleader)];
    [exact Hquiet|].
  rewrite Hcalls, updateTabState_callbacks, <- Hcb.
  destruct (notifies cfg now url s0) eqn:Hfires; [|reflexivity].
  destruct (notifies_differs now url s0 Hfires) as (_ & Hl & Hreg).
  rewrite <- Hleader in Hl. destruct Hsilent; congruence.
Qed.

Lemma changesOnly_step (s : State) (ev : Event) :
  prevOk s ->
  changesOnly (callbacks (trace s)) ->
  changesOnly (callbacks (trace (step cfg s ev))).
Proof.
  intros Hprev Hchanges.
  destruct (step_shape s ev)
    as [[Hquiet _]|(now & url & s0 & Hcb & Hmem & Hcalls & _)];
    [now rewrite Hquiet|].
  rewrite Hcalls, updateTabState_callbacks.
  destruct (notifies cfg now url s0) eqn:Hfires;
    [|cbn [app]; now rewrite Hcb].
  destruct (notifies_differs now url s0 Hfires) as (Hdiff & _).
  rewrite updateTabState_isMultiTab, updateTabState_tabCount in Hdiff.
  cbn [app changesOnly]. rewrite Hcb. split; [|exact Hchanges].
  unfold prevOk, lastNotified in Hprev. rewrite Hmem, Hprev in Hdiff.
  destruct (callbacks (trace s)) as [|[[isMulti' count'] urls'] older];
    exact Hdiff.
Qed.

End Notifications.

(** ** The table and the exposed values *)

Section Table.

Context (cfg : Config).

Lemma refreshed_keyed (now : Z) (url : string)
    (table : gmap string TabInfo) :
  (forall id info, table !! id = Some info -> info_tabId info = id) ->
  forall id info,
    refreshed cfg now url table !! id = Some info -> info_tabId info = id.
Proof.
  intros Hkeyed id info. rewrite refreshed_lookup.
  destruct (bool_decide (id = tabIdRef cfg)) eqn:Hself.
  - apply bool_decide_eq_true in Hself. now intros [= <-].
  - destruct (table !! id) as [entry|] eqn:Hl; [|discriminate].
    destruct (bool_decide (now - lastHeartbeat entry
                           < inactivityThreshold cfg)); [|discriminate].
    intros [= <-]. now apply Hkeyed.
Qed.

Lemma tableOk_updateTabState (now : Z) (url : string) (s : State) :
  (forall id info, activeTabsRef s !! id = Some info -> info_tabId info = id) ->
  tableOk (updateTabState cfg now url s).
Proof.
  intros Hkeyed. unfold tableOk.
  rewrite updateTabState_table, updateTabState_activeTabUrls.
  split; [now apply refreshed_keyed|reflexivity].
Qed.

Lemma tableOk_frame (s s' : State) :
  activeTabsRef s' = activeTabsRef s ->
  activeTabUrls s' = activeTabUrls s ->
  recomputations (trace s') = recomputations (trace s) ->
  tableOk s -> tableOk s'.
Proof. unfold tableOk. intros -> -> ->. tauto. Qed.

Lemma tableOk_step (s : State) (ev : Event) :
  tableOk s -> tableOk (step cfg s ev).
Proof.
  intros Hs. pose proof Hs as [Hkeyed _].
  destruct ev as [construct tReq tBeat tNow url|now url
                 |tSend tNow url m|id now now' url|now url]; cbn [step].
  - destruct (mounted s); [exact Hs|].
    destruct (broadcastChannelDefined cfg) eqn:Hsup.
    + destruct construct;
        [|rewrite mountEffect_throws by exact Hsup;
          destruct (abandon_fields cfg s)
            as (_ & Htab & _ & _ & Hview & _ & _ & _ & _ & _ & Hrec);
          injection Hview as _ _ Hurls;
          revert Hs; now apply tableOk_frame].
      rewrite mountEffect_supported by exact Hsup.
      apply (tableOk_frame (updateTabState cfg tNow url
                              (announce cfg tReq tBeat url s)));
        [reflexivity..|].
      apply tableOk_updateTabState.
      destruct (announce_fields cfg tReq tBeat url s) as (_ & -> & _).
      exact Hkeyed.
    + rewrite mountEffect_unsupported by exact Hsup.
      revert Hs. apply tableOk_frame; reflexivity.
  - destruct (mounted s); [|exact Hs].
    destruct (unmountEffect_fields cfg now url s)
      as (_ & _ & _ & Htab & Hview & _ & _ & Hrec).
    injection Hview as _ _ _ Hurls.
    revert Hs. now apply tableOk_frame.
  - destruct (mounted s); [|exact Hs].
    destruct (decide (msg_tabId m = tabIdRef cfg)) as [Hself|Hpeer].
    { now rewrite handleMessage_self. }
    rewrite handleMessage_cases by exact Hpeer. cbv zeta.
    destruct (msg_type m).
    + apply tableOk_updateTabState. state_eval. intros id info.
      destruct (decide (msg_tabId m = id)) as [Heq|Hne].
      * subst id. rewrite lookup_insert_eq. now intros [= <-].
      * rewrite lookup_insert_ne by exact Hne. apply Hkeyed.
    + apply tableOk_updateTabState. state_eval. intros id info Hl.
      apply lookup_delete_Some in Hl as [_ Hl]. now apply Hkeyed.
    + apply tableOk_updateTabState. state_eval. intros id info.
      destruct (decide (msg_tabId m = id)) as [Heq|Hne].
      * subst id. rewrite lookup_insert_eq. now intros [= <-].
      * rewrite lookup_insert_ne by exact Hne. apply Hkeyed.
    + revert Hs. unfold rearmLeaderCheck. apply tableOk_frame; crush_state.
    + revert Hs. apply tableOk_frame; crush_state.
  - unfold fireTimer. destruct (timers s !! id) as [[| |]|]; [| | |exact Hs].
    + revert Hs. apply tableOk_frame; crush_state.
    + rewrite cleanupInactiveTabs_unfold.
      destruct (sweep cfg now s).2; [|exact Hs].
      apply tableOk_updateTabState. intros id' info. rewrite sweep_table.
      destruct (activeTabsRef s !! id') as [entry|] eqn:Hl; [|discriminate].
      destruct (inactive cfg now id' entry); [discriminate|].
      intros [= <-]. now apply Hkeyed.
    + revert Hs. apply tableOk_frame; crush_state.
  - destruct (mounted s); [|exact Hs].
    revert Hs. unfold handleUnload. apply tableOk_frame; crush_state.
Qed.

Lemma reachable_tableOk (s : State) : reachable cfg s -> tableOk s.
Proof.
  apply reachable_ind.
  - split.
    + intros id info Hl. unfold initialState in Hl. fields.
      now rewrite lookup_empty in Hl.
    + unfold initialState. fields. cbn. lia.
  - intros s' ev _. apply tableOk_step.
Qed.

Lemma recomputations_extends (s s' : State) :
  extends cfg s s' ->
  (recomputations (trace s) <= recomputations (trace s'))%nat.
Proof.
  intros (new & -> & _). rewrite recomputations_app. lia.
Qed.

Lemma mountedOk_step (s : State) (ev : Event) :
  reachable cfg s -> mountedOk s -> mountedOk (step cfg s ev).
Proof.
  intros Hreach Hs.
  pose proof (recomputations_extends _ _
                (step_extends cfg s ev (reachable_timersOwned cfg s Hreach)
                   (reachable_hostOk cfg s Hreach))) as Hmono.
  revert Hmono.
  destruct ev as [construct tReq tBeat tNow url|now url
                 |tSend tNow url m|id now now' url|now url]; cbn [step].
  - destruct (mounted s) eqn:Hm; [intros _; exact Hs|].
    destruct (broadcastChannelDefined cfg) eqn:Hsup.
    + destruct construct;
        [|rewrite mountEffect_throws by exact Hsup; intros _;
          unfold mountedOk, abandon; rewrite log_emits; fields;
          congruence].
      rewrite mountEffect_supported by exact Hsup. intros _ _.
      destruct (updateTabState_fields cfg tNow url
                  (announce cfg tReq tBeat url s))
        as (_ & _ & Hsupported & _ & _ & Hrec & _).
      destruct (announce_host cfg tReq tBeat url s)
        as (_ & _ & _ & _ & _ & _ & _ & Hset & _).
      fields. rewrite Hrec, Hsupported, Hset. split; [lia|reflexivity].
    + rewrite mountEffect_unsupported by exact Hsup. intros _.
      unfold mountedOk. fields. congruence.
  - destruct (mounted s) eqn:Hm; [|intros _; exact Hs]. intros _.
    unfold mountedOk.
    destruct (unmountEffect_fields cfg now url s) as (-> & _). discriminate.
  - destruct (mounted s) eqn:Hm; [|intros _; exact Hs]. intros Hmono Hm'.
    destruct (Hs Hm) as [Hran Hsupported]. split; [lia|].
    destruct (decide (msg_tabId m = tabIdRef cfg)) as [Hself|Hpeer].
    { now rewrite handleMessage_self. }
    rewrite handleMessage_cases by exact Hpeer. cbv zeta.
    destruct (msg_type m); unfold rearmLeaderCheck; state_eval;
      exact Hsupported.
  - unfold fireTimer.
    destruct (timers s !! id) as [[| |]|] eqn:Hlive; [| | |intros _; exact Hs].
    + intros Hmono. unfold mountedOk. state_eval. intros Hm.
      destruct (Hs Hm) as [Hran Hsupported]. split; [lia|exact Hsupported].
    + intros Hmono. unfold mountedOk.
      destruct (cleanupInactiveTabs_frames cfg now now' url s)
        as ((_ & _ & Hm & _) & _).
      rewrite Hm. intros Hmounted.
      destruct (Hs Hmounted) as [Hran Hsupported]. split; [lia|].
      rewrite cleanupInactiveTabs_unfold.
      destruct (sweep cfg now s).2; [|exact Hsupported].
      destruct (updateTabState_fields cfg now' url (sweep cfg now s).1)
        as (_ & _ & -> & _).
      destruct (sweep_fields cfg now s) as (_ & _ & Hview & _).
      injection Hview as -> _ _ _. exact Hsupported.
    + intros Hmono. unfold mountedOk. state_eval. intros Hm.
      destruct (Hs Hm) as [Hran Hsupported]. split; [lia|exact Hsupported].
  - destruct (mounted s) eqn:Hm; [|intros _; exact Hs]. intros Hmono.
    unfold mountedOk, handleUnload in *. state_eval. intros _.
    destruct (Hs Hm) as [Hran Hsupported]. split; [lia|exact Hsupported].
Qed.

Lemma reachable_mountedOk (s : State) : reachable cfg s -> mountedOk s.
Proof.
  intros Hreach. pattern s. revert s Hreach. apply reachable_ind.
  - discriminate.
  - intros s ev Hreach. now apply mountedOk_step.
Qed.

End Table.

(** ** Starting and stopping *)



(** X2. The cleanup function, run in a state the instance can be in with
    its effect installed: posts [tab-closed] once, leaves no live timer,
    closes the channel and removes the listeners; the table and the exposed
    values stay as they were.  From then on the instance is quiescent:
    every event other than a new run of the effect leaves the state
    untouched. *)
Theorem teardown_quiesces (cfg : Config) (s : State)
    (now : Z) (url : string) :
  reachable cfg s ->
  mounted s = true ->
  let s' := step cfg s (EvUnmount now url) in
  posted (trace s') = ownMessage cfg tab_closed now url :: posted (trace s)
  /\ timers s' = ∅
  /\ channelRef s' = Some ChannelClosed
  /\ mounted s' = false
  /\ sameView s s'
  /\ (forall ev,
        (forall construct tReq tBeat tNow url',
            ev ≠ EvMount construct tReq tBeat tNow url') ->
        step cfg s' ev = s').
Proof.
  intros Hreach Hm s'.
  assert (s' = unmountEffect cfg now url s) as ->
      by (unfold s'; cbn [step]; now rewrite Hm).
  pose proof (reachable_timersOwned cfg s Hreach) as Hown.
  destruct (reachable_hostOk cfg s Hreach) as [_ Hch].
  specialize (Hch Hm).
  destruct (unmountEffect_trace cfg now url s Hch) as [Hposted _].
  destruct (unmountEffect_host cfg now url s)
    as (_ & _ & Hunmounted & Hclosed & Hview).
  pose proof (unmountEffect_no_timer cfg now url s Hown) as Hnone.
  rewrite Hch in Hclosed.
  repeat split; try assumption; try apply Hview.
  intros ev Hnot_mount.
  destruct ev as [construct tReq tBeat tNow url'|now' url'
                 |tSend tNow url' m|id now' now'' url'|now' url']; cbn [step].
  - now destruct (Hnot_mount construct tReq tBeat tNow url').
  - now rewrite Hunmounted.
  - now rewrite Hunmounted.
  - unfold fireTimer. now rewrite Hnone, lookup_empty.
  - now rewrite Hunmounted.
Qed.

Lemma teardown_quiesces_witness :
  let s' :=
    step (defaultConfig "a-100") withPeerB (EvUnmount 20 "urlA"%string) in
  timers s' = ∅
  /\ step (defaultConfig "a-100") s'
       (EvMessage 30 30 "urlA"%string (heartbeatFrom "c-300" 29))
     = s'.
Proof.
  assert (mounted withPeerB = true) as Hm by (vm_compute; reflexivity).
  destruct (teardown_quiesces (defaultConfig "a-100") withPeerB 20 "urlA"
              reachable_withPeerB Hm)
    as (_ & Hnone & _ & _ & _ & Hquiet).
  cbv zeta. split; [exact Hnone|]. apply Hquiet. discriminate.
Defined.

(** ** What an instance publishes and prints *)

Section TraceReaders.

Context (cfg : Config).

Lemma posted_effectOk (tr : list Effect) :
  Forall (effectOk cfg) tr ->
  Forall (fun m => effectOk cfg (EPostMessage m)) (posted tr).
Proof.
  induction 1 as [|e tr He _ IH]; [constructor|].
  destruct e; cbn [posted]; try exact IH. now constructor.
Qed.

Lemma callbacks_effectOk (tr : list Effect) :
  Forall (effectOk cfg) tr ->
  Forall (fun c => effectOk cfg (ECallback c.1.1 c.1.2 c.2)) (callbacks tr).
Proof.
  induction 1 as [|e tr He _ IH]; [constructor|].
  destruct e; cbn [callbacks]; try exact IH. now constructor.
Qed.

Lemma reachable_aloneB : reachable (defaultConfig "b-200") aloneB.
Proof. exists [EvMount Constructed 3 3 3 "urlB"%string]. reflexivity. Defined.

Lemma reachable_peerCameAndWent :
  reachable (defaultConfig "a-100") peerCameAndWent.
Proof.
  exists [EvMount Constructed 0 0 0 "urlA"%string;
          EvMessage 5 5 "urlA"%string (heartbeatFrom "b-200" 4);
          EvMessage 9 9 "urlA"%string
            (mkTabMessage tab_closed "b-200" 8 None)].
  reflexivity.
Defined.

End TraceReaders.

(** X3. What each host event makes the instance post, in every state the
    instance can be in: the effect posts [request-active-tabs] then
    [heartbeat] when the constructor of the channel returns, and nothing
    when it throws or when the host has no [BroadcastChannel]; the cleanup
    function and [beforeunload] post one [tab-closed]; a peer's
    [request-active-tabs] or [request-leader] is answered by one
    [heartbeat]; a tick of the heartbeat interval posts one [heartbeat];
    everything else (a peer's [heartbeat] or [tab-closed], an own or
    unknown message, the sweep, the leadership re-check, any event while
    no effect is installed) posts nothing. *)
Theorem event_publishes (cfg : Config) (s : State) (ev : Event) :
  reachable cfg s ->
  posted (trace (step cfg s ev)) = publishedBy cfg s ev ++ posted (trace s).
Proof.
  intros Hreach. apply step_posted.
  - now apply (reachable_timersOwned cfg).
  - now apply (reachable_hostOk cfg).
Qed.

Lemma event_publishes_witness :
  posted (trace (step (defaultConfig "a-100") withPeerB
                   (EvTimer 1 10000 10000 "urlA"%string)))
  = ownMessage (defaultConfig "a-100") heartbeat 10000 "urlA"
    :: posted (trace withPeerB).
Proof.
  exact (event_publishes (defaultConfig "a-100") withPeerB
           (EvTimer 1 10000 10000 "urlA"%string) reachable_withPeerB).
Defined.

(** X4. Every message an instance ever posts carries the instance's own
    id and a url, and is a [heartbeat], a [tab-closed] or a
    [request-active-tabs]: no instance ever posts [request-leader]. *)
Theorem posted_messages_are_own (cfg : Config) (s : State) :
  reachable cfg s ->
  Forall (fun m =>
            msg_tabId m = tabIdRef cfg
            /\ is_Some (msg_url m)
            /\ (msg_type m = heartbeat \/ msg_type m = tab_closed
                \/ msg_type m = request_active_tabs))
         (posted (trace s)).
Proof.
  intros Hreach.
  exact (posted_effectOk cfg (trace s) (reachable_trace_ok cfg s Hreach)).
Qed.

Lemma posted_messages_are_own_witness :
  Forall (fun m =>
            msg_tabId m = "a-100"%string
            /\ is_Some (msg_url m)
            /\ (msg_type m = heartbeat \/ msg_type m = tab_closed
                \/ msg_type m = request_active_tabs))
         (posted (trace (run (defaultConfig "a-100") leaderRequests
                           withPeerB))).
Proof.
  apply (posted_messages_are_own (defaultConfig "a-100")).
  apply reachable_run. exact reachable_withPeerB.
Defined.

(** X5. Every invocation of [onMultiTabChange], in any run: a callback was
    supplied; the flag passed is [count > 1]; the count passed is the size
    of the url map passed, which has the own id among its keys (so the
    count is at least 1). *)
Theorem callbacks_are_consistent (cfg : Config) (s : State) :
  reachable cfg s ->
  Forall (fun c : bool * nat * gmap string string =>
            onMultiTabChange cfg = true
            /\ c.1.1 = bool_decide (1 < c.1.2)%nat
            /\ c.1.2 = size c.2
            /\ tabIdRef cfg ∈ dom c.2
            /\ (1 <= c.1.2)%nat)
         (callbacks (trace s)).
Proof.
  intros Hreach.
  pose proof (callbacks_effectOk cfg (trace s)
                (reachable_trace_ok cfg s Hreach)) as Hok.
  eapply Forall_impl; [exact Hok|].
  intros [[isMulti count] urls]. cbn [effectOk fst snd].
  intros (Hcb & Hflag & Hcount & Hself).
  repeat split; try assumption.
  subst count. rewrite <- size_dom.
  destruct (decide (size (dom urls) = 0%nat)) as [Hzero|Hpos]; [|lia].
  apply size_empty_inv in Hzero. apply leibniz_equiv in Hzero.
  rewrite Hzero in Hself. now apply not_elem_of_empty in Hself.
Qed.

Lemma callbacks_are_consistent_witness :
  Forall (fun c : bool * nat * gmap string string =>
            c.1.1 = bool_decide (1 < c.1.2)%nat
            /\ c.1.2 = size c.2)
         (callbacks (trace peerCameAndWent)).
Proof.
  eapply Forall_impl;
    [exact (callbacks_are_consistent (defaultConfig "a-100") peerCameAndWent
              reachable_peerCameAndWent)|].
  intros c (_ & Hflag & Hcount & _). now split.
Defined.

(** X6. The console, in any run, whether or not the constructor of the
    channel threw in some run of the effect: [sendMessage] never posts on
    a channel the instance has closed, so the [catch] of [sendMessage]
    never prints; debug lines appear only when [debug] is set; the warning
    appears only on a host without [BroadcastChannel]; the error of the
    effect's [catch] appears only on a host with it, and
    [setIsSupported(true)] is only ever called on such a host (the calls
    with [false] come from the host test or from the [catch]). *)
Theorem console_discipline (cfg : Config) (s : State) :
  reachable cfg s ->
  (EConsoleError ∉ trace s)
  /\ (forall site, ELog site ∈ trace s -> debug cfg = true)
  /\ (EConsoleWarn ∈ trace s -> broadcastChannelDefined cfg = false)
  /\ (EConsoleErrorInit ∈ trace s -> broadcastChannelDefined cfg = true)
  /\ (ESetIsSupported true ∈ trace s -> broadcastChannelDefined cfg = true).
Proof.
  intros Hreach.
  pose proof (reachable_trace_ok cfg s Hreach) as Hok.
  rewrite Forall_forall in Hok.
  repeat split.
  - intros Hin. exact (Hok _ Hin).
  - intros site Hin. exact (Hok _ Hin).
  - intros Hin. exact (Hok _ Hin).
  - intros Hin. exact (Hok _ Hin).
  - intros Hin. exact (Hok _ Hin eq_refl).
Qed.

Lemma console_discipline_witness :
  let s :=
    run (defaultConfig "a-100")
      [EvMount ConstructorThrows 0 0 0 "urlA"%string;
       EvMount Constructed 1 1 1 "urlA"%string;
       EvUnmount 20 "urlA"%string]
      initialState in
  EConsoleErrorInit ∈ trace s /\ EConsoleError ∉ trace s.
Proof.
  cbv zeta. split.
  { apply list_elem_of_In. vm_compute. tauto. }
  apply (console_discipline (defaultConfig "a-100")).
  eexists. reflexivity.
Defined.

(** ** The callback over a whole run *)

(** X7. An event after which the instance is a follower, or any event of
    an instance without a callback, invokes no callback, whatever the
    event did to the table and the count. *)
Theorem follower_never_notifies (cfg : Config) (s : State) (ev : Event) :
  isLeaderRef (step cfg s ev) = false \/ onMultiTabChange cfg = false ->
  callbacks (trace (step cfg s ev)) = callbacks (trace s).
Proof. apply step_silent. Qed.

Lemma follower_never_notifies_witness :
  let ev := EvMessage 5 5 "urlB"%string (heartbeatFrom "a-100" 4) in
  tabCount (step (defaultConfig "b-200") aloneB ev) = 2%nat
  /\ callbacks (trace (step (defaultConfig "b-200") aloneB ev))
     = callbacks (trace aloneB).
Proof.
  cbv zeta. split; [vm_compute; reflexivity|].
  apply (follower_never_notifies (defaultConfig "b-200")).
  left. vm_compute. reflexivity.
Defined.

(** X8. In any run, two consecutive invocations of the callback never
    carry the same [(isMultiTab, tabCount)] pair, and the first invocation
    never carries [(false, 1)]: the callback reports changes only. *)
Theorem callback_reports_changes_only (cfg : Config) (s : State) :
  reachable cfg s -> changesOnly (callbacks (trace s)).
Proof.
  apply (reachable_ind cfg (fun s => changesOnly (callbacks (trace s)))).
  - exact I.
  - intros s' ev Hreach IH. apply changesOnly_step; [|exact IH].
    now apply (reachable_prevOk cfg).
Qed.

Lemma callback_reports_changes_only_witness :
  changesOnly (callbacks (trace peerCameAndWent))
  /\ length (callbacks (trace peerCameAndWent)) = 2%nat.
Proof.
  split; [|vm_compute; reflexivity].
  exact (callback_reports_changes_only (defaultConfig "a-100")
           peerCameAndWent reachable_peerCameAndWent).
Defined.

(** ** The recomputation *)

Section RecomputeTwice.

Context (cfg : Config).

Lemma refreshed_idem (now : Z) (url : string) (table : gmap string TabInfo) :
  refreshed cfg now url (refreshed cfg now url table)
  = refreshed cfg now url table.
Proof.
  apply map_eq. intros id. rewrite !refreshed_lookup.
  destruct (bool_decide (id = tabIdRef cfg)); [reflexivity|].
  destruct (table !! id) as [info|]; [|reflexivity].
  destruct (bool_decide (now - lastHeartbeat info < inactivityThreshold cfg))
    eqn:Hfresh; [|reflexivity].
  now rewrite Hfresh.
Qed.

Lemma freshPeers_lookup (now : Z) (table : gmap string TabInfo)
    (id : string) :
  freshPeers cfg now table !! id
  = delete (tabIdRef cfg) (filter (recent cfg now) table) !! id.
Proof.
  unfold freshPeers.
  destruct (decide (id = tabIdRef cfg)) as [->|Hne].
  - rewrite lookup_delete_eq. apply map_lookup_filter_None_2.
    right. intros info _ [Habs _]. now apply Habs.
  - rewrite lookup_delete_ne by (intros Heq; now apply Hne).
    rewrite !map_lookup_filter.
    destruct (table !! id) as [info|]; [|reflexivity]. cbn.
    destruct (decide (recent cfg now (id, info))) as [Hr|Hr].
    + rewrite !option_guard_True; [reflexivity|exact Hr|now split].
    + rewrite !option_guard_False; [reflexivity|exact Hr|tauto].
Qed.

Lemma refreshed_size (now : Z) (url : string) (table : gmap string TabInfo) :
  size (refreshed cfg now url table) = S (size (freshPeers cfg now table)).
Proof.
  assert (freshPeers cfg now table
          = delete (tabIdRef cfg) (filter (recent cfg now) table)) as ->
      by (apply map_eq; intros id; apply freshPeers_lookup).
  unfold refreshed. rewrite <- insert_delete_eq.
  apply map_size_insert_None, lookup_delete_eq.
Qed.

Lemma step_table_shape (s : State) (ev : Event) :
  activeTabsRef (step cfg s ev) = activeTabsRef s
  \/ exists now url table,
       activeTabsRef (step cfg s ev) = refreshed cfg now url table.
Proof.
  destruct ev as [construct tReq tBeat tNow url|now url
                 |tSend tNow url m|id now now' url|now url]; cbn [step].
  - destruct (mounted s); [now left|].
    destruct (broadcastChannelDefined cfg) eqn:Hsup.
    + destruct construct;
        [|rewrite mountEffect_throws by exact Hsup; left;
          now destruct (abandon_fields cfg s) as (_ & Htab & _)].
      rewrite mountEffect_supported by exact Hsup. right.
      exists tNow, url, (activeTabsRef (announce cfg tReq tBeat url s)).
      fields. apply updateTabState_table.
    + rewrite mountEffect_unsupported by exact Hsup. now left.
  - destruct (mounted s); [|now left].
    destruct (unmountEffect_fields cfg now url s) as (_ & _ & _ & Htab & _).
    now left.
  - destruct (mounted s); [|now left].
    destruct (decide (msg_tabId m = tabIdRef cfg)) as [Hself|Hpeer].
    { rewrite handleMessage_self by exact Hself. now left. }
    rewrite handleMessage_cases by exact Hpeer. cbv zeta.
    destruct (msg_type m);
      try (right; eexists _, _, _; apply updateTabState_table).
    + left. unfold rearmLeaderCheck. crush_state.
    + left. crush_state.
  - unfold fireTimer. destruct (timers s !! id) as [[| |]|]; [| | |now left].
    + left. crush_state.
    + rewrite cleanupInactiveTabs_unfold.
      destruct (sweep cfg now s).2; [|now left].
      right. eexists _, _, _. apply updateTabState_table.
    + left. crush_state.
  - destruct (mounted s); [|now left].
    left. unfold handleUnload. crush_state.
Qed.

Lemma freshOk_refreshed (now : Z) (url : string) (table : gmap string TabInfo)
    (s : State) :
  activeTabsRef s = refreshed cfg now url table -> freshOk cfg s.
Proof.
  intros Htab own id info. rewrite Htab, !refreshed_lookup.
  rewrite bool_decide_eq_true_2 by reflexivity.
  intros [= <-] Hpeer. rewrite bool_decide_eq_false_2 by exact Hpeer.
  destruct (table !! id) as [entry|]; [|discriminate].
  destruct (bool_decide (now - lastHeartbeat entry < inactivityThreshold cfg))
    eqn:Hfresh; [|discriminate].
  intros [= <-]. now apply bool_decide_eq_true in Hfresh.
Qed.

Lemma reachable_freshOk (s : State) : reachable cfg s -> freshOk cfg s.
Proof.
  apply reachable_ind.
  - intros own id info Hown. unfold initialState in Hown. fields.
    now rewrite lookup_empty in Hown.
  - intros s' ev _ IH.
    destruct (step_table_shape s' ev) as [Hsame|(now & url & table & Hnew)].
    + unfold freshOk. rewrite Hsame. exact IH.
    + now apply (freshOk_refreshed now url table).
Qed.

End RecomputeTwice.

(** X9. [updateTabState] run twice in a row with the same clock value and
    url: the second run leaves the table, the exposed values, the
    leadership flag and the notifier's memory as the first left them, and
    invokes no callback. *)
Theorem updateTabState_idempotent (cfg : Config) (now : Z) (url : string)
    (s : State) :
  let s1 := updateTabState cfg now url s in
  let s2 := updateTabState cfg now url s1 in
  sameView s1 s2 /\ callbacks (trace s2) = callbacks (trace s1).
Proof.
  intros s1 s2.
  assert (activeTabsRef s2 = activeTabsRef s1) as Htab.
  { unfold s2, s1. rewrite !updateTabState_table. apply refreshed_idem. }
  assert (isLeaderRef s2 = isLeaderRef s1) as Hleader.
  { destruct (updateTabState_fields cfg now url s1)
      as (_ & _ & _ & _ & _ & _ & Hl2).
    destruct (updateTabState_fields cfg now url s)
      as (_ & _ & _ & _ & _ & _ & Hl1).
    fold s2 in Hl2. fold s1 in Hl1. rewrite Hl2, Hl1. f_equal.
    unfold s1. rewrite updateTabState_table. apply refreshed_idem. }
  assert (tabCount s2 = tabCount s1) as Hcount.
  { unfold s2. rewrite updateTabState_tabCount.
    rewrite <- (updateTabState_table cfg now url s1). fold s2.
    rewrite Htab. unfold s1.
    now rewrite updateTabState_table, updateTabState_tabCount. }
  assert (isMultiTab s2 = isMultiTab s1) as Hmulti.
  { unfold s2. rewrite updateTabState_isMultiTab.
    rewrite <- (updateTabState_table cfg now url s1). fold s2.
    rewrite Htab. unfold s1.
    now rewrite updateTabState_table, updateTabState_isMultiTab. }
  assert (activeTabUrls s2 = activeTabUrls s1) as Hurls.
  { unfold s2. rewrite updateTabState_activeTabUrls.
    rewrite <- (updateTabState_table cfg now url s1). fold s2.
    rewrite Htab. unfold s1.
    now rewrite updateTabState_table, updateTabState_activeTabUrls. }
  assert (notifies cfg now url s1 = false) as Hquiet.
  { rewrite notifies_fires. fold s2. rewrite Hleader, Hmulti, Hcount.
    pose proof (updateTabState_prev cfg now url s) as Hprev.
    pose proof (notifies_fires cfg now url s) as Hfires.
    cbv zeta in Hfires. fold s1 in Hprev, Hfires.
    rewrite <- updateTabState_isMultiTab, <- updateTabState_tabCount in Hprev.
    fold s1 in Hprev. rewrite Hprev.
    destruct (notifies cfg now url s).
    - rewrite (bool_decide_eq_false_2 (_ ≠ _)) by (intros Hne; now apply Hne).
      apply andb_false_r.
    - symmetry. exact Hfires. }
  assert ((prevIsMultiTabRef s2, prevTabCountRef s2)
          = (prevIsMultiTabRef s1, prevTabCountRef s1)) as Hprev.
  { unfold s2. rewrite updateTabState_prev. now rewrite Hquiet. }
  injection Hprev as Hp1 Hp2.
  destruct (updateTabState_fields cfg now url s1) as (_ & _ & Hsup & _).
  split.
  - repeat split; assumption.
  - unfold s2. rewrite updateTabState_callbacks. now rewrite Hquiet.
Qed.

(** X10. What [updateTabState] makes of any table: the own entry is
    rewritten with the clock value and the url just read; for every other
    id the entry is kept untouched when [now - lastHeartbeat <
    inactivityThreshold] and dropped otherwise (nothing is added);
    [tabCount] becomes one plus the number of fresh peer entries, and
    [isMultiTab] tells whether there is one. *)
Theorem updateTabState_counts_fresh_peers (cfg : Config) (now : Z)
    (url : string) (s : State) :
  let s' := updateTabState cfg now url s in
  activeTabsRef s' !! tabIdRef cfg
  = Some (mkTabInfo (tabIdRef cfg) now url)
  /\ (forall id,
        id ≠ tabIdRef cfg ->
        activeTabsRef s' !! id = freshPeers cfg now (activeTabsRef s) !! id)
  /\ (forall id info,
        freshPeers cfg now (activeTabsRef s) !! id = Some info
        <-> id ≠ tabIdRef cfg
            /\ activeTabsRef s !! id = Some info
            /\ now - lastHeartbeat info < inactivityThreshold cfg)
  /\ tabCount s' = S (size (freshPeers cfg now (activeTabsRef s)))
  /\ isMultiTab s'
     = bool_decide (freshPeers cfg now (activeTabsRef s) ≠ ∅)
  /\ activeTabUrls s' !! tabIdRef cfg = Some url.
Proof.
  intros s'. unfold s'.
  rewrite updateTabState_table, updateTabState_tabCount,
    updateTabState_isMultiTab, updateTabState_activeTabUrls.
  rewrite refreshed_size.
  split; [|split; [|split; [|split; [|split]]]].
  - apply refreshed_lookup_self.
  - intros id Hpeer. rewrite freshPeers_lookup.
    rewrite lookup_delete_ne by (intros Heq; now apply Hpeer).
    unfold refreshed. now rewrite lookup_insert_ne
      by (intros Heq; now apply Hpeer).
  - intros id info. unfold freshPeers. rewrite map_lookup_filter_Some.
    unfold recent. cbn [fst snd]. tauto.
  - reflexivity.
  - apply bool_decide_ext. rewrite <- map_size_non_empty_iff. lia.
  - rewrite lookup_fmap, refreshed_lookup_self. reflexivity.
Qed.

(** X11. In every state an instance can be in, each peer entry of the
    table is fresh with respect to the own entry: the own entry's stamp
    (the clock of the last run of [updateTabState]) minus the peer's
    [lastHeartbeat] is below [inactivityThreshold]. *)
Theorem peers_fresh_at_last_recomputation (cfg : Config) (s : State)
    (own info : TabInfo) (id : string) :
  reachable cfg s ->
  activeTabsRef s !! tabIdRef cfg = Some own ->
  id ≠ tabIdRef cfg ->
  activeTabsRef s !! id = Some info ->
  lastHeartbeat own - lastHeartbeat info < inactivityThreshold cfg.
Proof.
  intros Hreach. now apply (reachable_freshOk cfg).
Qed.

Lemma peers_fresh_at_last_recomputation_witness :
  5 - 4 < inactivityThreshold (defaultConfig "a-100").
Proof.
  apply (peers_fresh_at_last_recomputation (defaultConfig "a-100") withPeerB
           (mkTabInfo "a-100" 5 "urlA")
           (mkTabInfo "b-200" 4 "urlOfPeer") "b-200" reachable_withPeerB).
  - vm_compute. reflexivity.
  - discriminate.
  - vm_compute. reflexivity.
Defined.

(** ** Messages and the table *)

Lemma log_posted (cfg : Config) (site : LogSite) (s : State) :
  posted (trace (log cfg site s)) = posted (trace s).
Proof.
  rewrite log_emits. fields. trace_simpl. now destruct (debug cfg).
Qed.

(** X12. A [tab-closed] message from a peer, handled in a state the
    instance can be in with its effect installed: the sender has no entry
    afterwards, the exposed count is the size of the new table, and when
    the sender had an entry the count has strictly decreased; nothing is
    posted. *)
Theorem tab_closed_removes_sender (cfg : Config) (tSend tNow : Z)
    (url : string) (message : TabMessage) (s : State) :
  reachable cfg s ->
  mounted s = true ->
  msg_type message = tab_closed ->
  msg_tabId message ≠ tabIdRef cfg ->
  let s' := step cfg s (EvMessage tSend tNow url message) in
  activeTabsRef s' !! msg_tabId message = None
  /\ tabCount s' = size (activeTabsRef s')
  /\ (is_Some (activeTabsRef s !! msg_tabId message) ->
      (tabCount s' < tabCount s)%nat)
  /\ posted (trace s') = posted (trace s).
Proof.
  intros Hreach Hm Hty Hpeer s'.
  assert (s' = updateTabState cfg tNow url
                 (set_activeTabsRef
                    (delete (msg_tabId message)
                       (activeTabsRef (log cfg LReceived s)))
                    (log cfg LReceived s))) as ->.
  { unfold s'. cbn [step]. rewrite Hm. now apply handleMessage_tab_closed. }
  destruct (reachable_mountedOk cfg s Hreach Hm) as [Hran _].
  destruct (reachable_countOk cfg s Hreach) as (_ & _ & Hcount).
  destruct (Hcount Hran) as [Hself Hsize].
  rewrite updateTabState_table, updateTabState_tabCount.
  destruct (updateTabState_fields cfg tNow url
              (set_activeTabsRef
                 (delete (msg_tabId message)
                    (activeTabsRef (log cfg LReceived s)))
                 (log cfg LReceived s)))
    as (_ & _ & _ & _ & -> & _).
  destruct (log_frames cfg LReceived s) as (_ & (Htab & _) & _).
  fields. rewrite Htab, log_posted.
  split; [|split; [|split]].
  - rewrite refreshed_lookup.
    rewrite bool_decide_eq_false_2 by exact Hpeer.
    now rewrite lookup_delete_eq.
  - reflexivity.
  - intros Hknown. rewrite Hsize, <- !size_dom.
    apply subset_size. split.
    + etrans.
      * apply refreshed_dom_subseteq. rewrite dom_delete_L.
        apply elem_of_difference. split; [exact Hself|].
        intros Heq. apply elem_of_singleton in Heq. now apply Hpeer.
      * rewrite dom_delete_L. apply subseteq_difference_l. reflexivity.
    + intros Hsub. apply elem_of_dom in Hknown. apply Hsub in Hknown.
      apply elem_of_dom in Hknown as [info Hl].
      rewrite refreshed_lookup in Hl.
      rewrite bool_decide_eq_false_2 in Hl by exact Hpeer.
      now rewrite lookup_delete_eq in Hl.
  - reflexivity.
Qed.

Lemma tab_closed_removes_sender_witness :
  let s' :=
    step (defaultConfig "a-100") withPeerB
      (EvMessage 9 9 "urlA"%string
         (mkTabMessage tab_closed "b-200" 8 None)) in
  activeTabsRef s' !! "b-200"%string = None
  /\ (tabCount s' < tabCount withPeerB)%nat.
Proof.
  assert (mounted withPeerB = true) as Hm by (vm_compute; reflexivity).
  assert ("b-200"%string ≠ "a-100"%string) as Hpeer by discriminate.
  destruct (tab_closed_removes_sender (defaultConfig "a-100") 9 9 "urlA"
              (mkTabMessage tab_closed "b-200" 8 None) withPeerB
              reachable_withPeerB Hm eq_refl Hpeer)
    as (Hgone & _ & Hless & _).
  cbv zeta. split; [exact Hgone|]. apply Hless.
  vm_compute. eexists. reflexivity.
Defined.

(** X13. No message can touch the own entry: a message carrying the own
    id is ignored whatever its type (the state is left as it was), and
    after a message from anybody else an own entry that was present is
    still present, still with the own id. *)
Theorem own_entry_survives_messages (cfg : Config) (tSend tNow : Z)
    (url : string) (message : TabMessage) (s : State) (own : TabInfo) :
  activeTabsRef s !! tabIdRef cfg = Some own ->
  info_tabId own = tabIdRef cfg ->
  let s' := handleMessage cfg tSend tNow url message s in
  (msg_tabId message = tabIdRef cfg -> s' = s)
  /\ exists own',
       activeTabsRef s' !! tabIdRef cfg = Some own'
       /\ info_tabId own' = tabIdRef cfg
       /\ (own' = own \/ own' = mkTabInfo (tabIdRef cfg) tNow url).
Proof.
  intros Hown Hid s'. split.
  { intros Hself. now apply handleMessage_self. }
  destruct (decide (msg_tabId message = tabIdRef cfg)) as [Hself|Hpeer].
  { unfold s'. rewrite handleMessage_self by exact Hself.
    exists own. auto. }
  unfold s'. rewrite handleMessage_cases by exact Hpeer. cbv zeta.
  destruct (msg_type message);
    try (rewrite updateTabState_table, refreshed_lookup_self;
         eexists; split; [reflexivity|split; [reflexivity|now right]]).
  - exists own. unfold rearmLeaderCheck.
    split; [|auto]. rewrite <- Hown. crush_state.
  - exists own. split; [|auto]. rewrite <- Hown. crush_state.
Qed.

Lemma own_entry_survives_messages_witness :
  handleMessage (defaultConfig "a-100") 9 9 "urlA"
    (mkTabMessage tab_closed "a-100" 8 None) withPeerB
  = withPeerB.
Proof.
  assert (activeTabsRef withPeerB !! "a-100"%string
          = Some (mkTabInfo "a-100" 5 "urlA")) as Hown
      by (vm_compute; reflexivity).
  destruct (own_entry_survives_messages (defaultConfig "a-100") 9 9 "urlA"
              (mkTabMessage tab_closed "a-100" 8 None) withPeerB
              (mkTabInfo "a-100" 5 "urlA") Hown eq_refl)
    as [Hignored _].
  apply Hignored. reflexivity.
Defined.

(** X14. In every state an instance can be in, each entry of the table is
    stored under the id it carries, and once [updateTabState] has run the
    exposed url map is the table's: same ids, each with its entry's
    url. *)
Theorem table_entries_keyed_by_id (cfg : Config) (s : State) :
  reachable cfg s ->
  (forall id info, activeTabsRef s !! id = Some info -> info_tabId info = id)
  /\ ((0 < recomputations (trace s))%nat ->
      dom (activeTabUrls s) = dom (activeTabsRef s)
      /\ forall id, activeTabUrls s !! id = info_url <$> activeTabsRef s !! id).
Proof.
  intros Hreach. destruct (reachable_tableOk cfg s Hreach) as [Hkeyed Hurls].
  split; [exact Hkeyed|].
  intros Hran. rewrite (Hurls Hran). split.
  - apply dom_fmap_L.
  - intros id. apply lookup_fmap.
Qed.

Lemma table_entries_keyed_by_id_witness :
  activeTabUrls withPeerB !! "b-200"%string = Some "urlOfPeer"%string.
Proof.
  destruct (table_entries_keyed_by_id (defaultConfig "a-100") withPeerB
              reachable_withPeerB) as [_ Hurls].
  assert (0 < recomputations (trace withPeerB))%nat as Hran
      by (vm_compute; lia).
  destruct (Hurls Hran) as [_ Hlookup].
  rewrite Hlookup. vm_compute. reflexivity.
Defined.

(** ** Timers and the unload listener *)

(** X15. The leadership re-check armed by [request-leader], when its
    timeout fires: [isLeaderRef] becomes whether the own id is the least
    of the table's ids and the own id; the timeout is no longer live, so
    firing the same id again does nothing; the table, the exposed values
    and the notifier's memory are untouched, nothing is posted, no callback
    is invoked and [updateTabState] is not run. *)
Theorem leader_check_fires_once (cfg : Config) (s : State) (id : positive)
    (now now' : Z) (url : string) :
  timers s !! id = Some LeaderElectionTimeout ->
  let s' := step cfg s (EvTimer id now now' url) in
  isLeaderRef s' = shouldBeLeader cfg (activeTabsRef s)
  /\ timers s' = delete id (timers s)
  /\ activeTabsRef s' = activeTabsRef s
  /\ (isSupported s', isMultiTab s', tabCount s', activeTabUrls s')
     = (isSupported s, isMultiTab s, tabCount s, activeTabUrls s)
  /\ (prevIsMultiTabRef s', prevTabCountRef s')
     = (prevIsMultiTabRef s, prevTabCountRef s)
  /\ posted (trace s') = posted (trace s)
  /\ callbacks (trace s') = callbacks (trace s)
  /\ recomputations (trace s') = recomputations (trace s)
  /\ forall t t' url', step cfg s' (EvTimer id t t' url') = s'.
Proof.
  intros Hlive s'.
  assert (s' = electSelf cfg (clearTimer id s)) as Hs'.
  { unfold s'. cbn [step]. unfold fireTimer. rewrite Hlive.
    now rewrite determineLeadership_normal. }
  destruct (electSelf_frames cfg (clearTimer id s))
    as ((Htimers & _) & _ & Hposted & Hcalls & Hran).
  rewrite Hs'. rewrite Hposted, Hcalls, Hran.
  split; [|split; [|split; [|split; [|split; [|split; [|split;
    [|split]]]]]]]; try reflexivity.
  intros t t' url'. cbn [step]. unfold fireTimer.
  rewrite Htimers. unfold clearTimer. fields.
  now rewrite lookup_delete_eq.
Qed.

Lemma leader_check_fires_once_witness :
  let s :=
    step (defaultConfig "a-100") withPeerB
      (EvMessage 10 10 "urlA"%string
         (mkTabMessage request_leader "b-200" 9 None)) in
  let s' := step (defaultConfig "a-100") s (EvTimer 3 110 110 "urlA"%string) in
  isLeaderRef s' = true
  /\ step (defaultConfig "a-100") s' (EvTimer 3 120 120 "urlA"%string) = s'.
Proof.
  cbv zeta.
  destruct (leader_check_fires_once (defaultConfig "a-100")
              (step (defaultConfig "a-100") withPeerB
                 (EvMessage 10 10 "urlA"%string
                    (mkTabMessage request_leader "b-200" 9 None)))
              3 110 110 "urlA"%string)
    as (Hleader & _ & _ & _ & _ & _ & _ & _ & Honce).
  - vm_compute. reflexivity.
  - split; [|apply Honce]. rewrite Hleader. vm_compute. reflexivity.
Defined.

(** X16. A tick of the heartbeat interval and a [beforeunload] event only
    announce: in a state the instance can be in, either leaves the timers,
    the channel, the table, the exposed values, the leadership flag and
    the notifier's memory as they were, invokes no callback and does not
    run [updateTabState].  In particular the [beforeunload] listener, unlike
    the cleanup function, stops nothing. *)
Theorem announcements_leave_state (cfg : Config) (s : State) (ev : Event) :
  reachable cfg s ->
  (exists now url, ev = EvBeforeUnload now url)
  \/ (exists id now now' url,
        ev = EvTimer id now now' url
        /\ timers s !! id = Some HeartbeatInterval) ->
  let s' := step cfg s ev in
  sameHost s s' /\ sameView s s'
  /\ callbacks (trace s') = callbacks (trace s)
  /\ recomputations (trace s') = recomputations (trace s).
Proof.
  intros Hreach Hev s'.
  pose proof (reachable_hostOk cfg s Hreach) as Hhost.
  pose proof (reachable_timersOwned cfg s Hreach) as Hown.
  assert (s' = s \/ exists now url type,
            s' = sendMessage cfg now url type s
            /\ channelRef s = Some ChannelOpen
            /\ (type = heartbeat \/ type = tab_closed
                \/ type = request_active_tabs)) as [->|Hsent].
  { destruct Hev as [(now & url & ->)|(id & now & now' & url & -> & Hlive)];
      unfold s'; cbn [step].
    - destruct (mounted s) eqn:Hm; [|now left].
      right. exists now, url, tab_closed. destruct Hhost as [_ Hopen].
      split; [reflexivity|]. split; [now apply Hopen|auto].
    - unfold fireTimer. rewrite Hlive.
      right. exists now, url, heartbeat.
      split; [reflexivity|]. split; [|auto].
      now apply (live_timer_open s id HeartbeatInterval). }
  { split; [apply sameHost_refl|]. split; [apply sameView_refl|]. auto. }
  destruct Hsent as (now & url & type & -> & Hopen & Hkind).
  destruct (sendMessage_frames cfg now url type s) as (Hh & Hv & _);
    [congruence|exact Hkind|].
  destruct (sendMessage_fields cfg now url type s)
    as (_ & _ & _ & _ & _ & _ & _ & Hcalls & Hran).
  repeat split; try apply Hh; try apply Hv; assumption.
Qed.

Lemma announcements_leave_state_witness :
  sameView withPeerB
    (step (defaultConfig "a-100") withPeerB
       (EvBeforeUnload 20 "urlA"%string)).
Proof.
  apply (announcements_leave_state (defaultConfig "a-100") withPeerB
           (EvBeforeUnload 20 "urlA"%string) reachable_withPeerB).
  left. now exists 20, "urlA"%string.
Defined.

(** ** The leadership flag *)

Section LeaderFlag.

Context (cfg : Config).

Lemma updateTabState_leader (now : Z) (url : string) (s : State) :
  isLeaderRef (updateTabState cfg now url s)
  = shouldBeLeader cfg (activeTabsRef (updateTabState cfg now url s)).
Proof.
  destruct (updateTabState_fields cfg now url s)
    as (_ & _ & _ & _ & _ & _ & ->).
  now rewrite updateTabState_table.
Qed.

Lemma step_leader_shape (s : State) (ev : Event) :
  (activeTabsRef (step cfg s ev) = activeTabsRef s
   /\ isLeaderRef (step cfg s ev) = isLeaderRef s)
  \/ isLeaderRef (step cfg s ev)
     = shouldBeLeader cfg (activeTabsRef (step cfg s ev)).
Proof.
  destruct ev as [construct tReq tBeat tNow url|now url
                 |tSend tNow url m|id now now' url|now url]; cbn [step].
  - destruct (mounted s); [now left|].
    destruct (broadcastChannelDefined cfg) eqn:Hsup.
    + destruct construct;
        [|rewrite mountEffect_throws by exact Hsup; left;
          destruct (abandon_fields cfg s)
            as (_ & Htab & _ & _ & _ & Hleader & _);
          now split].
      rewrite mountEffect_supported by exact Hsup. right.
      fields. apply updateTabState_leader.
    + rewrite mountEffect_unsupported by exact Hsup. now left.
  - destruct (mounted s); [|now left].
    destruct (unmountEffect_host cfg now url s)
      as (_ & _ & _ & _ & Htab & _ & _ & _ & _ & Hleader & _).
    now left.
  - destruct (mounted s); [|now left].
    destruct (decide (msg_tabId m = tabIdRef cfg)) as [Hself|Hpeer].
    { rewrite handleMessage_self by exact Hself. now left. }
    rewrite handleMessage_cases by exact Hpeer. cbv zeta.
    destruct (msg_type m); try (right; apply updateTabState_leader).
    + left. unfold rearmLeaderCheck. crush_state. now split.
    + left. crush_state. now split.
  - unfold fireTimer. destruct (timers s !! id) as [[| |]|]; [| | |now left].
    + left. crush_state. now split.
    + rewrite cleanupInactiveTabs_unfold.
      destruct (sweep cfg now s).2; [|now left].
      right. apply updateTabState_leader.
    + right. rewrite determineLeadership_normal. fields. reflexivity.
  - destruct (mounted s); [|now left].
    left. unfold handleUnload. crush_state. now split.
Qed.

Lemma reachable_leader (s : State) :
  reachable cfg s -> isLeaderRef s = shouldBeLeader cfg (activeTabsRef s).
Proof.
  apply (reachable_ind cfg
           (fun s => isLeaderRef s = shouldBeLeader cfg (activeTabsRef s))).
  - symmetry. apply shouldBeLeader_true_iff. intros id Hid.
    unfold initialState in Hid. fields.
    rewrite dom_empty_L in Hid. now apply not_elem_of_empty in Hid.
  - intros s' ev _ IH.
    destruct (step_leader_shape s' ev) as [[Htab Hleader]|Hnew].
    + now rewrite Htab, Hleader.
    + exact Hnew.
Qed.

End LeaderFlag.

(** X17. In every state an instance can be in, [isLeaderRef] agrees with
    the table: it is [true] exactly when the own id is below or equal to
    every id of the table.  Hence the re-check that [request-leader] arms
    never changes the flag when its timeout fires. *)
Theorem leader_flag_agrees_with_table (cfg : Config) (s : State) :
  reachable cfg s ->
  (isLeaderRef s = true
   <-> forall id, id ∈ dom (activeTabsRef s) -> string_le (tabIdRef cfg) id)
  /\ forall id now now' url,
       timers s !! id = Some LeaderElectionTimeout ->
       isLeaderRef (step cfg s (EvTimer id now now' url)) = isLeaderRef s.
Proof.
  intros Hreach. pose proof (reachable_leader cfg s Hreach) as Hflag.
  split.
  - rewrite Hflag. apply shouldBeLeader_true_iff.
  - intros id now now' url Hlive. cbn [step]. unfold fireTimer.
    rewrite Hlive, determineLeadership_normal. fields.
    symmetry. exact Hflag.
Qed.

Lemma leader_flag_agrees_with_table_witness :
  isLeaderRef withPeerB = true
  <-> forall id,
        id ∈ dom (activeTabsRef withPeerB) -> string_le "a-100"%string id.
Proof.
  exact (proj1 (leader_flag_agrees_with_table (defaultConfig "a-100")
                  withPeerB reachable_withPeerB)).
Defined.

(** ** The debounced leader check over a burst *)

Section Burst.

Context (cfg : Config).

(** A [request-leader] message cancels the check that was pending. *)
Lemma request_leader_cancels (tSend tNow : Z) (url : string)
    (message : TabMessage) (s : State) (old : positive) :
  hostOk s -> timersOwned s ->
  msg_tabId message ≠ tabIdRef cfg ->
  msg_type message = request_leader ->
  timers s !! old = Some LeaderElectionTimeout ->
  timers (handleMessage cfg tSend tNow url message s) !! old = None.
Proof.
  intros [Hlead _] Hown Hne Hty Hpending.
  destruct (request_leader_timers cfg tSend tNow url message s Hne Hty)
    as (-> & _ & _).
  destruct (Hown old _ Hpending) as (Hlt & _).
  rewrite lookup_insert_ne by lia.
  rewrite (Hlead old Hpending). apply lookup_delete_eq.
Qed.

(** An id handed out earlier that is not live stays so: ids are not
    handed out twice. *)
Lemma request_leader_keeps_dead (tSend tNow : Z) (url : string)
    (message : TabMessage) (s : State) (x : positive) :
  msg_tabId message ≠ tabIdRef cfg ->
  msg_type message = request_leader ->
  (x < nextTimerId s)%positive ->
  timers s !! x = None ->
  let s' := handleMessage cfg tSend tNow url message s in
  timers s' !! x = None /\ (x < nextTimerId s')%positive.
Proof.
  intros Hne Hty Hlt Hdead.
  destruct (request_leader_timers cfg tSend tNow url message s Hne Hty)
    as (Ht & _ & Hn).
  cbv zeta. rewrite Ht, Hn. split; [|lia].
  rewrite lookup_insert_ne by lia.
  destruct (leaderElectionTimerRef s) as [ref|]; [|exact Hdead].
  destruct (decide (ref = x)) as [->|Hother].
  - apply lookup_delete_eq.
  - now rewrite lookup_delete_ne.
Qed.

Lemma burst_keeps_dead (burst : list Event) (s : State) (x : positive) :
  Forall (requestLeaderFromPeer cfg) burst ->
  mounted s = true ->
  (x < nextTimerId s)%positive ->
  timers s !! x = None ->
  timers (run cfg burst s) !! x = None.
Proof.
  intros Hburst. revert s.
  induction Hburst as [|ev burst Hev _ IH]; intros s Hm Hlt Hdead;
    [exact Hdead|].
  destruct Hev as (tSend & tNow & url & message & -> & Hty & Hne).
  change (run cfg (EvMessage tSend tNow url message :: burst) s)
    with (run cfg burst (step cfg s (EvMessage tSend tNow url message))).
  cbn [step]. rewrite Hm.
  destruct (request_leader_keeps_dead tSend tNow url message s x
              Hne Hty Hlt Hdead) as [Hdead' Hlt'].
  destruct (request_leader_fields cfg tSend tNow url message s Hty)
    as (_ & _ & _ & _ & Hhost & _).
  injection Hhost as _ Hm'.
  apply IH; [now rewrite Hm'|exact Hlt'|exact Hdead'].
Qed.

End Burst.

(** C7. A [request-leader] message of another instance is answered with
    one heartbeat and arms one delayed leader check.  Any check still
    pending at that moment is cancelled: after a burst of such messages,
    with no check firing in between, exactly one check is live; it is the
    one armed by the last message of the burst, under the timer id newly
    handed out for it, and it is the one held in [leaderElectionTimerRef];
    every check that was pending before the burst or was armed by an
    earlier message of it has a different id and is no longer live.  When
    the live check fires it runs [determineLeadership] (so [isLeaderRef]
    becomes whether the own id is the least known id) and none is left;
    one heartbeat was posted per message.  In every reachable state at
    most one leader check is live.  Whatever the state, a leader check
    that fires writes the result of [determineLeadership] to [isLeaderRef]
    and is spent. *)
Theorem request_leader_debounced (cfg : Config) (s : State)
    (burst : list Event) :
  reachable cfg s ->
  mounted s = true ->
  Forall (requestLeaderFromPeer cfg) burst ->
  burst ≠ [] ->
  let s' := run cfg burst s in
  let before := run cfg (removelast burst) s in
  let id := nextTimerId before in
  (size (pendingLeaderChecks s) <= 1)%nat
  /\ timers before !! id = None
  /\ pendingLeaderChecks s' = {[id := LeaderElectionTimeout]}
  /\ leaderElectionTimerRef s' = Some id
  /\ (forall earlier later old,
        burst = earlier ++ later ->
        later ≠ [] ->
        timers (run cfg earlier s) !! old = Some LeaderElectionTimeout ->
        old ≠ id /\ timers s' !! old = None)
  /\ (forall now now' url,
        let fired := step cfg s' (EvTimer id now now' url) in
        fired = (determineLeadership cfg (clearTimer id s')).1
        /\ isLeaderRef fired = shouldBeLeader cfg (activeTabsRef s')
        /\ pendingLeaderChecks fired = ∅)
  /\ length (posted (trace s'))
     = (length burst + length (posted (trace s)))%nat
  /\ Forall (fun m => msg_type m = heartbeat)
       (take (length burst) (posted (trace s')))
  /\ (forall (any : State) (live : positive) now now' url,
        timers any !! live = Some LeaderElectionTimeout ->
        let fired := step cfg any (EvTimer live now now' url) in
        isLeaderRef fired = (determineLeadership cfg any).2
        /\ timers fired = delete live (timers any)).
Proof.
  intros Hreach Hm Hburst Hnonempty s' before id.
  cut (forall (any : State) (live : positive) now now' url,
        timers any !! live = Some LeaderElectionTimeout ->
        let fired := step cfg any (EvTimer live now now' url) in
        isLeaderRef fired = (determineLeadership cfg any).2
        /\ timers fired = delete live (timers any)).
  2:{ intros any live now now' url Hlive. cbv zeta. cbn [step].
      unfold fireTimer. rewrite Hlive, !determineLeadership_normal.
      fields. split; reflexivity. }
  intros Hfire.
  cut ((size (pendingLeaderChecks s) <= 1)%nat
  /\ timers before !! id = None
  /\ pendingLeaderChecks s' = {[id := LeaderElectionTimeout]}
  /\ leaderElectionTimerRef s' = Some id
  /\ (forall earlier later old,
        burst = earlier ++ later ->
        later ≠ [] ->
        timers (run cfg earlier s) !! old = Some LeaderElectionTimeout ->
        old ≠ id /\ timers s' !! old = None)
  /\ (forall now now' url,
        let fired := step cfg s' (EvTimer id now now' url) in
        fired = (determineLeadership cfg (clearTimer id s')).1
        /\ isLeaderRef fired = shouldBeLeader cfg (activeTabsRef s')
        /\ pendingLeaderChecks fired = ∅)
  /\ length (posted (trace s'))
     = (length burst + length (posted (trace s)))%nat
  /\ Forall (fun m => msg_type m = heartbeat)
       (take (length burst) (posted (trace s')))).
  { intros (H1 & H2 & H3 & H4 & H5 & H6 & H7 & H8).
    repeat (split; [assumption|]). exact Hfire. }
  clear Hfire.
  pose proof (reachable_hostOk cfg s Hreach) as Hhost.
  assert (channelRef s = Some ChannelOpen) as Hopen
      by (destruct Hhost as [_ Hch]; now apply Hch).
  assert (exists l ev, burst = l ++ [ev]) as (l & ev & Hl).
  { destruct burst as [|ev l _] using rev_ind; [congruence|eauto]. }
  assert (before = run cfg l s) as Hbefore
      by (unfold before; now rewrite Hl, removelast_last).
  pose proof Hburst as Hparts. rewrite Hl in Hparts.
  apply Forall_app in Hparts as [Hl_ok Hev].
  apply Forall_singleton in Hev
    as (tSend & tNow & url & message & Hev & Hty & Hne).
  destruct (burst_replies cfg l s Hl_ok Hm Hopen) as (Hm' & _ & _).
  fold before in Hm'. rewrite <- Hbefore in Hm'.
  assert (reachable cfg before) as Hreach'
      by (rewrite Hbefore; now apply reachable_run).
  pose proof (reachable_hostOk cfg before Hreach') as Hhost'.
  pose proof (reachable_timersOwned cfg before Hreach') as Hown'.
  assert (s' = handleMessage cfg tSend tNow url message before) as Hlast.
  { unfold s'. rewrite Hl, run_snoc, <- Hbefore, Hev. cbn [step].
    now rewrite Hm'. }
  assert (pendingLeaderChecks s' = {[id := LeaderElectionTimeout]}) as Hone.
  { rewrite Hlast. now apply request_leader_rearms. }
  assert (timers s' !! id = Some LeaderElectionTimeout) as Hlive.
  { pose proof (pendingLeaderChecks_lookup s' id) as Hlookup.
    rewrite Hone, lookup_singleton_eq in Hlookup.
    destruct (timers s' !! id) as [[| |]|]; congruence. }
  split; [now apply pendingLeaderChecks_at_most_one|].
  split.
  { destruct (timers before !! id) as [kind|] eqn:Hused; [|reflexivity].
    destruct (Hown' id kind Hused) as (Hlt & _). unfold id in Hlt. lia. }
  split; [exact Hone|].
  split.
  { rewrite Hlast.
    now destruct (request_leader_timers cfg tSend tNow url message before
                    Hne Hty) as (_ & Href & _). }
  split.
  { intros earlier later old Hsplit Hlater Hpending.
    assert (timers s' !! old = None) as Hdead.
    { destruct later as [|next rest]; [congruence|].
      pose proof Hburst as Hparts. rewrite Hsplit in Hparts.
      apply Forall_app in Hparts as [Hearlier Hparts].
      apply Forall_cons in Hparts as [Hnext Hrest].
      destruct Hnext as (tSend1 & tNow1 & url1 & m1 & -> & Hty1 & Hne1).
      destruct (burst_replies cfg earlier s Hearlier Hm Hopen)
        as (Hm1 & _ & _).
      assert (reachable cfg (run cfg earlier s)) as Hreach1
          by now apply reachable_run.
      pose proof (reachable_hostOk cfg _ Hreach1) as Hhost1.
      pose proof (reachable_timersOwned cfg _ Hreach1) as Hown1.
      unfold s'. rewrite Hsplit, run_app.
      change (run cfg (EvMessage tSend1 tNow1 url1 m1 :: rest)
                (run cfg earlier s))
        with (run cfg rest
                (step cfg (run cfg earlier s)
                   (EvMessage tSend1 tNow1 url1 m1))).
      cbn [step]. rewrite Hm1.
      destruct (Hown1 old _ Hpending) as (Hlt & _).
      destruct (request_leader_timers cfg tSend1 tNow1 url1 m1
                  (run cfg earlier s) Hne1 Hty1) as (_ & _ & Hnext).
      destruct (request_leader_fields cfg tSend1 tNow1 url1 m1
                  (run cfg earlier s) Hty1) as (_ & _ & _ & _ & Hhost2 & _).
      injection Hhost2 as _ Hm2.
      apply burst_keeps_dead;
        [exact Hrest|now rewrite Hm2|rewrite Hnext; lia|].
      now apply request_leader_cancels. }
    split; [|exact Hdead]. intros ->. congruence. }
  split.
  { intros now now' url'. cbv zeta. split; [|split].
    - cbn [step]. unfold fireTimer. now rewrite Hlive.
    - cbn [step]. unfold fireTimer.
      rewrite Hlive, determineLeadership_normal. fields. reflexivity.
    - now apply fire_leader_check_clears. }
  destruct (burst_replies cfg burst s Hburst Hm Hopen) as (_ & _ & Hlen).
  split; [exact Hlen|].
  unfold s'. clear - Hburst Hm Hopen.
  induction burst as [|ev burst IH] using rev_ind; [constructor|].
  apply Forall_app in Hburst as [Hburst Hev].
  apply Forall_singleton in Hev
    as (tSend & tNow & url & message & -> & Hty & Hne).
  destruct (burst_replies cfg burst s Hburst Hm Hopen) as (Hm' & Hopen' & Hlen).
  rewrite run_snoc. simpl. rewrite Hm'.
  rewrite request_leader_posted by assumption.
  rewrite length_app. simpl.
  replace (length burst + 1)%nat with (S (length burst)) by lia.
  simpl. constructor; [reflexivity|]. now apply IH.
Qed.

Lemma request_leader_debounced_witness :
  let s' := run (defaultConfig "a-100") leaderRequests withPeerB in
  pendingLeaderChecks s' = {[4%positive := LeaderElectionTimeout]}
  /\ timers s' !! 3%positive = None
  /\ length (posted (trace s')) = (2 + length (posted (trace withPeerB)))%nat.
Proof.
  assert (mounted withPeerB = true) as Hm by (vm_compute; reflexivity).
  assert (leaderRequests ≠ []) as Hne by discriminate.
  destruct (request_leader_debounced (defaultConfig "a-100") withPeerB
              leaderRequests reachable_withPeerB Hm
              leaderRequests_from_peers Hne)
    as (_ & _ & Hone & _ & Hcancelled & _ & Hlen & _).
  cbv zeta. split; [exact Hone|]. split; [|exact Hlen].
  apply (Hcancelled
           [EvMessage 10 10 "urlA"%string
              (mkTabMessage request_leader "b-200" 9 None)]
           [EvMessage 11 11 "urlA"%string
              (mkTabMessage request_leader "c-300" 10 None)]).
  - reflexivity.
  - discriminate.
  - vm_compute. reflexivity.
Defined.
